(** * qrcode2stl: the tag model generator of [src/base.js]

    A shallow embedding of the class [BaseTag3D] and the properties its
    specification states about it.

    Conventions of the embedding.
    - A JavaScript number is an exact rational ([Q]); rounding of IEEE
      doubles and the values NaN and Infinity of a measurement are not
      represented.  Angles are stored as rational multiples of [Math.PI].
    - A JavaScript string is a list of code units, restricted to the
      8-bit range ([ascii]).
    - three.js and [./utils] are outside [src/base.js]; their operations
      are the fields of the interface [Three]. *)

From Stdlib Require Import List String Ascii Bool Arith ZArith QArith Lia.
Import ListNotations.

Set Implicit Arguments.

(* ================================================================== *)
(** * JavaScript values used by the generator *)

Module JS.

(** A string value: the sequence of its code units. *)
Definition jsstring := list ascii.

(** String literals of the source. *)
Definition str (s : string) : jsstring := list_ascii_of_string s.

Definition star : ascii := "*"%char.
Definition LF : ascii := "010"%char.

(** [s.length] *)
Definition length (s : jsstring) : Z := Z.of_nat (List.length s).

(** [s[i]]: [None] is [undefined], the value of an index out of range. *)
Definition charAt (s : jsstring) (i : Z) : option ascii :=
  if (i <? 0)%Z then None else nth_error s (Z.to_nat i).

(** [s[i] === c] *)
Definition charIs (s : jsstring) (i : Z) (c : ascii) : bool :=
  match charAt s i with
  | Some d => Ascii.eqb d c
  | None => false
  end.

(** [s.substr(start, len)] (ECMAScript B.2.2.1): the start is counted
    from the end when negative and clamped to the string, the length is
    clamped to [0 .. s.length]. *)
Definition substr (s : jsstring) (start len : Z) : jsstring :=
  let size := length s in
  let intStart := if (start <? 0)%Z then Z.max (size + start) 0 else Z.min start size in
  let intLength := Z.min (Z.max len 0) size in
  let intEnd := Z.min (intStart + intLength) size in
  firstn (Z.to_nat (intEnd - intStart)) (skipn (Z.to_nat intStart) s).

(** ['*'.repeat(n)] *)
Definition repeat (c : ascii) (n : nat) : jsstring := List.repeat c n.

(** White space and line terminators removed by [trim], among the code
    units below 256: TAB, LF, VT, FF, CR, SP and NBSP. *)
Definition isWhiteSpace (c : ascii) : bool :=
  match nat_of_ascii c with
  | 9%nat | 10%nat | 11%nat | 12%nat | 13%nat | 32%nat | 160%nat => true
  | _ => false
  end.

Fixpoint trimStart (s : jsstring) : jsstring :=
  match s with
  | [] => []
  | c :: r => if isWhiteSpace c then trimStart r else s
  end.

Definition trimEnd (s : jsstring) : jsstring := rev (trimStart (rev s)).

(** [s.trim()] *)
Definition trim (s : jsstring) : jsstring := trimEnd (trimStart s).

(** [s.split(sep)] for a one-character separator; the result is never
    empty: [''.split(sep)] is [['']]. *)
Fixpoint split (sep : ascii) (s : jsstring) : list jsstring :=
  match s with
  | [] => [[]]
  | c :: r =>
      if Ascii.eqb c sep then [] :: split sep r
      else match split sep r with
           | h :: t => (c :: h) :: t
           | [] => [[c]]
           end
  end.

(** The values an entry of the array [textLines] can hold: the wrap loop
    stores [text[text.length - 1]], which is [undefined] for an empty
    text, and [undefined + undefined] is the number [NaN]. *)
Inductive value : Type :=
| Undefined
| NaN
| Str (s : jsstring).

(** [String(v)] *)
Definition toString (v : value) : jsstring :=
  match v with
  | Undefined => str "undefined"
  | NaN => str "NaN"
  | Str s => s
  end.

(** [a + b]: concatenation as soon as one operand is a string. *)
Definition add (a b : value) : value :=
  match a, b with
  | Str x, _ => Str (x ++ toString b)
  | _, Str y => Str (toString a ++ y)
  | _, _ => NaN
  end.

(** The value of [s[i]] as an array entry. *)
Definition ofChar (c : option ascii) : value :=
  match c with
  | Some d => Str [d]
  | None => Undefined
  end.

(** [a[i]] *)
Definition get (a : list value) (i : nat) : value := nth i a Undefined.

(** [a[i] = v]: an index past the end extends the array. *)
Definition set (a : list value) (i : nat) (v : value) : list value :=
  if (i <? List.length a)%nat
  then firstn i a ++ v :: skipn (S i) a
  else a ++ List.repeat Undefined (i - List.length a) ++ [v].

(** [a.splice(i, 0, v)] *)
Definition splice (a : list value) (i : nat) (v : value) : list value :=
  firstn i a ++ v :: skipn i a.

(** [a.join(sep)]: [undefined] is joined as the empty string. *)
Definition joinItem (v : value) : jsstring :=
  match v with
  | Undefined => []
  | _ => toString v
  end.

Fixpoint join (sep : ascii) (a : list value) : jsstring :=
  match a with
  | [] => []
  | [v] => joinItem v
  | v :: r => joinItem v ++ sep :: join sep r
  end.

(** [a > b] on numbers. *)
Definition gt (a b : Q) : bool := negb (Qle_bool a b).

(** [Math.max(a, b)] *)
Definition max (a b : Q) : Q := if Qle_bool a b then b else a.

End JS.

(* ================================================================== *)
(** * Emphasis markers *)

Inductive Font : Type :=
| fontRegular        (* Inter_SemiBold *)
| fontRegularItalic  (* Inter_SemiBold_Italic *)
| fontBold           (* Inter_ExtraBold *)
| fontBoldItalic.    (* Inter_ExtraBold_Italic *)

(** [const fonts = [fontRegular, fontRegularItalic, fontBold, fontBoldItalic]] *)
Definition fonts : list Font :=
  [fontRegular; fontRegularItalic; fontBold; fontBoldItalic].

(** The loop
[[
  while (text[0] === '*' && text[text.length - 1] === '*') {
    text = text.substr(1, text.length - 2);
    emphLevel += 1;
    if (emphLevel === 3) break;
  }
]]
    run for at most [fuel] tests of its condition. *)
Fixpoint stripLoop (fuel : nat) (text : JS.jsstring) (emphLevel : nat)
  : option (JS.jsstring * nat) :=
  match fuel with
  | O => None
  | S fuel' =>
      if JS.charIs text 0 JS.star && JS.charIs text (JS.length text - 1) JS.star
      then
        let text' := JS.substr text 1 (JS.length text - 2) in
        let emphLevel' := (emphLevel + 1)%nat in
        if (emphLevel' =? 3)%nat then Some (text', emphLevel')
        else stripLoop fuel' text' emphLevel'
      else Some (text, emphLevel)
  end.

(** The loop entered with [emphLevel = 0] leaves through [break] in its
    third iteration at the latest: see [stripLoop_total]. *)
Definition stripEmphasis (line : JS.jsstring) : JS.jsstring * nat :=
  match stripLoop 3 line 0 with
  | Some r => r
  | None => (line, 0%nat)
  end.

(* ================================================================== *)
(** * Geometry values *)

Record Vector3 : Type := mkVector3 { vx : Q; vy : Q; vz : Q }.

(** Euler angles, in multiples of [Math.PI]. *)
Record Euler : Type := mkEuler { ex : Q; ey : Q; ez : Q }.

(** The matrix [updateMatrix] composes from position, rotation and scale. *)
Record Matrix4 : Type := compose
  { m_position : Vector3; m_rotation : Euler; m_scale : Vector3 }.

Definition zero3 : Vector3 := mkVector3 0 0 0.
Definition one3 : Vector3 := mkVector3 1 1 1.
Definition noRotation : Euler := mkEuler 0 0 0.
Definition identity : Matrix4 := compose zero3 noRotation one3.

(** [new THREE.MeshBasicMaterial({ color })] *)
Record Material : Type := MeshBasicMaterial { color : Z }.

(** Modelled from the spec: [getRoundedRectShape] and
    [getCustomRoundedRectShape] of [./utils] are not part of the source at
    hand.  Section 4.1 describes their result as a closed profile given by
    its origin (x, y), its width and height, and the radius of each of its
    four corners, in the argument order (x, y, w, h, r_tl, r_tr, r_br,
    r_bl); the uniform variant uses one radius for the four corners. *)
Record Shape : Type := mkShape
  { shape_x : Q; shape_y : Q; shape_width : Q; shape_height : Q;
    r_tl : Q; r_tr : Q; r_br : Q; r_bl : Q }.

Definition getCustomRoundedRectShape (x y w h tl tr br bl : Q) : Shape :=
  mkShape x y w h tl tr br bl.

Definition getRoundedRectShape (x y w h r : Q) : Shape :=
  mkShape x y w h r r r r.

(** [THREE.Mesh]: a geometry and a material with a local transform;
    [matrix] is the transform as of the last [updateMatrix]. *)
Record Mesh (G : Type) : Type := mkMesh
  { geometry : G;
    material : Material;
    position : Vector3;
    rotation : Euler;
    scale : Vector3;
    matrix : Matrix4 }.

(** [new THREE.Mesh(geometry, material)] *)
Definition newMesh {G : Type} (g : G) (m : Material) : Mesh G :=
  mkMesh g m zero3 noRotation one3 identity.

Definition setPosition {G : Type} (m : Mesh G) (p : Vector3) : Mesh G :=
  mkMesh (geometry m) (material m) p (rotation m) (scale m) (matrix m).

Definition setPositionX {G : Type} (m : Mesh G) (x : Q) : Mesh G :=
  setPosition m (mkVector3 x (vy (position m)) (vz (position m))).

Definition setPositionY {G : Type} (m : Mesh G) (y : Q) : Mesh G :=
  setPosition m (mkVector3 (vx (position m)) y (vz (position m))).

Definition setPositionZ {G : Type} (m : Mesh G) (z : Q) : Mesh G :=
  setPosition m (mkVector3 (vx (position m)) (vy (position m)) z).

Definition setRotation {G : Type} (m : Mesh G) (r : Euler) : Mesh G :=
  mkMesh (geometry m) (material m) (position m) r (scale m) (matrix m).

Definition setRotationX {G : Type} (m : Mesh G) (a : Q) : Mesh G :=
  setRotation m (mkEuler a (ey (rotation m)) (ez (rotation m))).

Definition setRotationZ {G : Type} (m : Mesh G) (a : Q) : Mesh G :=
  setRotation m (mkEuler (ex (rotation m)) (ey (rotation m)) a).

(** [mesh.updateMatrix()] *)
Definition updateMatrix {G : Type} (m : Mesh G) : Mesh G :=
  mkMesh (geometry m) (material m) (position m) (rotation m) (scale m)
         (compose (position m) (rotation m) (scale m)).

(** The operations of three.js and of [./utils] the generator calls.  They
    are pure; [mergeGeometries] is taken with a geometry as its result. *)
Class Three : Type := {
  Geometry : Type;
  (** [new THREE.BufferGeometry()] *)
  BufferGeometry : Geometry;
  (** [new THREE.ExtrudeGeometry(shape, { steps: 1, depth, bevelEnabled: false })];
      the shape is [None] when the variable holding it is [undefined]. *)
  ExtrudeGeometry : option Shape -> Q -> Geometry;
  (** [new THREE.CylinderGeometry(radiusTop, radiusBottom, height, radialSegments)] *)
  CylinderGeometry : Q -> Q -> Q -> Z -> Geometry;
  (** [new THREE.BoxGeometry(width, height, depth)] *)
  BoxGeometry : Q -> Q -> Q -> Geometry;
  (** [new TextGeometry(text, { font, size, depth })] *)
  TextGeometry : JS.jsstring -> option Font -> Q -> Q -> Geometry;
  (** [geometry.attributes.position] is set *)
  hasPosition : Geometry -> bool;
  (** [geometry.index !== null] *)
  hasIndex : Geometry -> bool;
  toNonIndexed : Geometry -> Geometry;
  applyMatrix4 : Geometry -> Matrix4 -> Geometry;
  mergeGeometries : list Geometry -> Geometry;
  subtractMesh : Mesh Geometry -> Mesh Geometry -> Mesh Geometry;
  unionMesh : Mesh Geometry -> Mesh Geometry -> Mesh Geometry;
  getBoundingBoxSize : Mesh Geometry -> Vector3
}.

(* ================================================================== *)
(** * Configuration *)

Record BaseOptions : Type := mkBaseOptions
  { width : Q;
    height : Q;
    depth : Q;
    shape : string;
    cornerRadius : Q;
    hasBorder : bool;
    borderWidth : Q;
    borderDepth : Q;
    textPlacement : string;
    textAlign : string;
    hasText : bool;
    textMessage : JS.jsstring;
    textSize : Q;
    textDepth : Q;
    textMargin : Q;
    hasNfcIndentation : bool;
    nfcIndentationShape : string;
    nfcIndentationSize : Q;
    nfcIndentationDepth : Q;
    nfcIndentationHidden : bool;
    hasKeychainAttachment : bool;
    keychainHoleDiameter : Q;
    keychainPlacement : string;
    mirrorHoles : bool }.

Record CodeOptions : Type := mkCodeOptions { margin : Q; invert : bool }.

(** The options object; a colour is [None] when the caller leaves it out. *)
Record Options : Type := mkOptions
  { baseColor : option Z;
    qrcodeColor : option Z;
    base : BaseOptions;
    code : CodeOptions }.

(** [options.base.textMessage = m] *)
Definition setTextMessage (o : Options) (m : JS.jsstring) : Options :=
  let b := base o in
  mkOptions (baseColor o) (qrcodeColor o)
    (mkBaseOptions (width b) (height b) (depth b) (shape b) (cornerRadius b)
       (hasBorder b) (borderWidth b) (borderDepth b) (textPlacement b)
       (textAlign b) (hasText b) m (textSize b) (textDepth b) (textMargin b)
       (hasNfcIndentation b) (nfcIndentationShape b) (nfcIndentationSize b)
       (nfcIndentationDepth b) (nfcIndentationHidden b)
       (hasKeychainAttachment b) (keychainHoleDiameter b)
       (keychainPlacement b) (mirrorHoles b))
    (code o).

Definition LINE_HEIGHT : Q := 3 # 2.

(** An object with string keys, in insertion order. *)
Fixpoint objSet {A : Type} (o : list (string * A)) (k : string) (v : A)
  : list (string * A) :=
  match o with
  | [] => [(k, v)]
  | (k', v') :: r =>
      if String.eqb k' k then (k, v) :: r else (k', v') :: objSet r k v
  end.

Definition objKeys {A : Type} (o : list (string * A)) : list string :=
  map fst o.

Fixpoint objGet {A : Type} (o : list (string * A)) (k : string) : option A :=
  match o with
  | [] => None
  | (k', v) :: r => if String.eqb k' k then Some v else objGet r k
  end.

(* ================================================================== *)
(** * The class [BaseTag3D] *)

Section BaseTag3D.

Context {T : Three}.

(** The fields of [this]. *)
Record BaseTag3D : Type := mkBaseTag3D
  { options : Options;
    materialBase : Material;
    materialDetail : Material;
    availableWidth : Q;
    baseMesh : option (Mesh Geometry);
    borderMesh : option (Mesh Geometry);
    subtitleMesh : option (Mesh Geometry);
    keychainAttachmentMesh : option (Mesh Geometry);
    combinedMesh : option (Mesh Geometry);
    exportedMeshes : list (string * Mesh Geometry) }.

(** [{ ...defaultOptions, ...options }] *)
Definition withDefaults (o : Options) : Options :=
  mkOptions
    (match baseColor o with Some c => Some c | None => Some 16777215%Z end)
    (match qrcodeColor o with Some c => Some c | None => Some 0%Z end)
    (base o) (code o).

Definition colorOf (c : option Z) : Material :=
  MeshBasicMaterial (match c with Some z => z | None => 0%Z end).

Definition constructor (o : Options) : BaseTag3D :=
  let opts := withDefaults o in
  let availableWidth0 := width (base opts) - 2 * margin (code opts) in
  let availableWidth1 :=
    if hasBorder (base opts)
    then availableWidth0 - 2 * borderWidth (base opts)
    else availableWidth0 in
  mkBaseTag3D opts (colorOf (baseColor opts)) (colorOf (qrcodeColor opts))
    availableWidth1 None None None None None [].

Definition opt (this : BaseTag3D) : BaseOptions := base (options this).

Definition placementIs (this : BaseTag3D) (s : string) : bool :=
  String.eqb (textPlacement (opt this)) s.

Definition isOffsetTopBottom (this : BaseTag3D) : bool :=
  placementIs this "top" || placementIs this "bottom" || placementIs this "center".

Definition isOffsetLeftRight (this : BaseTag3D) : bool :=
  placementIs this "left" || placementIs this "right".

Definition getCornerRadius (this : BaseTag3D) : Q :=
  if String.eqb (shape (opt this)) "roundedRectangle"
  then cornerRadius (opt this)
  else 0.

(** [this.options.base.textMessage.trim().split('\n')] *)
Definition messageLines (this : BaseTag3D) : list JS.jsstring :=
  JS.split JS.LF (JS.trim (textMessage (opt this))).

(** The mesh whose bounding box gives the width of a text in a font. *)
Definition textMesh (this : BaseTag3D) (text : JS.jsstring) (font : option Font)
  : Mesh Geometry :=
  newMesh (TextGeometry text font (textSize (opt this)) (textDepth (opt this)))
          (materialDetail this).

(** The body of the loop of [getTextRenderWidth] for one line. *)
Definition renderWidthStep (this : BaseTag3D) (maxWidth : Q) (line : JS.jsstring) : Q :=
  let text := fst (stripEmphasis line) in
  let textSize_ := getBoundingBoxSize (textMesh this text (Some fontRegular)) in
  if JS.gt (vx textSize_) maxWidth then vx textSize_ else maxWidth.

Definition getTextRenderWidth (this : BaseTag3D) : Q :=
  if negb (hasText (opt this)) then 0
  else fold_left (renderWidthStep this) (messageLines this) 0.

Definition getTextBaseOffset (this : BaseTag3D) : Q :=
  if hasText (opt this) then
    if placementIs this "top" || placementIs this "bottom" then
      let numLines := List.length (messageLines this) in
      (textSize (opt this) * inject_Z (Z.of_nat numLines) * LINE_HEIGHT)
      + (2 * textMargin (opt this))
    else if placementIs this "left" then
      getTextRenderWidth this + (2 * textMargin (opt this))
    else if placementIs this "right" then
      getTextRenderWidth this + (2 * textMargin (opt this))
    else 0
  else 0.

Definition getTextTopOffset (this : BaseTag3D) : Q :=
  if placementIs this "top" then 2 * getTextBaseOffset this - (1 # 10)
  else 0.

Definition getTextLeftOffset (this : BaseTag3D) : Q :=
  if placementIs this "left" then 2 * getTextBaseOffset this
  else if placementIs this "right" then 0
  else 0.

(* ------------------------------------------------------------------ *)
(** ** [getBaseMesh] *)

(** The profile of the plate; [None] when neither branch assigns [shape]. *)
Definition basePlateShape (this : BaseTag3D) : option Shape :=
  let textBaseOffset := getTextBaseOffset this in
  let b := opt this in
  if isOffsetTopBottom this then
    Some (getRoundedRectShape
            (- (height b + textBaseOffset) / 2)
            (- width b / 2)
            (height b + textBaseOffset)
            (width b)
            (getCornerRadius this))
  else if isOffsetLeftRight this then
    Some (getRoundedRectShape
            (- height b / 2)
            (- (width b + textBaseOffset) / 2)
            (height b)
            (width b + textBaseOffset)
            (getCornerRadius this))
  else None.

(** The plate up to its first [updateMatrix]: extruded, then shifted to
    make room for the text. *)
Definition basePlateMesh (this : BaseTag3D) : Mesh Geometry :=
  let textBaseOffset := getTextBaseOffset this in
  let modelBase := ExtrudeGeometry (basePlateShape this) (depth (opt this)) in
  let baseMesh0 := setPosition (newMesh modelBase (materialBase this)) (mkVector3 0 0 0) in
  let baseMesh1 :=
    if JS.gt textBaseOffset 0 then
      if placementIs this "bottom" then setPositionX baseMesh0 (textBaseOffset / 2)
      else if placementIs this "top" then setPositionX baseMesh0 (- textBaseOffset / 2)
      else if placementIs this "center" then setPositionX baseMesh0 0
      else if placementIs this "left" then setPositionY baseMesh0 (- textBaseOffset / 2)
      else if placementIs this "right" then setPositionY baseMesh0 (textBaseOffset / 2)
      else baseMesh0
    else baseMesh0 in
  updateMatrix baseMesh1.

(** The solid of the NFC indentation, placed against the plate [baseMesh]. *)
Definition nfcHoleMesh (this : BaseTag3D) (baseMesh : Mesh Geometry) : Mesh Geometry :=
  let b := opt this in
  let holeMesh0 :=
    if String.eqb (nfcIndentationShape b) "round" then
      setRotationX
        (newMesh (CylinderGeometry (nfcIndentationSize b / 2)
                                   (nfcIndentationSize b / 2)
                                   (nfcIndentationDepth b) 32)
                 (materialBase this))
        (- (1 # 2))
    else
      newMesh (BoxGeometry (nfcIndentationSize b) (nfcIndentationSize b)
                           (nfcIndentationDepth b))
              (materialBase this) in
  let holeMesh1 := setPositionZ holeMesh0 (nfcIndentationDepth b / 2) in
  let holeMesh2 :=
    if nfcIndentationHidden b
    then setPositionZ holeMesh1 (vz (position holeMesh1) + 1)
    else holeMesh1 in
  let holeMesh3 := setPositionX holeMesh2 (vx (position baseMesh)) in
  updateMatrix holeMesh3.

Definition getBaseMesh (this : BaseTag3D) : Mesh Geometry :=
  let baseMesh := basePlateMesh this in
  if hasNfcIndentation (opt this) then
    updateMatrix (subtractMesh baseMesh (nfcHoleMesh this baseMesh))
  else baseMesh.

(* ------------------------------------------------------------------ *)
(** ** [getSubtitleMesh] *)

(** The variables of the [do ... while] loop that wraps one line. *)
Record Wrap : Type := mkWrap
  { w_text : JS.jsstring;
    w_textLines : list JS.value;
    w_numLines : nat;
    w_newLineCreated : bool;
    w_textSize : Vector3;
    w_subtitleMesh : Mesh Geometry }.

(** The loop
[[
  do {
    subtitleMesh = new THREE.Mesh(new TextGeometry(text, ...), ...);
    textSize = getBoundingBoxSize(subtitleMesh);
    if (textSize.x > this.availableWidth) {
      const lastChar = text[text.length - 1];
      text = text.substr(0, text.length - 1);
      if (!newLineCreated) { textLines.splice(i + 1, 0, lastChar); numLines += 1; }
      else { textLines[i + 1] = lastChar + textLines[i + 1]; }
      newLineCreated = true;
    }
  } while (textSize.x > this.availableWidth);
]]
    run for at most [fuel] iterations; [None] when it has not left by then. *)
Fixpoint wrapLoop (this : BaseTag3D) (fuel : nat) (i emphLevel : nat)
  (text : JS.jsstring) (textLines : list JS.value) (numLines : nat)
  (newLineCreated : bool) : option Wrap :=
  match fuel with
  | O => None
  | S fuel' =>
      let subtitleMesh := textMesh this text (nth_error fonts emphLevel) in
      let textSize_ := getBoundingBoxSize subtitleMesh in
      if JS.gt (vx textSize_) (availableWidth this) then
        let lastChar := JS.ofChar (JS.charAt text (JS.length text - 1)) in
        let text' := JS.substr text 0 (JS.length text - 1) in
        if negb newLineCreated then
          wrapLoop this fuel' i emphLevel text'
                   (JS.splice textLines (i + 1) lastChar) (numLines + 1) true
        else
          wrapLoop this fuel' i emphLevel text'
                   (JS.set textLines (i + 1)
                           (JS.add lastChar (JS.get textLines (i + 1))))
                   numLines true
      else
        Some (mkWrap text textLines numLines newLineCreated textSize_ subtitleMesh)
  end.

(** What one iteration of the [for] loop hands on: the array of lines and
    its count, the mesh of the line, and the text and emphasis level the
    mesh was built from. *)
Record Line : Type := mkLine
  { l_textLines : list JS.value;
    l_numLines : nat;
    l_text : JS.jsstring;
    l_emphLevel : nat;
    l_mesh : Mesh Geometry }.

Definition alignIs (this : BaseTag3D) (s : string) : bool :=
  String.eqb (textAlign (opt this)) s.

Definition natQ (n : nat) : Q := inject_Z (Z.of_nat n).

(** The branch of the loop body for the placements top, bottom and center. *)
Definition lineTopBottomCenter (this : BaseTag3D) (fuel : nat) (i : nat)
  (text : JS.jsstring) (emphLevel : nat) (textLines : list JS.value)
  (numLines : nat) : option Line :=
  let b := opt this in
  match wrapLoop this fuel i emphLevel text textLines numLines false with
  | None => None
  | Some w =>
      let textLines1 :=
        if w_newLineCreated w then
          JS.set (w_textLines w) (i + 1)
            (JS.add (JS.add (JS.Str (JS.repeat JS.star emphLevel))
                            (JS.get (w_textLines w) (i + 1)))
                    (JS.Str (JS.repeat JS.star emphLevel)))
        else w_textLines w in
      let numLines1 := w_numLines w in
      let textSize_ := w_textSize w in
      let topSide :=
        - height b / 2 - textMargin b - textSize b * natQ i * LINE_HEIGHT in
      let bottomSide :=
        height b / 2 + textMargin b + textSize b * natQ (i + 1) * LINE_HEIGHT
        - (if hasBorder b then borderWidth b else 0) in
      let center :=
        (if (1 <? numLines1)%nat then - natQ numLines1 * (textSize b / 2) else 0)
        + textSize b / 2 + textSize b * natQ i * LINE_HEIGHT in
      let placement :=
        if placementIs this "top" then topSide
        else if placementIs this "center" then center
        else bottomSide in
      let alignment :=
        if alignIs this "left" then - availableWidth this / 2 + textMargin b
        else if alignIs this "center" then - vx textSize_ / 2
        else if alignIs this "right" then
          - vx textSize_ + availableWidth this / 2 - textMargin b
        else - vx textSize_ / 2 in
      Some (mkLine textLines1 numLines1 (w_text w) emphLevel
              (setPosition (w_subtitleMesh w)
                           (mkVector3 placement alignment (depth b))))
  end.

(** The branch of the loop body for the placements left and right. *)
Definition lineLeftRight (this : BaseTag3D) (i : nat)
  (text : JS.jsstring) (emphLevel : nat) (textLines : list JS.value)
  (numLines : nat) : Line :=
  let b := opt this in
  let maxTextWidth := getTextRenderWidth this + (2 * textMargin b) in
  let subtitleMesh := textMesh this text (nth_error fonts emphLevel) in
  let textSize_ := getBoundingBoxSize subtitleMesh in
  let leftSide :=
    - width b / 2 - vx textSize_ - (maxTextWidth - vx textSize_) / 2
    + (if hasBorder b then borderWidth b else 0) in
  let rightSide :=
    width b / 2 + (maxTextWidth - vx textSize_) / 2
    - (if hasBorder b then borderWidth b else 0) in
  let side := if placementIs this "left" then leftSide else rightSide in
  let alignment :=
    if alignIs this "left" then
      - height b / 2 + textMargin b + textSize b * natQ (i + 1) * LINE_HEIGHT
    else if alignIs this "right" then
      height b / 2 - textMargin b
      - textSize b * (natQ numLines - natQ i) * LINE_HEIGHT + textSize b
    else
      if (numLines =? 1)%nat then textSize b / 2
      else (textSize b * natQ (i + 1) * LINE_HEIGHT)
           - (natQ numLines * (textSize b * LINE_HEIGHT)) / 2 in
  mkLine textLines numLines text emphLevel
    (setPosition subtitleMesh (mkVector3 alignment side (depth b))).

(** The body of the [for] loop up to the placement of the mesh of line
    [i]; [None] when the wrap loop does not leave within [fuel]
    iterations, or the body throws: [text[0]] of an entry that is
    [undefined], [subtitleMesh.rotation] of the [null] no branch
    replaced.  An entry that is not a string is left only by a wrap loop
    that does not end: the body never reads one (see [lineStep_strings]). *)
Definition lineStep (this : BaseTag3D) (fuel : nat) (i : nat)
  (textLines : list JS.value) (numLines : nat) : option Line :=
  match JS.get textLines i with
  | JS.Str line =>
      let '(text, emphLevel) := stripEmphasis line in
      if isOffsetTopBottom this then
        lineTopBottomCenter this fuel i text emphLevel textLines numLines
      else if isOffsetLeftRight this then
        Some (lineLeftRight this i text emphLevel textLines numLines)
      else None
  | _ => None
  end.

(** The end of the loop body: the mesh is turned, its geometry is given
    its transform and merged into [textGeometry]. *)
Definition mergeLine (textGeometry : Geometry) (subtitleMesh : Mesh Geometry)
  : Geometry :=
  let subtitleMesh1 := updateMatrix (setRotation subtitleMesh (mkEuler 0 0 (1 # 2))) in
  let tempGeometry := applyMatrix4 (geometry subtitleMesh1) (matrix subtitleMesh1) in
  if negb (hasPosition textGeometry) then tempGeometry
  else
    let geo1 := if hasIndex textGeometry then toNonIndexed textGeometry else textGeometry in
    let geo2 := if hasIndex tempGeometry then toNonIndexed tempGeometry else tempGeometry in
    mergeGeometries [geo1; geo2].

(** The state of the [for] loop; [s_rendered] records, for the statements
    below, the text and level each line was rendered with. *)
Record Lines : Type := mkLines
  { s_textLines : list JS.value;
    s_numLines : nat;
    s_textGeometry : Geometry;
    s_rendered : list Line }.

(** [for (let i = 0; i < numLines; i += 1) { ... }], for at most [steps]
    tests of its condition. *)
Fixpoint linesLoop (this : BaseTag3D) (fuel steps : nat) (i : nat) (s : Lines)
  : option Lines :=
  match steps with
  | O => None
  | S steps' =>
      if (i <? s_numLines s)%nat then
        match lineStep this fuel i (s_textLines s) (s_numLines s) with
        | None => None
        | Some l =>
            linesLoop this fuel steps' (i + 1)
              (mkLines (l_textLines l) (l_numLines l)
                       (mergeLine (s_textGeometry s) (l_mesh l))
                       (s_rendered s ++ [l]))
        end
      else Some s
  end.

Definition setOptions (this : BaseTag3D) (o : Options) : BaseTag3D :=
  mkBaseTag3D o (materialBase this) (materialDetail this) (availableWidth this)
    (baseMesh this) (borderMesh this) (subtitleMesh this)
    (keychainAttachmentMesh this) (combinedMesh this) (exportedMeshes this).

(** The lines the loop starts from. *)
Definition initialLines (this : BaseTag3D) : Lines :=
  let textLines := map JS.Str (messageLines this) in
  mkLines textLines (List.length textLines) BufferGeometry [].

(** [getSubtitleMesh]: the object with the message written back, the mesh
    returned, and the lines rendered.  Each loop is given [fuel] rounds. *)
Definition getSubtitleMesh (this : BaseTag3D) (fuel : nat)
  : option (BaseTag3D * Mesh Geometry * list Line) :=
  match linesLoop this fuel fuel 0 (initialLines this) with
  | None => None
  | Some s =>
      Some (setOptions this
              (setTextMessage (options this) (JS.join JS.LF (s_textLines s))),
            newMesh (s_textGeometry s) (materialDetail this),
            s_rendered s)
  end.

(* ------------------------------------------------------------------ *)
(** ** [getBorderMesh] *)

Definition getBorderMesh (this : BaseTag3D) : Mesh Geometry :=
  let b := opt this in
  let cornerRadius_ := getCornerRadius this in
  let textBaseOffset := getTextBaseOffset this in
  let topOffset := getTextTopOffset this in
  let leftOffset := getTextLeftOffset this in
  let borderShape :=
    if isOffsetTopBottom this then
      Some (getRoundedRectShape
              (- (height b + topOffset) / 2)
              (- width b / 2)
              (height b + textBaseOffset)
              (width b)
              cornerRadius_)
    else if isOffsetLeftRight this then
      Some (getRoundedRectShape
              (- height b / 2)
              (- (width b + leftOffset) / 2)
              (height b)
              (width b + textBaseOffset)
              cornerRadius_)
    else None in
  let fullShapeMesh :=
    updateMatrix (newMesh (ExtrudeGeometry borderShape (borderDepth b))
                          (materialDetail this)) in
  let borderHoleShape :=
    if isOffsetTopBottom this then
      Some (getRoundedRectShape
              (- (height b + topOffset - borderWidth b * 2) / 2)
              (- (width b - borderWidth b * 2) / 2)
              (height b + textBaseOffset - borderWidth b * 2)
              (width b - borderWidth b * 2)
              (JS.max 0 (cornerRadius_ - borderWidth b)))
    else if isOffsetLeftRight this then
      Some (getRoundedRectShape
              (- (height b - borderWidth b * 2) / 2)
              (- (width b + leftOffset - borderWidth b * 2) / 2)
              (height b - borderWidth b * 2)
              (width b + textBaseOffset - borderWidth b * 2)
              (JS.max 0 (cornerRadius_ - borderWidth b)))
    else None in
  let holeMesh :=
    updateMatrix (newMesh (ExtrudeGeometry borderHoleShape (borderDepth b))
                          (materialDetail this)) in
  let borderMesh_ := subtractMesh fullShapeMesh holeMesh in
  updateMatrix (setPositionZ borderMesh_ (depth b)).

(* ------------------------------------------------------------------ *)
(** ** [getKeychainAttachmentMesh] *)

Definition keychainHoleRadius (this : BaseTag3D) : Q :=
  keychainHoleDiameter (opt this) / 2.

Definition keychainCornerPlacementOffset (this : BaseTag3D) : Q :=
  keychainHoleRadius this * 2.

(** [const height = this.options.base.keychainHoleDiameter + 3] *)
Definition keychainHeight (this : BaseTag3D) : Q :=
  keychainHoleDiameter (opt this) + 3.

(** [const width = height + cornerPlacementOffset] *)
Definition keychainWidth (this : BaseTag3D) : Q :=
  keychainHeight this + keychainCornerPlacementOffset this.

Definition attachmentShape (this : BaseTag3D) : Shape :=
  let height_ := keychainHeight this in
  let width_ := keychainWidth this in
  getCustomRoundedRectShape (- height_ / 2) (- width_ / 2) height_ width_
                            0 0 (height_ / 2) (height_ / 2).

Definition attachmentShapeMesh (this : BaseTag3D) : Mesh Geometry :=
  updateMatrix
    (setPositionZ
       (newMesh (ExtrudeGeometry (Some (attachmentShape this)) (depth (opt this)))
                (materialBase this))
       0).

Definition keychainHoleMesh (this : BaseTag3D) : Mesh Geometry :=
  let holeRadius := keychainHoleRadius this in
  let holeMesh0 :=
    newMesh (CylinderGeometry holeRadius holeRadius (depth (opt this)) 32)
            (materialBase this) in
  let holeMesh1 := setRotationX holeMesh0 (- (1 # 2)) in
  let holeMesh2 := setPositionZ holeMesh1 (depth (opt this) / 2) in
  let holeMesh3 := setPositionY holeMesh2 (- keychainCornerPlacementOffset this / 2) in
  updateMatrix holeMesh3.

Definition keychainIs (this : BaseTag3D) (s : string) : bool :=
  String.eqb (keychainPlacement (opt this)) s.

Definition getKeychainAttachmentMesh (this : BaseTag3D) (baseMesh : Mesh Geometry)
  : Mesh Geometry :=
  let cornerPlacementOffset := keychainCornerPlacementOffset this in
  let height_ := keychainHeight this in
  let finalMesh0 := subtractMesh (attachmentShapeMesh this) (keychainHoleMesh this) in
  let baseBox := getBoundingBoxSize baseMesh in
  let px := vx (position baseMesh) in
  let py := vy (position baseMesh) in
  let finalMesh1 :=
    if keychainIs this "left" then
      setPosition finalMesh0
        (mkVector3 px (py - vy baseBox / 2 - height_ + cornerPlacementOffset) 0)
    else if keychainIs this "top" then
      setRotationZ
        (setPosition finalMesh0
           (mkVector3 (px - vx baseBox / 2 - height_ + cornerPlacementOffset) py 0))
        (- (1 # 2))
    else if keychainIs this "topLeft" then
      setRotationZ
        (setPosition finalMesh0
           (mkVector3 (px - vx baseBox / 2) (py - vy baseBox / 2) 0))
        (- (1 # 4))
    else finalMesh0 in
  let finalMesh2 := updateMatrix finalMesh1 in
  if mirrorHoles (opt this) then
    let mirror0 := subtractMesh (attachmentShapeMesh this) (keychainHoleMesh this) in
    let mirror1 :=
      if keychainIs this "left" then
        setRotationZ
          (setPositionY (setPositionX mirror0 px)
             (py + vy baseBox / 2 + height_ - cornerPlacementOffset))
          1
      else if keychainIs this "top" then
        setRotationZ
          (setPositionY
             (setPositionX mirror0
                (px + vx baseBox / 2 + height_ - cornerPlacementOffset))
             py)
          (1 # 2)
      else if keychainIs this "topLeft" then
        setRotationZ
          (setPositionY (setPositionX mirror0 (px + vx baseBox / 2))
             (py + vy baseBox / 2))
          ((1 # 2) + (1 # 4))
      else mirror0 in
    unionMesh finalMesh2 (updateMatrix mirror1)
  else finalMesh2.

(* ------------------------------------------------------------------ *)
(** ** [getCombinedMesh] and [generate3dModel] *)

(** [geometry.clone()] with [applyMatrix4(mesh.matrix)]. *)
Definition placedGeometry (m : Mesh Geometry) : Geometry :=
  applyMatrix4 (geometry m) (matrix m).

(** The geometries [getCombinedMesh] collects, in the order it pushes them. *)
Definition combinedGeometries (this : BaseTag3D) (baseMesh_ : Mesh Geometry)
  : list Geometry :=
  [placedGeometry baseMesh_]
  ++ match borderMesh this with
     | Some m => [placedGeometry m]
     | None => []
     end
  ++ match subtitleMesh this with
     | Some m => if negb (invert (code (options this))) then [placedGeometry m] else []
     | None => []
     end
  ++ match keychainAttachmentMesh this with
     | Some m => [placedGeometry m]
     | None => []
     end.

Definition compatible (geo : Geometry) : Geometry :=
  if hasIndex geo then toNonIndexed geo else geo.

(** [getCombinedMesh]; reading [this.baseMesh.geometry] of a [null] base
    mesh throws. *)
Definition getCombinedMesh (this : BaseTag3D) : option (Mesh Geometry) :=
  match baseMesh this with
  | None => None
  | Some baseMesh_ =>
      let compatibleGeometries := map compatible (combinedGeometries this baseMesh_) in
      Some (newMesh (mergeGeometries compatibleGeometries) (materialBase this))
  end.

Definition setSubtitleMesh (this : BaseTag3D) (m : Mesh Geometry) : BaseTag3D :=
  mkBaseTag3D (options this) (materialBase this) (materialDetail this)
    (availableWidth this) (baseMesh this) (borderMesh this) (Some m)
    (keychainAttachmentMesh this) (combinedMesh this) (exportedMeshes this).

Definition setBaseMesh (this : BaseTag3D) (m : Mesh Geometry) : BaseTag3D :=
  mkBaseTag3D (options this) (materialBase this) (materialDetail this)
    (availableWidth this) (Some m) (borderMesh this) (subtitleMesh this)
    (keychainAttachmentMesh this) (combinedMesh this) (exportedMeshes this).

Definition setBorderMesh (this : BaseTag3D) (m : Mesh Geometry) : BaseTag3D :=
  mkBaseTag3D (options this) (materialBase this) (materialDetail this)
    (availableWidth this) (baseMesh this) (Some m) (subtitleMesh this)
    (keychainAttachmentMesh this) (combinedMesh this) (exportedMeshes this).

Definition setKeychainAttachmentMesh (this : BaseTag3D) (m : Mesh Geometry)
  : BaseTag3D :=
  mkBaseTag3D (options this) (materialBase this) (materialDetail this)
    (availableWidth this) (baseMesh this) (borderMesh this) (subtitleMesh this)
    (Some m) (combinedMesh this) (exportedMeshes this).

(** [this.exportedMeshes[k] = m] *)
Definition export (this : BaseTag3D) (k : string) (m : Mesh Geometry) : BaseTag3D :=
  mkBaseTag3D (options this) (materialBase this) (materialDetail this)
    (availableWidth this) (baseMesh this) (borderMesh this) (subtitleMesh this)
    (keychainAttachmentMesh this) (combinedMesh this)
    (objSet (exportedMeshes this) k m).

(** The first statement of [generate3dModel]: the label. *)
Definition generateSubtitle (this : BaseTag3D) (fuel : nat) : option BaseTag3D :=
  if hasText (opt this) then
    match getSubtitleMesh this fuel with
    | None => None
    | Some (this1, m, _) =>
        let this2 := setSubtitleMesh this1 m in
        Some (if negb (invert (code (options this2)))
              then export this2 "subtitle" m
              else this2)
    end
  else Some this.

(** The statements of [generate3dModel] between the label and the merge:
    plate, border and keychain attachment. *)
Definition generateParts (this : BaseTag3D) : BaseTag3D :=
  let b := getBaseMesh this in
  let this1 := export (setBaseMesh this b) "base" b in
  let this2 :=
    if hasBorder (opt this1) then
      let m := getBorderMesh this1 in
      export (setBorderMesh this1 m) "border" m
    else this1 in
  if hasKeychainAttachment (opt this2) then
    match baseMesh this2 with
    | Some bm =>
        let m := getKeychainAttachmentMesh this2 bm in
        export (setKeychainAttachmentMesh this2 m) "keychainAttachment" m
    | None => this2
    end
  else this2.

(** [generate3dModel], as the state it leaves [this] in; [None] when it
    throws or a loop of [getSubtitleMesh] does not end within [fuel]
    rounds. *)
Definition generate3dModel (this : BaseTag3D) (fuel : nat) : option BaseTag3D :=
  match generateSubtitle this fuel with
  | None => None
  | Some this1 =>
      let this2 := generateParts this1 in
      match getCombinedMesh this2 with
      | None => None
      | Some m => Some (export this2 "combined" m)
      end
  end.

End BaseTag3D.

(* ================================================================== *)
(** * Regions of the plate *)

(** The centre, in the plane of the tag, of a profile carried by a mesh at
    position [p]. *)
Definition footprintCenter (s : Shape) (p : Vector3) : Q * Q :=
  (vx p + shape_x s + shape_width s / 2, vy p + shape_y s + shape_height s / 2).

(** The content region: the [base.height] by [base.width] rectangle around
    the origin that [getBaseMesh] extrudes, unshifted, for a tag without
    text (see [plate_without_text]); a text makes the plate longer on one
    side of it (see [plate_bottom_extent]). *)
Definition contentShape (b : BaseOptions) : Shape :=
  getRoundedRectShape (- height b / 2) (- width b / 2) (height b) (width b) 0.

Definition contentCenter (b : BaseOptions) : Q * Q :=
  footprintCenter (contentShape b) zero3.

(** [stars ++ text ++ stars]: a text between [k] pairs of markers. *)
Definition wrapped (k : nat) (text : JS.jsstring) : JS.jsstring :=
  JS.repeat JS.star k ++ text ++ JS.repeat JS.star k.

(** The condition of the marker loop: the text starts and ends with ['*']. *)
Definition enclosed (text : JS.jsstring) : bool :=
  JS.charIs text 0 JS.star && JS.charIs text (JS.length text - 1) JS.star.

(* ================================================================== *)
(** * A symbolic kernel

    An implementation of [Three] that records how a geometry was built and
    measures a text as one text size per character.  It serves to run the
    generator on concrete tags. *)

#[warnings="-register-all"]
Inductive Solid : Type :=
| SEmpty
| SExtrude (s : option Shape) (d : Q)
| SCylinder (rTop rBottom h : Q) (segments : Z)
| SBox (w h d : Q)
| SText (text : JS.jsstring) (font : option Font) (size d : Q)
| SNonIndexed (g : Solid)
| SApply (g : Solid) (m : Matrix4)
| SMerge (gs : list Solid)
| SSubtract (a : Solid) (ma : Matrix4) (b : Solid) (mb : Matrix4)
| SUnion (a : Solid) (ma : Matrix4) (b : Solid) (mb : Matrix4).

Fixpoint solidHasIndex (g : Solid) : bool :=
  match g with
  | SCylinder _ _ _ _ | SBox _ _ _ => true
  | SApply g' _ => solidHasIndex g'
  | _ => false
  end.

Definition solidHasPosition (g : Solid) : bool :=
  match g with
  | SEmpty => false
  | _ => true
  end.

Definition solidSize (m : Mesh Solid) : Vector3 :=
  match geometry m with
  | SText text _ size d => mkVector3 (size * inject_Z (JS.length text)) size d
  | SExtrude (Some s) d => mkVector3 (shape_width s) (shape_height s) d
  | SBox w h d => mkVector3 w h d
  | SCylinder r _ h _ => mkVector3 (2 * r) h (2 * r)
  | _ => zero3
  end.

#[local] Instance Symbolic : Three :=
  {| Geometry := Solid;
     BufferGeometry := SEmpty;
     ExtrudeGeometry := SExtrude;
     CylinderGeometry := SCylinder;
     BoxGeometry := SBox;
     TextGeometry := SText;
     hasPosition := solidHasPosition;
     hasIndex := solidHasIndex;
     toNonIndexed := SNonIndexed;
     applyMatrix4 := SApply;
     mergeGeometries := SMerge;
     subtractMesh := fun a b =>
       newMesh (SSubtract (geometry a) (matrix a) (geometry b) (matrix b)) (material a);
     unionMesh := fun a b =>
       newMesh (SUnion (geometry a) (matrix a) (geometry b) (matrix b)) (material a);
     getBoundingBoxSize := solidSize |}.

(** ** Sample tags *)

(** The tag of the scenario of the specification: 60 by 40 by 3, rounded,
    with a border of 1.5 and one bold line under the code. *)
Definition scenarioBase : BaseOptions :=
  {| width := 60; height := 40; depth := 3;
     shape := "roundedRectangle"; cornerRadius := 4;
     hasBorder := true; borderWidth := 3 # 2; borderDepth := 1;
     textPlacement := "bottom"; textAlign := "center";
     hasText := true; textMessage := JS.str "**Hello World**";
     textSize := 4; textDepth := 1; textMargin := 2;
     hasNfcIndentation := true; nfcIndentationShape := "round";
     nfcIndentationSize := 25; nfcIndentationDepth := 1;
     nfcIndentationHidden := false;
     hasKeychainAttachment := true; keychainHoleDiameter := 4;
     keychainPlacement := "left"; mirrorHoles := false |}.

Definition scenario : Options :=
  {| baseColor := None; qrcodeColor := None;
     base := scenarioBase;
     code := {| margin := 2; invert := false |} |}.

(** The scenario with another placement and message. *)
Definition scenarioWith (placement : string) (message : JS.jsstring) : Options :=
  let b := scenarioBase in
  mkOptions None None
    (mkBaseOptions (width b) (height b) (depth b) (shape b) (cornerRadius b)
       (hasBorder b) (borderWidth b) (borderDepth b) placement
       (textAlign b) (hasText b) message (textSize b) (textDepth b) (textMargin b)
       (hasNfcIndentation b) (nfcIndentationShape b) (nfcIndentationSize b)
       (nfcIndentationDepth b) (nfcIndentationHidden b)
       (hasKeychainAttachment b) (keychainHoleDiameter b)
       (keychainPlacement b) (mirrorHoles b))
    (mkCodeOptions 2 false).

(** A narrow tag: 20 wide with a margin of 2 and no border, so that four
    characters of size 4 fill the available width of 16. *)
Definition narrow (message : JS.jsstring) : Options :=
  {| baseColor := None; qrcodeColor := None;
     base :=
       {| width := 20; height := 20; depth := 2;
          shape := "rectangle"; cornerRadius := 0;
          hasBorder := false; borderWidth := 0; borderDepth := 0;
          textPlacement := "bottom"; textAlign := "left";
          hasText := true; textMessage := message;
          textSize := 4; textDepth := 1; textMargin := 1;
          hasNfcIndentation := false; nfcIndentationShape := "square";
          nfcIndentationSize := 0; nfcIndentationDepth := 0;
          nfcIndentationHidden := false;
          hasKeychainAttachment := false; keychainHoleDiameter := 0;
          keychainPlacement := "left"; mirrorHoles := false |};
     code := {| margin := 2; invert := false |} |}.

(** The width [getBoundingBoxSize] measures of a text at an emphasis
    level: [textSize.x] in the wrap loop. *)
Definition textWidth {T : Three} (this : BaseTag3D) (emphLevel : nat)
  (text : JS.jsstring) : Q :=
  vx (getBoundingBoxSize (textMesh this text (nth_error fonts emphLevel))).

(** [textSize.x > this.availableWidth] *)
Definition overflows {T : Three} (this : BaseTag3D) (emphLevel : nat)
  (text : JS.jsstring) : bool :=
  JS.gt (textWidth this emphLevel text) (availableWidth this).

(** The text and level each rendered line was built from. *)
Definition renderedTexts {T : Three} (r : option (BaseTag3D * Mesh Geometry * list Line))
  : option (list (JS.jsstring * nat)) :=
  match r with
  | Some (_, _, ls) => Some (map (fun l => (l_text l, l_emphLevel l)) ls)
  | None => None
  end.

(** The placed geometry of a part that may be absent. *)
Definition partGeometry {T : Three} (m : option (Mesh Geometry)) : list Geometry :=
  match m with
  | Some m' => [placedGeometry m']
  | None => []
  end.

(** The lines rendered by a run of [getSubtitleMesh]. *)
Definition renderedLines {T : Three}
  (r : option (BaseTag3D * Mesh Geometry * list Line)) : list Line :=
  match r with
  | Some (_, _, ls) => ls
  | None => []
  end.

(** The weight of an entry of [textLines]: one more than its length. *)
Definition weight (v : JS.value) : nat := S (List.length (JS.toString v)).

(** What is left to render from line [i] on. *)
Definition pending (textLines : list JS.value) (i : nat) : nat :=
  list_sum (map weight (skipn i textLines)).

Definition isString (v : JS.value) : Prop :=
  match v with
  | JS.Str _ => True
  | _ => False
  end.

(** The two conditions under which every line is completed: the
    placement is one of the five, and, where lines are wrapped, the empty
    text and every single character fit the available width at every
    level. *)
Definition placementKnown {T : Three} (this : BaseTag3D) : Prop :=
  isOffsetTopBottom this = true \/ isOffsetLeftRight this = true.

Definition charactersFit {T : Three} (this : BaseTag3D) : Prop :=
  isOffsetTopBottom this = true ->
  forall e, (e <= 3)%nat ->
    overflows this e [] = false /\ forall c, overflows this e [c] = false.

(** Bounds that are enough for the loops of [getSubtitleMesh]: more than
    the characters and lines of the message. *)
Definition enough {T : Three} (this : BaseTag3D) (fuel : nat) : Prop :=
  (pending (map JS.Str (messageLines this)) 0 < fuel)%nat.

(** The message of an object after [getSubtitleMesh]. *)
Definition messageAfter {T : Three}
  (r : option (BaseTag3D * Mesh Geometry * list Line)) : option JS.jsstring :=
  match r with
  | Some (this', _, _) => Some (textMessage (opt this'))
  | None => None
  end.

(** [getSubtitleMesh] run a second time on the object the first run left. *)
Definition getSubtitleMeshTwice {T : Three} (this : BaseTag3D) (fuel : nat)
  : option (BaseTag3D * Mesh Geometry * list Line) :=
  match getSubtitleMesh this fuel with
  | Some (this', _, _) => getSubtitleMesh this' fuel
  | None => None
  end.

(* ================================================================== *)
(** * Further parts of the class *)

(** [getPartMeshes] *)
Definition getPartMeshes {T : Three} (this : BaseTag3D) : list (string * Mesh Geometry) :=
  exportedMeshes this.

(** The outer profile [getBorderMesh] extrudes: its variable [borderShape]. *)
Definition borderShape {T : Three} (this : BaseTag3D) : option Shape :=
  let b := opt this in
  if isOffsetTopBottom this then
    Some (getRoundedRectShape
            (- (height b + getTextTopOffset this) / 2)
            (- width b / 2)
            (height b + getTextBaseOffset this)
            (width b)
            (getCornerRadius this))
  else if isOffsetLeftRight this then
    Some (getRoundedRectShape
            (- height b / 2)
            (- (width b + getTextLeftOffset this) / 2)
            (height b)
            (width b + getTextBaseOffset this)
            (getCornerRadius this))
  else None.

(** The inner profile [getBorderMesh] extrudes: its variable
    [borderHoleShape]. *)
Definition borderHoleShape {T : Three} (this : BaseTag3D) : option Shape :=
  let b := opt this in
  if isOffsetTopBottom this then
    Some (getRoundedRectShape
            (- (height b + getTextTopOffset this - borderWidth b * 2) / 2)
            (- (width b - borderWidth b * 2) / 2)
            (height b + getTextBaseOffset this - borderWidth b * 2)
            (width b - borderWidth b * 2)
            (JS.max 0 (getCornerRadius this - borderWidth b)))
  else if isOffsetLeftRight this then
    Some (getRoundedRectShape
            (- (height b - borderWidth b * 2) / 2)
            (- (width b + getTextLeftOffset this - borderWidth b * 2) / 2)
            (height b - borderWidth b * 2)
            (width b + getTextBaseOffset this - borderWidth b * 2)
            (JS.max 0 (getCornerRadius this - borderWidth b)))
  else None.

(** The first tab of [getKeychainAttachmentMesh], as placed: [finalMesh]
    before its [updateMatrix]. *)
Definition keychainFirst {T : Three} (this : BaseTag3D) (baseMesh : Mesh Geometry)
  : Mesh Geometry :=
  let cornerPlacementOffset := keychainCornerPlacementOffset this in
  let height_ := keychainHeight this in
  let finalMesh0 := subtractMesh (attachmentShapeMesh this) (keychainHoleMesh this) in
  let baseBox := getBoundingBoxSize baseMesh in
  let px := vx (position baseMesh) in
  let py := vy (position baseMesh) in
  if keychainIs this "left" then
    setPosition finalMesh0
      (mkVector3 px (py - vy baseBox / 2 - height_ + cornerPlacementOffset) 0)
  else if keychainIs this "top" then
    setRotationZ
      (setPosition finalMesh0
         (mkVector3 (px - vx baseBox / 2 - height_ + cornerPlacementOffset) py 0))
      (- (1 # 2))
  else if keychainIs this "topLeft" then
    setRotationZ
      (setPosition finalMesh0
         (mkVector3 (px - vx baseBox / 2) (py - vy baseBox / 2) 0))
      (- (1 # 4))
  else finalMesh0.

(** The second tab, made with [mirrorHoles]: [mirror] before its
    [updateMatrix]. *)
Definition keychainMirror {T : Three} (this : BaseTag3D) (baseMesh : Mesh Geometry)
  : Mesh Geometry :=
  let cornerPlacementOffset := keychainCornerPlacementOffset this in
  let height_ := keychainHeight this in
  let mirror0 := subtractMesh (attachmentShapeMesh this) (keychainHoleMesh this) in
  let baseBox := getBoundingBoxSize baseMesh in
  let px := vx (position baseMesh) in
  let py := vy (position baseMesh) in
  if keychainIs this "left" then
    setRotationZ
      (setPositionY (setPositionX mirror0 px)
         (py + vy baseBox / 2 + height_ - cornerPlacementOffset))
      1
  else if keychainIs this "top" then
    setRotationZ
      (setPositionY
         (setPositionX mirror0
            (px + vx baseBox / 2 + height_ - cornerPlacementOffset))
         py)
      (1 # 2)
  else if keychainIs this "topLeft" then
    setRotationZ
      (setPositionY (setPositionX mirror0 (px + vx baseBox / 2))
         (py + vy baseBox / 2))
      ((1 # 2) + (1 # 4))
  else mirror0.

(** The width [getTextRenderWidth] measures of a line: that of its
    stripped text in the plain font. *)
Definition plainWidth {T : Three} (this : BaseTag3D) (line : JS.jsstring) : Q :=
  vx (getBoundingBoxSize (textMesh this (fst (stripEmphasis line)) (Some fontRegular))).

(** A line of which not even the first character fits at its level. *)
Definition tooWide {T : Three} (this : BaseTag3D) (line : JS.jsstring) : Prop :=
  fst (stripEmphasis line) <> [] /\
  forall k, (1 <= k <= List.length (fst (stripEmphasis line)))%nat ->
    overflows this (snd (stripEmphasis line))
      (firstn k (fst (stripEmphasis line))) = true.

(** Every line of the message fits as it is, where lines are wrapped. *)
Definition fitsAsIs {T : Three} (this : BaseTag3D) : Prop :=
  isOffsetTopBottom this = true ->
  Forall (fun line =>
            overflows this (snd (stripEmphasis line)) (fst (stripEmphasis line))
            = false)
         (messageLines this).

(** A text without a marker. *)
Definition noMarker (s : JS.jsstring) : Prop := ~ In JS.star s.

(** The entries from [i] on are strings without a marker. *)
Definition plainFrom (textLines : list JS.value) (i : nat) : Prop :=
  Forall (fun v => exists t, v = JS.Str t /\ noMarker t) (skipn i textLines).

(** The position line [i] is given under the placements top, bottom and
    center; [w] is the width of the text rendered. *)
Definition placedAt {T : Three} (this : BaseTag3D) (i : nat) (l : Line) : Prop :=
  let b := opt this in
  let w := textWidth this (l_emphLevel l) (l_text l) in
  position (l_mesh l) =
  mkVector3
    (if placementIs this "top" then
       - height b / 2 - textMargin b - textSize b * natQ i * LINE_HEIGHT
     else if placementIs this "center" then
       (if (1 <? l_numLines l)%nat
        then - natQ (l_numLines l) * (textSize b / 2) else 0)
       + textSize b / 2 + textSize b * natQ i * LINE_HEIGHT
     else
       height b / 2 + textMargin b + textSize b * natQ (i + 1) * LINE_HEIGHT
       - (if hasBorder b then borderWidth b else 0))
    (if alignIs this "left" then - availableWidth this / 2 + textMargin b
     else if alignIs this "center" then - w / 2
     else if alignIs this "right" then
       - w + availableWidth this / 2 - textMargin b
     else - w / 2)
    (depth b).

(** The texts of the entries of [textLines], one after the other. *)
Definition spelled (a : list JS.value) : JS.jsstring :=
  List.concat (map JS.toString a).

(** A tag like [narrow] of a given width and placement: the available
    width is the width less 4. *)
Definition tagOfWidth (w : Q) (placement : string) (message : JS.jsstring) : Options :=
  {| baseColor := None; qrcodeColor := None;
     base :=
       {| width := w; height := 20; depth := 2;
          shape := "rectangle"; cornerRadius := 0;
          hasBorder := false; borderWidth := 0; borderDepth := 0;
          textPlacement := placement; textAlign := "left";
          hasText := true; textMessage := message;
          textSize := 4; textDepth := 1; textMargin := 1;
          hasNfcIndentation := false; nfcIndentationShape := "square";
          nfcIndentationSize := 0; nfcIndentationDepth := 0;
          nfcIndentationHidden := false;
          hasKeychainAttachment := false; keychainHoleDiameter := 0;
          keychainPlacement := "left"; mirrorHoles := false |};
     code := {| margin := 2; invert := false |} |}.

(** The scenario with its border and keychain attachment turned off. *)
Definition scenarioBare : Options :=
  let b := scenarioBase in
  mkOptions None None
    (mkBaseOptions (width b) (height b) (depth b) (shape b) (cornerRadius b)
       false (borderWidth b) (borderDepth b) (textPlacement b)
       (textAlign b) (hasText b) (textMessage b) (textSize b) (textDepth b)
       (textMargin b) (hasNfcIndentation b) (nfcIndentationShape b)
       (nfcIndentationSize b) (nfcIndentationDepth b) (nfcIndentationHidden b)
       false (keychainHoleDiameter b) (keychainPlacement b) (mirrorHoles b))
    (mkCodeOptions 2 false).

(** The object a first run on the scenario leaves, its options replaced by
    those of [scenarioBare]: the caller turned the border and the keychain
    attachment off between two runs. *)
Definition scenarioRerun : BaseTag3D :=
  match generate3dModel (constructor scenario) 20 with
  | Some this' => setOptions this' (withDefaults scenarioBare)
  | None => constructor scenarioBare
  end.

(** The scenario with two tabs at a placement. *)
Definition scenarioMirrored (placement : string) : Options :=
  let b := scenarioBase in
  mkOptions None None
    (mkBaseOptions (width b) (height b) (depth b) (shape b) (cornerRadius b)
       (hasBorder b) (borderWidth b) (borderDepth b) (textPlacement b)
       (textAlign b) (hasText b) (textMessage b) (textSize b) (textDepth b)
       (textMargin b) (hasNfcIndentation b) (nfcIndentationShape b)
       (nfcIndentationSize b) (nfcIndentationDepth b) (nfcIndentationHidden b)
       (hasKeychainAttachment b) (keychainHoleDiameter b) placement true)
    (mkCodeOptions 2 false).

(** ** Proof steps *)

(** Closes the statements about a list of keys and a record of parts
    that are given explicitly. *)
Ltac key_iff :=
  split; [cbn; intuition discriminate|intros; cbn; tauto || discriminate].

Ltac parts_cbn :=
  cbn -[getBaseMesh getBorderMesh getKeychainAttachmentMesh].

Ltac parts_done :=
  split; [reflexivity|];
  split; [split; cbn; tauto|];
  split; [key_iff|]; split; [key_iff|]; split; [key_iff|];
  eexists; eexists; split; [reflexivity|]; split; [reflexivity|].

Unset Implicit Arguments.

(* ================================================================== *)
(** * Strings and arrays *)

Module JSFacts.

Lemma length_app (s t : JS.jsstring) :
  JS.length (s ++ t) = (JS.length s + JS.length t)%Z.
Proof. unfold JS.length. rewrite List.length_app. lia. Qed.

Lemma length_nonneg (s : JS.jsstring) : (0 <= JS.length s)%Z.
Proof. unfold JS.length. lia. Qed.

(** [text[text.length - 1]] of a text that ends with [c] is [c]. *)
Lemma charAt_last (s : JS.jsstring) (c : ascii) :
  JS.charAt (s ++ [c]) (JS.length (s ++ [c]) - 1) = Some c.
Proof.
  unfold JS.charAt. rewrite length_app. unfold JS.length. cbn [List.length].
  replace (Z.of_nat (List.length s) + Z.of_nat 1 - 1)%Z with (Z.of_nat (List.length s)) by lia.
  destruct (Z.ltb_spec (Z.of_nat (List.length s)) 0); [lia|].
  rewrite Nat2Z.id, nth_error_app2 by lia.
  now rewrite Nat.sub_diag.
Qed.

(** [text[text.length - 1]] of the empty text is [undefined]. *)
Lemma charAt_last_empty : JS.charAt [] (JS.length [] - 1) = None.
Proof. reflexivity. Qed.

(** [text.substr(0, text.length - 1)] drops the last character. *)
Lemma substr_init (s : JS.jsstring) (c : ascii) :
  JS.substr (s ++ [c]) 0 (JS.length (s ++ [c]) - 1) = s.
Proof.
  unfold JS.substr. rewrite length_app. unfold JS.length. cbn [List.length].
  set (n := List.length s).
  replace (0 <? 0)%Z with false by reflexivity.
  replace (Z.min 0 (Z.of_nat n + Z.of_nat 1)) with 0%Z by lia.
  replace (Z.min (Z.max (Z.of_nat n + Z.of_nat 1 - 1) 0) (Z.of_nat n + Z.of_nat 1))
    with (Z.of_nat n) by lia.
  replace (Z.min (0 + Z.of_nat n) (Z.of_nat n + Z.of_nat 1) - 0)%Z with (Z.of_nat n) by lia.
  rewrite Nat2Z.id. cbn [Z.to_nat skipn].
  subst n. now rewrite firstn_app, firstn_all, Nat.sub_diag, app_nil_r.
Qed.

(** On the empty text it leaves the empty text. *)
Lemma substr_init_empty : JS.substr [] 0 (JS.length [] - 1) = [].
Proof. reflexivity. Qed.

(** [text.substr(1, text.length - 2)] of a text between two characters. *)
Lemma substr_inner (a c : ascii) (s : JS.jsstring) :
  JS.substr (a :: s ++ [c]) 1 (JS.length (a :: s ++ [c]) - 2) = s.
Proof.
  unfold JS.substr, JS.length. cbn [List.length]. rewrite List.length_app.
  cbn [List.length]. set (n := List.length s).
  replace (1 <? 0)%Z with false by reflexivity.
  replace (Z.min 1 (Z.of_nat (S (n + 1)))) with 1%Z by lia.
  replace (Z.min (Z.max (Z.of_nat (S (n + 1)) - 2) 0) (Z.of_nat (S (n + 1))))
    with (Z.of_nat n) by lia.
  replace (Z.min (1 + Z.of_nat n) (Z.of_nat (S (n + 1))) - 1)%Z with (Z.of_nat n) by lia.
  rewrite Nat2Z.id. change (Z.to_nat 1) with 1%nat. cbn [skipn].
  subst n. now rewrite firstn_app, firstn_all, Nat.sub_diag, app_nil_r.
Qed.

(** The same on a text of one character: nothing is left. *)
Lemma substr_inner_single (a : ascii) :
  JS.substr [a] 1 (JS.length [a] - 2) = [].
Proof. reflexivity. Qed.

(** A text is empty or ends with a character. *)
Lemma last_cases (s : JS.jsstring) : s = [] \/ exists t c, s = t ++ [c].
Proof.
  destruct s as [|a s]; [now left|right].
  destruct (@exists_last _ (a :: s)) as (t & c & E); [discriminate|].
  now exists t, c.
Qed.

Lemma set_length (a : list JS.value) (i : nat) (v : JS.value) :
  (i < List.length a)%nat -> List.length (JS.set a i v) = List.length a.
Proof.
  intros H. unfold JS.set. destruct (Nat.ltb_spec i (List.length a)); [|lia].
  rewrite List.length_app. cbn [List.length].
  rewrite List.length_firstn, List.length_skipn. lia.
Qed.

Lemma get_set (a : list JS.value) (i : nat) (v : JS.value) :
  (i < List.length a)%nat -> JS.get (JS.set a i v) i = v.
Proof.
  intros H. unfold JS.set, JS.get. destruct (Nat.ltb_spec i (List.length a)); [|lia].
  rewrite app_nth2; rewrite List.length_firstn; [|lia].
  replace (i - Nat.min i (List.length a))%nat with 0%nat by lia. reflexivity.
Qed.

Lemma set_set (a : list JS.value) (i : nat) (v v' : JS.value) :
  (i < List.length a)%nat -> JS.set (JS.set a i v) i v' = JS.set a i v'.
Proof.
  intros H. unfold JS.set at 1 3.
  rewrite set_length by assumption.
  destruct (Nat.ltb_spec i (List.length a)); [|lia].
  unfold JS.set. destruct (Nat.ltb_spec i (List.length a)); [|lia].
  assert (L : List.length (firstn i a) = i) by (rewrite List.length_firstn; lia).
  rewrite firstn_app, L, Nat.sub_diag, firstn_O, app_nil_r.
  rewrite <- L at 1. rewrite firstn_all.
  f_equal. f_equal.
  rewrite skipn_app, L.
  replace (S i - i)%nat with 1%nat by lia.
  rewrite skipn_all2 by lia. reflexivity.
Qed.

Lemma splice_length (a : list JS.value) (i : nat) (v : JS.value) :
  List.length (JS.splice a i v) = S (List.length a).
Proof.
  unfold JS.splice. rewrite List.length_app. cbn [List.length].
  rewrite List.length_firstn, List.length_skipn. lia.
Qed.

Lemma get_splice (a : list JS.value) (i : nat) (v : JS.value) :
  (i <= List.length a)%nat -> JS.get (JS.splice a i v) i = v.
Proof.
  intros H. unfold JS.splice, JS.get.
  rewrite app_nth2; rewrite List.length_firstn; [|lia].
  replace (i - Nat.min i (List.length a))%nat with 0%nat by lia. reflexivity.
Qed.

Lemma set_splice (a : list JS.value) (i : nat) (v v' : JS.value) :
  (i <= List.length a)%nat -> JS.set (JS.splice a i v) i v' = JS.splice a i v'.
Proof.
  intros H. unfold JS.set. rewrite splice_length.
  destruct (Nat.ltb_spec i (S (List.length a))); [|lia].
  unfold JS.splice.
  assert (L : List.length (firstn i a) = i) by (rewrite List.length_firstn; lia).
  rewrite firstn_app, L, Nat.sub_diag, firstn_O, app_nil_r.
  rewrite <- L at 1. rewrite firstn_all.
  f_equal. f_equal.
  rewrite skipn_app, L.
  replace (S i - i)%nat with 1%nat by lia.
  rewrite skipn_all2 by lia. reflexivity.
Qed.

(** Adding to a string in front of a value adds in front of its text. *)
Lemma add_str_assoc (x y : JS.jsstring) (v : JS.value) :
  JS.add (JS.Str x) (JS.add (JS.Str y) v) = JS.add (JS.Str (x ++ y)) v.
Proof. cbn. now rewrite app_assoc. Qed.

End JSFacts.

(* ================================================================== *)
(** * Emphasis markers: the stripping loop *)

Lemma wrapped_zero (s : JS.jsstring) : wrapped 0 s = s.
Proof. unfold wrapped. cbn. now rewrite app_nil_r. Qed.

Lemma wrapped_succ (k : nat) (s : JS.jsstring) :
  wrapped (S k) s = JS.star :: wrapped k s ++ [JS.star].
Proof.
  unfold wrapped, JS.repeat.
  change (List.repeat JS.star (S k)) with (JS.star :: List.repeat JS.star k).
  rewrite (repeat_cons k JS.star) at 2.
  now rewrite <- !app_assoc, <- app_comm_cons.
Qed.

Lemma enclosed_between (a c : ascii) (s : JS.jsstring) :
  enclosed (a :: s ++ [c]) = Ascii.eqb a JS.star && Ascii.eqb c JS.star.
Proof.
  unfold enclosed, JS.charIs.
  rewrite (app_comm_cons s [c] a), JSFacts.charAt_last.
  reflexivity.
Qed.

(** A text the loop condition holds of is one ['*'] or lies between two. *)
Lemma enclosed_inv (s : JS.jsstring) :
  enclosed s = true -> s = [JS.star] \/ exists m, s = JS.star :: m ++ [JS.star].
Proof.
  destruct s as [|a t]; [discriminate|].
  destruct (JSFacts.last_cases t) as [->|(m & c & ->)].
  - unfold enclosed, JS.charIs. cbn.
    destruct (Ascii.eqb_spec a JS.star) as [->|]; [now left|intros H; discriminate H].
  - rewrite enclosed_between. intros H. apply andb_true_iff in H as [Ha Hc].
    apply Ascii.eqb_eq in Ha, Hc. subst. right. now exists m.
Qed.

(** One round of the loop on a text between two markers. *)
Lemma stripLoop_between (f : nat) (s : JS.jsstring) (e : nat) :
  stripLoop (S f) (JS.star :: s ++ [JS.star]) e =
  if (e + 1 =? 3)%nat then Some (s, (e + 1)%nat) else stripLoop f s (e + 1).
Proof.
  cbn [stripLoop].
  change (JS.charIs (JS.star :: s ++ [JS.star]) 0 JS.star &&
          JS.charIs (JS.star :: s ++ [JS.star])
                    (JS.length (JS.star :: s ++ [JS.star]) - 1) JS.star)
    with (enclosed (JS.star :: s ++ [JS.star])).
  rewrite enclosed_between, JSFacts.substr_inner. reflexivity.
Qed.

Lemma stripLoop_wrapped (f k : nat) (s : JS.jsstring) (e : nat) :
  stripLoop (S f) (wrapped (S k) s) e =
  if (e + 1 =? 3)%nat then Some (wrapped k s, (e + 1)%nat)
  else stripLoop f (wrapped k s) (e + 1).
Proof. rewrite wrapped_succ. apply stripLoop_between. Qed.

(** The loop stops at a text its condition fails on. *)
Lemma stripLoop_stop (f : nat) (s : JS.jsstring) (e : nat) :
  enclosed s = false -> stripLoop (S f) s e = Some (s, e).
Proof. intros H. cbn [stripLoop]. fold (enclosed s). now rewrite H. Qed.

(** Entered below level 3 with the rounds that remain up to 3, the loop
    leaves with a result. *)
Lemma stripLoop_total (f : nat) :
  forall (text : JS.jsstring) (e : nat),
    (e < 3)%nat -> (3 <= e + f)%nat ->
    exists r, stripLoop f text e = Some r /\ (snd r <= 3)%nat.
Proof.
  induction f as [|f IH]; intros text e He Hf; [lia|].
  cbn [stripLoop].
  destruct (JS.charIs text 0 JS.star &&
            JS.charIs text (JS.length text - 1) JS.star).
  - destruct (Nat.eqb_spec (e + 1) 3) as [E|E].
    + eexists; split; [reflexivity|cbn; lia].
    + apply IH; lia.
  - eexists; split; [reflexivity|cbn; lia].
Qed.

(** More rounds than the loop takes do not change its result. *)
Lemma stripLoop_more (f : nat) :
  forall (text : JS.jsstring) (e : nat) (r : JS.jsstring * nat),
    stripLoop f text e = Some r -> stripLoop (S f) text e = Some r.
Proof.
  induction f as [|f IH]; intros text e r H; [discriminate|].
  cbn [stripLoop] in H. cbn [stripLoop].
  destruct (JS.charIs text 0 JS.star &&
            JS.charIs text (JS.length text - 1) JS.star); [|exact H].
  destruct (e + 1 =? 3)%nat; [exact H|].
  specialize (IH _ _ _ H). cbn [stripLoop] in IH. exact IH.
Qed.

(** [stripEmphasis] is the result of the loop, whatever bound of at least
    three rounds it is run with. *)
Lemma stripEmphasis_loop (line : JS.jsstring) (f : nat) :
  (3 <= f)%nat -> stripLoop f line 0 = Some (stripEmphasis line).
Proof.
  intros Hf. unfold stripEmphasis.
  destruct (stripLoop_total 3 line 0%nat) as (r & E & _); [lia|lia|].
  rewrite E.
  replace f with ((f - 3) + 3)%nat by lia.
  induction (f - 3)%nat as [|n IH]; [exact E|].
  now apply stripLoop_more in IH.
Qed.

Lemma stripEmphasis_level (line : JS.jsstring) :
  (snd (stripEmphasis line) <= 3)%nat.
Proof.
  unfold stripEmphasis.
  destruct (stripLoop_total 3 line 0%nat) as (r & E & H); [lia|lia|].
  now rewrite E.
Qed.

(** Below the cap, the markers around a text the loop condition fails on
    are stripped, all of them. *)
Lemma stripEmphasis_wrapped (e : nat) (s : JS.jsstring) :
  (e <= 3)%nat -> e = 3%nat \/ enclosed s = false ->
  stripEmphasis (wrapped e s) = (s, e).
Proof.
  intros He Hs. unfold stripEmphasis.
  destruct e as [|[|[|[|e]]]]; try lia.
  - destruct Hs as [|Hs]; [discriminate|].
    rewrite wrapped_zero, stripLoop_stop by assumption. reflexivity.
  - destruct Hs as [|Hs]; [discriminate|].
    rewrite stripLoop_wrapped. cbn [Nat.add Nat.eqb].
    rewrite wrapped_zero, stripLoop_stop by assumption. reflexivity.
  - destruct Hs as [|Hs]; [discriminate|].
    rewrite stripLoop_wrapped. cbn [Nat.add Nat.eqb].
    rewrite stripLoop_wrapped. cbn [Nat.add Nat.eqb].
    rewrite wrapped_zero, stripLoop_stop by assumption. reflexivity.
  - rewrite stripLoop_wrapped. cbn [Nat.add Nat.eqb].
    rewrite stripLoop_wrapped. cbn [Nat.add Nat.eqb].
    rewrite stripLoop_wrapped. cbn [Nat.add Nat.eqb].
    now rewrite wrapped_zero.
Qed.

(** From three pairs on, three pairs are stripped and the rest stays. *)
Lemma stripEmphasis_capped (n : nat) (s : JS.jsstring) :
  (3 <= n)%nat -> stripEmphasis (wrapped n s) = (wrapped (n - 3) s, 3%nat).
Proof.
  intros Hn. unfold stripEmphasis.
  destruct n as [|[|[|n]]]; try lia.
  rewrite stripLoop_wrapped. cbn [Nat.add Nat.eqb].
  rewrite stripLoop_wrapped. cbn [Nat.add Nat.eqb].
  rewrite stripLoop_wrapped. cbn [Nat.add Nat.eqb].
  replace (S (S (S n)) - 3)%nat with n by lia. reflexivity.
Qed.

(** What the loop takes away: [e] pairs of markers around the text left,
    or, when a round met a single ['*'], an odd run of markers of which
    nothing is left. *)
Lemma stripEmphasis_shape (line : JS.jsstring) :
  let '(text, e) := stripEmphasis line in
  line = wrapped e text \/
  (text = [] /\ (1 <= e)%nat /\ line = JS.repeat JS.star (2 * e - 1)).
Proof.
  unfold stripEmphasis.
  destruct (enclosed line) eqn:E0.
  2:{ rewrite stripLoop_stop by assumption. left. now rewrite wrapped_zero. }
  destruct (enclosed_inv _ E0) as [->|(m1 & ->)]; [vm_compute; right; repeat split; lia|].
  rewrite stripLoop_between. cbn [Nat.add Nat.eqb].
  destruct (enclosed m1) eqn:E1.
  2:{ rewrite stripLoop_stop by assumption. left.
      now rewrite wrapped_succ, wrapped_zero. }
  destruct (enclosed_inv _ E1) as [->|(m2 & ->)]; [vm_compute; right; repeat split; lia|].
  rewrite stripLoop_between. cbn [Nat.add Nat.eqb].
  destruct (enclosed m2) eqn:E2.
  2:{ rewrite stripLoop_stop by assumption. left.
      now rewrite !wrapped_succ, wrapped_zero. }
  destruct (enclosed_inv _ E2) as [->|(m3 & ->)]; [vm_compute; right; repeat split; lia|].
  rewrite stripLoop_between. cbn [Nat.add Nat.eqb].
  left. now rewrite !wrapped_succ, wrapped_zero.
Qed.

(** X18. The marker loop strips at most three levels; level 0, 1, 2, 3
    selects the plain, italic, bold, bold-italic font; a text between [e]
    pairs of markers, [e] at most 3, that does not itself start and end
    with a marker is stripped to that text at level [e]; and of four or
    more pairs exactly three are stripped, the others staying in the text
    that is rendered. *)
Theorem emphasis_levels :
  (forall line, (snd (stripEmphasis line) <= 3)%nat) /\
  (nth_error fonts 0 = Some fontRegular /\
   nth_error fonts 1 = Some fontRegularItalic /\
   nth_error fonts 2 = Some fontBold /\
   nth_error fonts 3 = Some fontBoldItalic) /\
  (forall e s, (e <= 3)%nat -> enclosed s = false ->
               stripEmphasis (wrapped e s) = (s, e)) /\
  (forall n s, (4 <= n)%nat ->
               stripEmphasis (wrapped n s) = (wrapped (n - 3) s, 3%nat) /\
               wrapped (n - 3) s = JS.star :: wrapped (n - 4) s ++ [JS.star]).
Proof.
  split; [exact stripEmphasis_level|].
  split; [now cbn|].
  split.
  - intros e s He Hs. apply stripEmphasis_wrapped; [exact He|now right].
  - intros n s Hn. split; [apply stripEmphasis_capped; lia|].
    replace (n - 3)%nat with (S (n - 4)) by lia. apply wrapped_succ.
Qed.

(** The levels on sample lines: [**Hello World**] is bold, and of the five
    pairs around [x] two stay. *)
Lemma emphasis_levels_witness :
  stripEmphasis (wrapped 2 (JS.str "Hello World")) = (JS.str "Hello World", 2%nat) /\
  stripEmphasis (wrapped 5 (JS.str "x")) = (JS.str "**x**", 3%nat).
Proof.
  destruct emphasis_levels as (_ & _ & H3 & H4).
  split.
  - apply H3; [lia|reflexivity].
  - destruct (H4 5%nat (JS.str "x")) as [E _]; [lia|]. exact E.
Defined.

(** C6 fails on the code.  The test of the marker loop reads the first and
    the last character, which are one and the same in a line of one
    character: the line [*], which holds no pair of markers, is stripped
    to the empty text at level 1 and rendered as an empty text in
    italics; the line [***], one pair around a marker, is stripped to the
    empty text at level 2, and [*****], two pairs around a marker, to the
    empty text at level 3.  In each of them half a pair is taken for a
    pair, and the marker in the middle is not rendered. *)
Theorem lone_marker_taken_for_pair :
  let this := constructor (narrow (JS.str "*")) in
  (forall e text, JS.str "*" = wrapped e text -> e = 0%nat /\ text = JS.str "*") /\
  stripEmphasis (JS.str "*") = ([], 1%nat) /\
  renderedTexts (getSubtitleMesh this 9) = Some [([], 1%nat)] /\
  (forall e text, JS.str "***" = wrapped e text ->
     (e = 0%nat /\ text = JS.str "***") \/ (e = 1%nat /\ text = JS.str "*")) /\
  stripEmphasis (JS.str "***") = ([], 2%nat) /\
  (forall e text, JS.str "*****" = wrapped e text -> (e <= 2)%nat) /\
  stripEmphasis (JS.str "*****") = ([], 3%nat).
Proof.
  intros this.
  assert (Hlen : forall e text, List.length (wrapped e text) = (2 * e + List.length text)%nat).
  { intros e text. unfold wrapped, JS.repeat.
    rewrite !List.length_app, !repeat_length. lia. }
  split; [|split; [reflexivity|split; [vm_compute; reflexivity|]]].
  { intros e text H. pose proof (f_equal (@List.length _) H) as L.
    rewrite Hlen in L. cbn in L.
    destruct e as [|e]; [|lia]. rewrite wrapped_zero in H. now split. }
  split; [|split; [reflexivity|]].
  { intros e text H. pose proof (f_equal (@List.length _) H) as L.
    rewrite Hlen in L. cbn in L.
    destruct e as [|[|e]]; [| |lia].
    - rewrite wrapped_zero in H. left. now split.
    - right. split; [reflexivity|].
      destruct text as [|c [|d text]]; cbn in L; try lia.
      cbn in H. injection H as <-. reflexivity. }
  split; [|reflexivity].
  intros e text H. pose proof (f_equal (@List.length _) H) as L.
  rewrite Hlen in L. cbn in L. lia.
Qed.

(* ================================================================== *)
(** * The wrap loop *)

Section WrapLoop.

Context {T : Three}.
Variable this : BaseTag3D.
Variables i emphLevel : nat.

Lemma overflows_false (text : JS.jsstring) :
  overflows this emphLevel text = false <->
  textWidth this emphLevel text <= availableWidth this.
Proof.
  unfold overflows, JS.gt. rewrite negb_false_iff. apply Qle_bool_iff.
Qed.

(** A round that finds the text fitting leaves the loop. *)
Lemma wrapLoop_exit (fuel : nat) (text : JS.jsstring) (textLines : list JS.value)
  (numLines : nat) (newLineCreated : bool) :
  overflows this emphLevel text = false ->
  wrapLoop this (S fuel) i emphLevel text textLines numLines newLineCreated =
  Some (mkWrap text textLines numLines newLineCreated
          (getBoundingBoxSize (textMesh this text (nth_error fonts emphLevel)))
          (textMesh this text (nth_error fonts emphLevel))).
Proof.
  intros H. cbn [wrapLoop].
  change (JS.gt _ _) with (overflows this emphLevel text). now rewrite H.
Qed.

(** A round that finds the text too wide moves its last character to the
    line after [i] and goes on with the text one character shorter. *)
Lemma wrapLoop_snip (fuel : nat) (text : JS.jsstring) (c : ascii)
  (textLines : list JS.value) (numLines : nat) (newLineCreated : bool) :
  overflows this emphLevel (text ++ [c]) = true ->
  wrapLoop this (S fuel) i emphLevel (text ++ [c]) textLines numLines newLineCreated =
  wrapLoop this fuel i emphLevel text
    (if newLineCreated
     then JS.set textLines (i + 1)
            (JS.add (JS.Str [c]) (JS.get textLines (i + 1)))
     else JS.splice textLines (i + 1) (JS.Str [c]))
    (if newLineCreated then numLines else (numLines + 1)%nat)
    true.
Proof.
  intros H. cbn [wrapLoop].
  change (JS.gt _ _) with (overflows this emphLevel (text ++ [c])). rewrite H.
  rewrite JSFacts.charAt_last, JSFacts.substr_init.
  now destruct newLineCreated.
Qed.

(** When the empty text is too wide, the loop does not leave: it removes
    nothing from the empty text and measures it again. *)
Lemma wrapLoop_empty_stuck (fuel : nat) :
  overflows this emphLevel [] = true ->
  forall textLines numLines newLineCreated,
    wrapLoop this fuel i emphLevel [] textLines numLines newLineCreated = None.
Proof.
  intros H. induction fuel as [|fuel IH]; intros textLines numLines nlc.
  - reflexivity.
  - cbn [wrapLoop].
    change (JS.gt _ _) with (overflows this emphLevel []). rewrite H.
    rewrite JSFacts.substr_init_empty.
    destruct nlc; cbn [negb]; apply IH.
Qed.

(** The loop once a line after [i] exists: the characters it removes are
    put, in their order, in front of that line. *)
Lemma wrapLoop_spill (fuel : nat) :
  forall (text : JS.jsstring) (textLines : list JS.value) (numLines : nat) (w : Wrap),
    (i + 1 < List.length textLines)%nat ->
    wrapLoop this fuel i emphLevel text textLines numLines true = Some w ->
    exists spilled,
      text = w_text w ++ spilled /\
      overflows this emphLevel (w_text w) = false /\
      w_subtitleMesh w = textMesh this (w_text w) (nth_error fonts emphLevel) /\
      w_textSize w = getBoundingBoxSize (w_subtitleMesh w) /\
      w_numLines w = numLines /\
      w_newLineCreated w = true /\
      w_textLines w =
        match spilled with
        | [] => textLines
        | _ => JS.set textLines (i + 1)
                 (JS.add (JS.Str spilled) (JS.get textLines (i + 1)))
        end.
Proof.
  induction fuel as [|fuel IH]; intros text textLines numLines w Hi H;
    [discriminate|].
  destruct (overflows this emphLevel text) eqn:O.
  - destruct (JSFacts.last_cases text) as [->|(t & c & ->)].
    + now rewrite wrapLoop_empty_stuck in H.
    + rewrite wrapLoop_snip in H by assumption.
      apply IH in H; [|now rewrite JSFacts.set_length].
      destruct H as (sp & Et & Hfit & Hm & Hs & Hn & Hc & Hl).
      exists (sp ++ [c]). rewrite app_assoc, <- Et.
      repeat split; try assumption.
      rewrite Hl.
      destruct sp as [|a sp].
      * reflexivity.
      * rewrite JSFacts.get_set, JSFacts.set_set, JSFacts.add_str_assoc by assumption.
        reflexivity.
  - rewrite wrapLoop_exit in H by assumption.
    injection H as <-. exists []. cbn. rewrite app_nil_r. now repeat split.
Qed.

(** The loop as a line enters it: the text is cut into the part that is
    rendered, which fits, and the characters spilled, which make up a new
    line after [i] when there are any. *)
Lemma wrapLoop_spec (fuel : nat) (text : JS.jsstring) (textLines : list JS.value)
  (numLines : nat) (w : Wrap) :
  (i + 1 <= List.length textLines)%nat ->
  wrapLoop this fuel i emphLevel text textLines numLines false = Some w ->
  exists spilled,
    text = w_text w ++ spilled /\
    overflows this emphLevel (w_text w) = false /\
    w_subtitleMesh w = textMesh this (w_text w) (nth_error fonts emphLevel) /\
    w_textSize w = getBoundingBoxSize (w_subtitleMesh w) /\
    match spilled with
    | [] => w_textLines w = textLines /\ w_numLines w = numLines /\
            w_newLineCreated w = false
    | _ => w_textLines w = JS.splice textLines (i + 1) (JS.Str spilled) /\
           w_numLines w = (numLines + 1)%nat /\
           w_newLineCreated w = true
    end.
Proof.
  intros Hi H. destruct fuel as [|fuel]; [discriminate|].
  destruct (overflows this emphLevel text) eqn:O.
  - destruct (JSFacts.last_cases text) as [->|(t & c & ->)].
    + now rewrite wrapLoop_empty_stuck in H.
    + rewrite wrapLoop_snip in H by assumption.
      apply wrapLoop_spill in H; [|rewrite JSFacts.splice_length; lia].
      destruct H as (sp & Et & Hfit & Hm & Hs & Hn & Hc & Hl).
      exists (sp ++ [c]). rewrite app_assoc, <- Et.
      repeat split; try assumption.
      assert (E : w_textLines w = JS.splice textLines (i + 1) (JS.Str (sp ++ [c]))).
      { rewrite Hl. destruct sp as [|a sp]; [reflexivity|].
        rewrite JSFacts.get_splice by lia. cbn [JS.add JS.toString].
        now rewrite JSFacts.set_splice by lia. }
      destruct (sp ++ [c]) eqn:Esp; [now destruct sp|].
      now repeat split.
  - rewrite wrapLoop_exit in H by assumption.
    injection H as <-. exists []. cbn. rewrite app_nil_r. now repeat split.
Qed.

(** The rounds of the loop when the empty text fits: the loop cuts the
    text into the part it leaves with and the characters it removed, one
    in each round that found the text too wide, and a bound of [fuel]
    rounds is enough exactly when it exceeds their number. *)
Lemma wrapLoop_runs (text : JS.jsstring) :
  overflows this emphLevel [] = false ->
  forall (textLines : list JS.value) (numLines : nat) (newLineCreated : bool),
  exists (w : Wrap) (spilled : JS.jsstring),
    text = w_text w ++ spilled /\
    (List.length spilled <= List.length text)%nat /\
    overflows this emphLevel (w_text w) = false /\
    (forall k, (k < List.length spilled)%nat ->
       overflows this emphLevel
         (firstn (List.length text - k) text) = true /\
       List.length (JS.substr (firstn (List.length text - k) text) 0
                      (JS.length (firstn (List.length text - k) text) - 1))
       = (List.length text - k - 1)%nat) /\
    forall fuel,
      wrapLoop this fuel i emphLevel text textLines numLines newLineCreated =
      if (List.length spilled <? fuel)%nat then Some w else None.
Proof.
  intros Hempty.
  induction text as [|c t IH] using rev_ind; intros textLines numLines nlc.
  - exists (mkWrap [] textLines numLines nlc
              (getBoundingBoxSize (textMesh this [] (nth_error fonts emphLevel)))
              (textMesh this [] (nth_error fonts emphLevel))), [].
    split; [reflexivity|].
    split; [cbn; lia|]. split; [assumption|].
    split; [cbn; intros; lia|].
    intros [|fuel]; [reflexivity|]. now rewrite wrapLoop_exit.
  - destruct (overflows this emphLevel (t ++ [c])) eqn:O.
    + destruct (IH (if nlc
                    then JS.set textLines (i + 1)
                           (JS.add (JS.Str [c]) (JS.get textLines (i + 1)))
                    else JS.splice textLines (i + 1) (JS.Str [c]))
                   (if nlc then numLines else (numLines + 1)%nat) true)
        as (w & sp & Et & Hlen & Hfit & Hsnip & Hrun).
      exists w, (sp ++ [c]).
      split; [now rewrite app_assoc, <- Et|].
      split; [rewrite !List.length_app; cbn; lia|].
      split; [exact Hfit|].
      split.
      * intros k Hk. rewrite List.length_app in Hk. cbn [List.length] in Hk.
        destruct k as [|k].
        -- rewrite Nat.sub_0_r, firstn_all, JSFacts.substr_init.
           split; [exact O|rewrite List.length_app; cbn [List.length]; lia].
        -- destruct (Hsnip k) as [Ho Hl]; [lia|].
           replace (List.length (t ++ [c]) - S k)%nat with (List.length t - k)%nat
             by (rewrite List.length_app; cbn [List.length]; lia).
           rewrite firstn_app.
           replace (List.length t - k - List.length t)%nat with 0%nat by lia.
           rewrite firstn_O, app_nil_r. split; [exact Ho|exact Hl].
      * intros [|fuel]; [reflexivity|].
        rewrite wrapLoop_snip by assumption. rewrite Hrun.
        rewrite List.length_app. cbn [List.length].
        destruct (Nat.ltb_spec (List.length sp) fuel);
          destruct (Nat.ltb_spec (List.length sp + 1) (S fuel)); (reflexivity || lia).
    + exists (mkWrap (t ++ [c]) textLines numLines nlc
                (getBoundingBoxSize (textMesh this (t ++ [c]) (nth_error fonts emphLevel)))
                (textMesh this (t ++ [c]) (nth_error fonts emphLevel))), [].
      split; [cbn; now rewrite app_nil_r|].
      split; [cbn; lia|]. split; [assumption|].
      split; [cbn; intros; lia|].
      intros [|fuel]; [reflexivity|]. now rewrite wrapLoop_exit.
Qed.


(** C3. If the empty string measures at most the available width at the
    font of the line, the wrap loop leaves, whatever the line: it cuts the
    text into the part [w_text w] it renders and the characters [spilled]
    it removed, one in each round that found the text too wide, and runs
    exactly [length spilled] such rounds, at most the length of the text,
    before the round that finds the text fitting: a bound of [fuel] rounds
    is enough exactly when [fuel] exceeds [length spilled]. *)
Theorem wrapLoop_terminates (text : JS.jsstring) :
  textWidth this emphLevel [] <= availableWidth this ->
  forall (textLines : list JS.value) (numLines : nat) (newLineCreated : bool),
  exists (w : Wrap) (spilled : JS.jsstring),
    text = w_text w ++ spilled /\
    (List.length spilled <= List.length text)%nat /\
    textWidth this emphLevel (w_text w) <= availableWidth this /\
    (forall k, (k < List.length spilled)%nat ->
       overflows this emphLevel
         (firstn (List.length text - k) text) = true /\
       List.length (JS.substr (firstn (List.length text - k) text) 0
                      (JS.length (firstn (List.length text - k) text) - 1))
       = (List.length text - k - 1)%nat) /\
    forall fuel,
      wrapLoop this fuel i emphLevel text textLines numLines newLineCreated =
      if (List.length spilled <? fuel)%nat then Some w else None.
Proof.
  intros Hempty textLines numLines newLineCreated.
  apply overflows_false in Hempty.
  destruct (wrapLoop_runs text Hempty textLines numLines newLineCreated)
    as (w & spilled & Et & Hlen & Hfit & Hsnip & Hrun).
  exists w, spilled.
  split; [exact Et|]. split; [exact Hlen|]. split; [now apply overflows_false|].
  split; [exact Hsnip|exact Hrun].
Qed.

End WrapLoop.

Lemma wrapLoop_terminates_witness :
  let this := constructor (narrow (JS.str "abcdef")) in
  textWidth this 0 [] <= availableWidth this /\
  wrapLoop this 3 0 0 (JS.str "abcdef") [JS.Str (JS.str "abcdef")] 1 false =
    Some (mkWrap (JS.str "abcd") [JS.Str (JS.str "abcdef"); JS.Str (JS.str "ef")]
            2 true
            (getBoundingBoxSize (textMesh this (JS.str "abcd") (Some fontRegular)))
            (textMesh this (JS.str "abcd") (Some fontRegular))) /\
  exists (w : Wrap) (spilled : JS.jsstring),
    JS.str "abcdef" = w_text w ++ spilled /\
    forall fuel,
      wrapLoop this fuel 0 0 (JS.str "abcdef") [JS.Str (JS.str "abcdef")] 1 false =
      if (List.length spilled <? fuel)%nat then Some w else None.
Proof.
  intros this.
  assert (H : textWidth this 0 [] <= availableWidth this)
    by (vm_compute; discriminate).
  split; [exact H|]. split; [vm_compute; reflexivity|].
  destruct (wrapLoop_terminates this 0 0 (JS.str "abcdef") H
              [JS.Str (JS.str "abcdef")] 1%nat false)
    as (w & spilled & E & _ & _ & _ & R).
  now exists w, spilled.
Defined.

(* ================================================================== *)
(** * The lines of the label *)

Section Lines.

Context {T : Three}.
Variable this : BaseTag3D.

(** Whatever the loop did before, the text it leaves with fits. *)
Lemma wrapLoop_fits (fuel : nat) :
  forall i emphLevel text textLines numLines newLineCreated w,
    wrapLoop this fuel i emphLevel text textLines numLines newLineCreated = Some w ->
    overflows this emphLevel (w_text w) = false /\
    w_subtitleMesh w = textMesh this (w_text w) (nth_error fonts emphLevel).
Proof.
  induction fuel as [|fuel IH]; intros i e text textLines numLines nlc w H;
    [discriminate|].
  destruct (overflows this e text) eqn:O.
  - cbn [wrapLoop] in H.
    change (JS.gt _ _) with (overflows this e text) in H. rewrite O in H.
    destruct nlc; cbn [negb] in H; now apply IH in H.
  - rewrite wrapLoop_exit in H by assumption. injection H as <-. now split.
Qed.

(** The line a text makes under the placements top, bottom and center. *)
Lemma lineTopBottomCenter_spec (fuel i : nat) (text : JS.jsstring) (e : nat)
  (textLines : list JS.value) (numLines : nat) (l : Line) :
  (i + 1 <= List.length textLines)%nat ->
  lineTopBottomCenter this fuel i text e textLines numLines = Some l ->
  exists spilled,
    text = l_text l ++ spilled /\
    l_emphLevel l = e /\
    overflows this e (l_text l) = false /\
    match spilled with
    | [] => l_textLines l = textLines /\ l_numLines l = numLines
    | _ => l_textLines l = JS.splice textLines (i + 1) (JS.Str (wrapped e spilled)) /\
           l_numLines l = (numLines + 1)%nat
    end.
Proof.
  intros Hi H. unfold lineTopBottomCenter in H.
  destruct (wrapLoop this fuel i e text textLines numLines false) as [w|] eqn:W;
    [|discriminate].
  destruct (wrapLoop_spec this i e fuel text textLines numLines w Hi W)
    as (sp & Et & Hfit & _ & _ & Hsp).
  injection H as <-. cbn [l_text l_emphLevel l_textLines l_numLines].
  exists sp. split; [exact Et|]. split; [reflexivity|]. split; [exact Hfit|].
  destruct sp as [|a sp].
  - destruct Hsp as (-> & -> & ->). now split.
  - destruct Hsp as (-> & -> & ->). split; [|reflexivity].
    rewrite JSFacts.get_splice by lia. cbn [JS.add JS.toString].
    rewrite JSFacts.set_splice by lia.
    unfold wrapped. now rewrite <- app_assoc.
Qed.

(** A line rendered under these placements fits, and its mesh is the text
    geometry of the text left, in the font of its level. *)
Lemma lineStep_fits (fuel i : nat) (textLines : list JS.value) (numLines : nat)
  (l : Line) :
  isOffsetTopBottom this = true ->
  lineStep this fuel i textLines numLines = Some l ->
  textWidth this (l_emphLevel l) (l_text l) <= availableWidth this /\
  (l_emphLevel l <= 3)%nat /\
  geometry (l_mesh l) =
    TextGeometry (l_text l) (nth_error fonts (l_emphLevel l))
                 (textSize (opt this)) (textDepth (opt this)).
Proof.
  intros Hp H. unfold lineStep in H.
  destruct (JS.get textLines i) as [| |line]; try discriminate.
  pose proof (stripEmphasis_level line) as Hlevel.
  destruct (stripEmphasis line) as [text e]. cbn [snd] in Hlevel.
  rewrite Hp in H. unfold lineTopBottomCenter in H.
  destruct (wrapLoop this fuel i e text textLines numLines false) as [w|] eqn:W;
    [|discriminate].
  apply wrapLoop_fits in W as [Hfit Hmesh].
  injection H as <-. cbn [l_text l_emphLevel l_mesh].
  split; [now apply overflows_false|]. split; [exact Hlevel|].
  unfold setPosition. cbn [geometry]. now rewrite Hmesh.
Qed.

(** The geometry the loop has merged is that of the lines it rendered. *)
Lemma linesLoop_rendered (P : Line -> Prop) (fuel : nat) :
  (forall i textLines numLines l,
      lineStep this fuel i textLines numLines = Some l -> P l) ->
  forall steps i s s',
    linesLoop this fuel steps i s = Some s' ->
    Forall P (s_rendered s) ->
    s_textGeometry s = fold_left mergeLine (map l_mesh (s_rendered s)) BufferGeometry ->
    Forall P (s_rendered s') /\
    s_textGeometry s' = fold_left mergeLine (map l_mesh (s_rendered s')) BufferGeometry.
Proof.
  intros HP. induction steps as [|steps IH]; intros i s s' H HF HG; [discriminate|].
  cbn [linesLoop] in H.
  destruct (i <? s_numLines s)%nat.
  - destruct (lineStep this fuel i (s_textLines s) (s_numLines s)) as [l|] eqn:L;
      [|discriminate].
    apply IH in H; [exact H| |]; cbn [s_rendered s_textGeometry].
    + apply Forall_app. split; [exact HF|]. constructor; [|constructor].
      exact (HP _ _ _ _ L).
    + rewrite map_app, fold_left_app, <- HG. reflexivity.
  - injection H as <-. now split.
Qed.

End Lines.

(** C2. Under the placements top, bottom and center, the label
    [getSubtitleMesh] returns is merged from the meshes of the lines it
    rendered, each the text geometry of the text the wrap loop left in the
    font of the level of the line, and each of these texts measures at most
    the available width, which the constructor set to
    [base.width - 2 * code.margin], less [2 * borderWidth] with a border. *)
Theorem wrapped_lines_fit {T : Three} (o : Options) (fuel : nat)
  (this' : BaseTag3D) (mesh : Mesh Geometry) (rendered : list Line) :
  let this := constructor o in
  isOffsetTopBottom this = true ->
  getSubtitleMesh this fuel = Some (this', mesh, rendered) ->
  availableWidth this ==
    width (base o) - 2 * margin (code o)
    - (if hasBorder (base o) then 2 * borderWidth (base o) else 0) /\
  geometry mesh = fold_left mergeLine (map l_mesh rendered) BufferGeometry /\
  Forall (fun l =>
            geometry (l_mesh l) =
              TextGeometry (l_text l) (nth_error fonts (l_emphLevel l))
                           (textSize (base o)) (textDepth (base o)) /\
            (l_emphLevel l <= 3)%nat /\
            textWidth this (l_emphLevel l) (l_text l) <= availableWidth this)
         rendered.
Proof.
  intros this Hp H. split.
  { unfold this, constructor. cbn [availableWidth withDefaults base code].
    destruct (hasBorder (base o)); ring. }
  unfold getSubtitleMesh in H.
  destruct (linesLoop this fuel fuel 0 (initialLines this)) as [s|] eqn:L;
    [|discriminate].
  injection H as _ <- <-. cbn [geometry newMesh].
  apply and_comm.
  eapply (linesLoop_rendered this) in L; [exact L| | |].
  - intros i textLines numLines l Hl.
    destruct (lineStep_fits this fuel i textLines numLines l Hp Hl) as (A & B & C).
    split; [exact C|]. split; [exact B|exact A].
  - constructor.
  - reflexivity.
Qed.

Lemma wrapped_lines_fit_witness :
  let this := constructor (narrow (JS.str "abcdef")) in
  isOffsetTopBottom this = true /\
  renderedTexts (getSubtitleMesh this 20) =
    Some [(JS.str "abcd", 0%nat); (JS.str "ef", 0%nat)] /\
  Forall (fun l => textWidth this (l_emphLevel l) (l_text l) <= availableWidth this)
         (renderedLines (getSubtitleMesh this 20)).
Proof.
  intros this.
  split; [reflexivity|]. split; [vm_compute; reflexivity|].
  destruct (getSubtitleMesh this 20) as [[[this' mesh] rendered]|] eqn:E.
  - destruct (wrapped_lines_fit (narrow (JS.str "abcdef")) 20 this' mesh rendered
                eq_refl E) as (_ & _ & H).
    cbn [renderedLines]. eapply Forall_impl; [|exact H].
    intros l (_ & _ & Hl). exact Hl.
  - constructor.
Defined.

(* ================================================================== *)
(** * Lines made by the wrap loop *)

(** Inserting after [i] leaves the entry at [i] as it was. *)
Lemma get_splice_before (a : list JS.value) (i : nat) (v : JS.value) :
  (i < List.length a)%nat -> JS.get (JS.splice a (i + 1) v) i = JS.get a i.
Proof.
  intros H. unfold JS.splice, JS.get.
  rewrite app_nth1 by (rewrite List.length_firstn; lia).
  rewrite nth_firstn. destruct (Nat.ltb_spec i (i + 1)); [reflexivity|lia].
Qed.

(** The wrap loop never writes the shortened text back: once line [i] is
    done, entry [i] of the array still holds the whole line, whose last
    characters are now in entry [i + 1] as well. *)
Lemma lineStep_keeps_line {T : Three} (this : BaseTag3D) (fuel i : nat)
  (textLines : list JS.value) (numLines : nat) (line : JS.jsstring) (l : Line) :
  isOffsetTopBottom this = true ->
  (i < List.length textLines)%nat ->
  JS.get textLines i = JS.Str line ->
  lineStep this fuel i textLines numLines = Some l ->
  JS.get (l_textLines l) i = JS.Str line.
Proof.
  intros Hp Hi Hg H. unfold lineStep in H. rewrite Hg in H.
  destruct (stripEmphasis line) as [text e]. rewrite Hp in H.
  destruct (lineTopBottomCenter_spec this fuel i text e textLines numLines l)
    as (sp & _ & _ & _ & Hsp); [lia|exact H|].
  destruct sp as [|a sp].
  - destruct Hsp as [-> _]. exact Hg.
  - destruct Hsp as [-> _]. now rewrite get_splice_before.
Qed.

(** X17. Under the placements top, bottom and center, when line [i], of
    emphasis level [e], is done, the text rendered for it, at level [e],
    is the stripped line without the characters spilled; if there are any,
    the array of lines has one new entry, at [i + 1], equal to [e]
    markers, the spilled characters and [e] markers; and this entry is
    stripped back to the spilled characters at level [e] if [e] is 3 or
    the spilled characters do not both start and end with a marker. *)
Theorem overflow_line_markers {T : Three} (this : BaseTag3D) (fuel i : nat)
  (textLines : list JS.value) (numLines : nat) (line : JS.jsstring) (l : Line) :
  isOffsetTopBottom this = true ->
  (i < List.length textLines)%nat ->
  JS.get textLines i = JS.Str line ->
  lineStep this fuel i textLines numLines = Some l ->
  let e := snd (stripEmphasis line) in
  exists spilled,
    fst (stripEmphasis line) = l_text l ++ spilled /\
    l_emphLevel l = e /\ (e <= 3)%nat /\
    (spilled = [] -> l_textLines l = textLines /\ l_numLines l = numLines) /\
    (spilled <> [] ->
       l_textLines l = JS.splice textLines (i + 1) (JS.Str (wrapped e spilled)) /\
       l_numLines l = (numLines + 1)%nat /\
       JS.get (l_textLines l) (i + 1) = JS.Str (wrapped e spilled) /\
       (e = 3%nat \/ enclosed spilled = false ->
        stripEmphasis (wrapped e spilled) = (spilled, e))).
Proof.
  intros Hp Hi Hg H e. unfold lineStep in H. rewrite Hg in H.
  pose proof (stripEmphasis_level line) as Hlevel. fold e in Hlevel.
  subst e. destruct (stripEmphasis line) as [text e]. cbn [fst snd] in *.
  rewrite Hp in H.
  destruct (lineTopBottomCenter_spec this fuel i text e textLines numLines l)
    as (sp & Et & He & _ & Hsp); [lia|exact H|].
  exists sp. split; [exact Et|]. split; [exact He|]. split; [exact Hlevel|].
  split.
  - intros ->. exact Hsp.
  - intros Hne. destruct sp as [|a sp]; [contradiction|].
    destruct Hsp as [Hl Hn]. split; [exact Hl|]. split; [exact Hn|].
    split.
    + rewrite Hl. apply JSFacts.get_splice. lia.
    + intros Hs. now apply stripEmphasis_wrapped.
Qed.

(** The bold line [**abcdef**] on the narrow tag: [**ef**] is inserted
    after it, and is bold again. *)
Lemma overflow_line_markers_witness :
  let this := constructor (narrow (JS.str "**abcdef**")) in
  let lines := [JS.Str (JS.str "**abcdef**")] in
  isOffsetTopBottom this = true /\
  (0 < List.length lines)%nat /\
  JS.get lines 0 = JS.Str (JS.str "**abcdef**") /\
  option_map l_textLines (lineStep this 9 0 lines 1) =
    Some [JS.Str (JS.str "**abcdef**"); JS.Str (JS.str "**ef**")] /\
  stripEmphasis (JS.str "**ef**") = (JS.str "ef", 2%nat) /\
  forall l, lineStep this 9 0 lines 1 = Some l ->
    exists spilled,
      JS.str "abcdef" = l_text l ++ spilled /\ l_emphLevel l = 2%nat.
Proof.
  intros this lines.
  split; [reflexivity|]. split; [cbn; lia|]. split; [reflexivity|].
  split; [vm_compute; reflexivity|]. split; [vm_compute; reflexivity|].
  intros l Hl.
  destruct (overflow_line_markers this 9 0 lines 1 (JS.str "**abcdef**") l
              eq_refl (Nat.lt_0_succ 0) eq_refl Hl)
    as (spilled & Et & He & _).
  exists spilled. split; [exact Et|exact He].
Defined.

(** C5 fails on the code.  The line [Tel *now*] of the narrow tag, where
    four characters fill the available width, has level 0 and is rendered
    as [Tel ]; the characters [*now*] are spilled, and the entry made for
    them at [i + 1] is zero markers, [*now*] and zero markers.  The next
    round reads this entry as a line of level 1, not of the level 0 of
    the line it was cut from: it is rendered as [now] in italics, its two
    markers gone. *)
Theorem overflow_line_level_changes :
  let this := constructor (narrow (JS.str "Tel *now*")) in
  let lines := [JS.Str (JS.str "Tel *now*")] in
  exists l,
    lineStep this 9 0 lines 1 = Some l /\
    l_text l = JS.str "Tel " /\
    l_emphLevel l = 0%nat /\
    JS.get (l_textLines l) 1 = JS.Str (wrapped 0 (JS.str "*now*")) /\
    snd (stripEmphasis (wrapped 0 (JS.str "*now*"))) <> l_emphLevel l /\
    renderedTexts (getSubtitleMesh this 9) =
      Some [(JS.str "Tel ", 0%nat); (JS.str "now", 1%nat)].
Proof.
  intros this lines.
  destruct (lineStep this 9 0 lines 1) as [l|] eqn:E;
    [|vm_compute in E; discriminate E].
  exists l. split; [reflexivity|].
  vm_compute in E. injection E as <-.
  split; [reflexivity|]. split; [reflexivity|]. split; [reflexivity|].
  split; [vm_compute; discriminate|]. vm_compute. reflexivity.
Qed.

(* ================================================================== *)
(** * Writing the lines back *)

(** C4 fails on the code.  On the narrow tag, where four characters fill
    the available width, the message [abcdefgh] is rendered as [abcd] and
    [efgh], and written back as the two lines [abcdefgh] and [efgh]: the
    first line is not shortened.  A second run on the object the first one
    left splits the first line again: it renders the three lines [abcd],
    [efgh], [efgh] and writes three lines back. *)
Theorem wrap_twice_grows :
  let this := constructor (narrow (JS.str "abcdefgh")) in
  let once := getSubtitleMesh this 12 in
  let twice := getSubtitleMeshTwice this 12 in
  messageAfter once = Some (JS.str "abcdefgh" ++ JS.LF :: JS.str "efgh") /\
  renderedTexts once = Some [(JS.str "abcd", 0%nat); (JS.str "efgh", 0%nat)] /\
  messageAfter twice =
    Some (JS.str "abcdefgh" ++ JS.LF :: JS.str "efgh" ++ JS.LF :: JS.str "efgh") /\
  renderedTexts twice =
    Some [(JS.str "abcd", 0%nat); (JS.str "efgh", 0%nat); (JS.str "efgh", 0%nat)] /\
  messageAfter twice <> messageAfter once.
Proof.
  intros this once twice.
  repeat split; try (vm_compute; reflexivity).
  vm_compute. discriminate.
Qed.

(* ================================================================== *)
(** * The parts exported *)

Section Parts.

Context {T : Three}.

(** [getSubtitleMesh] changes the message of the object and nothing else. *)
Lemma getSubtitleMesh_object (this this' : BaseTag3D) (fuel : nat)
  (m : Mesh Geometry) (r : list Line) :
  getSubtitleMesh this fuel = Some (this', m, r) ->
  exists message, this' = setOptions this (setTextMessage (options this) message).
Proof.
  unfold getSubtitleMesh. destruct (linesLoop this fuel fuel 0 (initialLines this));
    [|discriminate].
  intros H. injection H as <- _ _. eexists. reflexivity.
Qed.

(** The mesh [getSubtitleMesh] returns is a new one, whose matrix nobody
    updated: the lines were placed in its geometry. *)
Lemma getSubtitleMesh_matrix (this this' : BaseTag3D) (fuel : nat)
  (m : Mesh Geometry) (r : list Line) :
  getSubtitleMesh this fuel = Some (this', m, r) -> matrix m = identity.
Proof.
  unfold getSubtitleMesh. destruct (linesLoop this fuel fuel 0 (initialLines this));
    [|discriminate].
  intros H. injection H as _ <- _. reflexivity.
Qed.

(** [getBaseMesh] and [getBorderMesh] end in [updateMatrix()]. *)
Lemma getBaseMesh_matrix (this : BaseTag3D) :
  let b := getBaseMesh this in
  matrix b = compose (position b) (rotation b) (scale b).
Proof. unfold getBaseMesh. destruct (hasNfcIndentation (opt this)); reflexivity. Qed.

Lemma getBorderMesh_matrix (this : BaseTag3D) :
  let m := getBorderMesh this in
  matrix m = compose (position m) (rotation m) (scale m).
Proof. reflexivity. Qed.

(** C1. When [generate3dModel] completes on a new object, the parts it
    exported are, in this order, [subtitle] if the tag has a text and the
    code is not inverted, [base], [border] if the tag has a border,
    [keychainAttachment] if it has a keychain attachment, and [combined]:
    [base] and [combined] are always there and each other part is there if
    and only if its condition holds.  The geometry of [combined] is what
    [mergeGeometries] gives on the geometries of [base] and of those of
    [border], [subtitle] and [keychainAttachment] that were exported, in
    this order, each one with the matrix of its mesh applied by
    [applyMatrix4] and then replaced by [toNonIndexed] of it where it has
    an index.  The matrix applied is, for [base] and for [border], the one
    [updateMatrix] composed of the position, the rotation and the scale of
    the mesh, and for [subtitle] the identity, the lines being placed in
    its geometry. *)
Theorem generated_parts (o : Options) (fuel : nat) (this' : BaseTag3D) :
  generate3dModel (constructor o) fuel = Some this' ->
  let parts := exportedMeshes this' in
  let keys := objKeys parts in
  keys =
    (if hasText (base o) && negb (invert (code o)) then ["subtitle"%string] else [])
    ++ ["base"%string]
    ++ (if hasBorder (base o) then ["border"%string] else [])
    ++ (if hasKeychainAttachment (base o) then ["keychainAttachment"%string] else [])
    ++ ["combined"%string] /\
  (In "base"%string keys /\ In "combined"%string keys) /\
  (In "border"%string keys <-> hasBorder (base o) = true) /\
  (In "subtitle"%string keys <->
     hasText (base o) && negb (invert (code o)) = true) /\
  (In "keychainAttachment"%string keys <->
     hasKeychainAttachment (base o) = true) /\
  exists b c,
    objGet parts "base" = Some b /\
    objGet parts "combined" = Some c /\
    matrix b = compose (position b) (rotation b) (scale b) /\
    (forall m, objGet parts "border" = Some m ->
               matrix m = compose (position m) (rotation m) (scale m)) /\
    (forall m, objGet parts "subtitle" = Some m -> matrix m = identity) /\
    geometry c =
      mergeGeometries
        (map (fun geo => if hasIndex geo then toNonIndexed geo else geo)
             ([applyMatrix4 (geometry b) (matrix b)]
              ++ match objGet parts "border" with
                 | Some m => [applyMatrix4 (geometry m) (matrix m)]
                 | None => []
                 end
              ++ match objGet parts "subtitle" with
                 | Some m => [applyMatrix4 (geometry m) (matrix m)]
                 | None => []
                 end
              ++ match objGet parts "keychainAttachment" with
                 | Some m => [applyMatrix4 (geometry m) (matrix m)]
                 | None => []
                 end)).
Proof.
  intros H parts keys. subst keys parts.
  assert (Hmatrix : forall this1 m r,
            getSubtitleMesh (constructor o) fuel = Some (this1, m, r) ->
            matrix m = identity)
    by (intros this1 m r; apply getSubtitleMesh_matrix).
  unfold generate3dModel, generateSubtitle in H.
  change (hasText (opt (constructor o))) with (hasText (base o)) in H.
  destruct (hasText (base o)) eqn:Etext.
  - destruct (getSubtitleMesh (constructor o) fuel) as [[[this1 m] r]|] eqn:G;
      [|discriminate].
    specialize (Hmatrix this1 m r eq_refl).
    apply getSubtitleMesh_object in G. destruct G as (message & ->).
    unfold generateParts, getCombinedMesh, combinedGeometries in H.
    revert H. parts_cbn.
    destruct (invert (code o)) eqn:Einvert; parts_cbn;
      destruct (hasBorder (base o)); parts_cbn;
      destruct (hasKeychainAttachment (base o)); parts_cbn;
      rewrite ?Einvert; parts_cbn;
      intros H; injection H as <-; parts_cbn; parts_done;
      (split; [apply getBaseMesh_matrix|]);
      (split; [intros ? Hpart; first
                 [discriminate Hpart
                 |injection Hpart as <-; apply getBorderMesh_matrix]|]);
      (split; [intros ? Hpart; first
                 [discriminate Hpart|injection Hpart as <-; assumption]|]);
      reflexivity.
  - unfold generateParts, getCombinedMesh, combinedGeometries in H.
    revert H. parts_cbn.
    destruct (invert (code o)) eqn:Einvert; parts_cbn;
      destruct (hasBorder (base o)); parts_cbn;
      destruct (hasKeychainAttachment (base o)); parts_cbn;
      rewrite ?Einvert; parts_cbn;
      intros H; injection H as <-; parts_cbn; parts_done;
      (split; [apply getBaseMesh_matrix|]);
      (split; [intros ? Hpart; first
                 [discriminate Hpart
                 |injection Hpart as <-; apply getBorderMesh_matrix]|]);
      (split; [intros ? Hpart; first
                 [discriminate Hpart|injection Hpart as <-; assumption]|]);
      reflexivity.
Qed.

End Parts.

Lemma generated_parts_witness :
  exists this',
    generate3dModel (constructor scenario) 9 = Some this' /\
    objKeys (exportedMeshes this') =
      ["subtitle"; "base"; "border"; "keychainAttachment"; "combined"]%string /\
    (In "border"%string (objKeys (exportedMeshes this')) <->
     hasBorder (base scenario) = true).
Proof.
  destruct (generate3dModel (constructor scenario) 9) as [this'|] eqn:E;
    [|vm_compute in E; discriminate E].
  exists this'. split; [reflexivity|].
  destruct (generated_parts scenario 9 this' E) as (K & _ & B & _).
  split; [exact K|exact B].
Defined.

(* ================================================================== *)
(** * Offsets *)

Section Offsets.

Context {T : Three}.
Variable this : BaseTag3D.

Lemma placementIs_eq (s : string) :
  placementIs this s = true <-> textPlacement (opt this) = s.
Proof. apply String.eqb_eq. Qed.

Lemma placementIs_neq (s : string) :
  placementIs this s = false <-> textPlacement (opt this) <> s.
Proof. apply String.eqb_neq. Qed.

(** C9. [getTextTopOffset] is twice [getTextBaseOffset] less the constant
    0.1 under the placement top and 0 under any other; [getTextLeftOffset]
    is twice [getTextBaseOffset] under the placement left and 0 under any
    other, right, bottom and center among them. *)
Theorem text_offsets :
  (textPlacement (opt this) = "top"%string ->
   getTextTopOffset this = 2 * getTextBaseOffset this - (1 # 10)) /\
  (textPlacement (opt this) <> "top"%string -> getTextTopOffset this = 0) /\
  (textPlacement (opt this) = "left"%string ->
   getTextLeftOffset this = 2 * getTextBaseOffset this) /\
  (textPlacement (opt this) <> "left"%string -> getTextLeftOffset this = 0).
Proof.
  unfold getTextTopOffset, getTextLeftOffset.
  repeat split; intros H.
  - apply placementIs_eq in H. now rewrite H.
  - apply placementIs_neq in H. now rewrite H.
  - apply placementIs_eq in H. now rewrite H.
  - apply placementIs_neq in H. rewrite H. now destruct (placementIs this "right").
Qed.


End Offsets.

Lemma text_offsets_witness :
  let top := constructor (scenarioWith "top" (JS.str "**Hello World**")) in
  let right := constructor (scenarioWith "right" (JS.str "**Hello World**")) in
  getTextBaseOffset top == 10 /\
  getTextTopOffset top = 2 * getTextBaseOffset top - (1 # 10) /\
  getTextLeftOffset top = 0 /\
  getTextTopOffset right = 0 /\
  getTextLeftOffset right = 0.
Proof.
  intros top right.
  destruct (text_offsets top) as (A & _ & _ & B).
  destruct (text_offsets right) as (_ & C & _ & D).
  split; [vm_compute; reflexivity|].
  split; [apply A; reflexivity|].
  split; [apply B; vm_compute; discriminate|].
  split; [apply C; vm_compute; discriminate|apply D; vm_compute; discriminate].
Defined.


(* ================================================================== *)
(** * The plate and the NFC indentation *)

Section Plate.

Context {T : Three}.
Variable this : BaseTag3D.

Lemma topBottom_cases :
  isOffsetTopBottom this = false ->
  placementIs this "top" = false /\ placementIs this "bottom" = false /\
  placementIs this "center" = false.
Proof.
  unfold isOffsetTopBottom.
  destruct (placementIs this "top"), (placementIs this "bottom"),
    (placementIs this "center"); cbn; intros H; try discriminate H; auto.
Qed.

(** Under top, bottom and center the plate is moved along x only. *)
Lemma basePlate_position_topBottom :
  isOffsetTopBottom this = true ->
  vy (position (basePlateMesh this)) = 0 /\
  vz (position (basePlateMesh this)) = 0.
Proof.
  intros H. unfold basePlateMesh.
  destruct (JS.gt (getTextBaseOffset this) 0); [|now cbn].
  destruct (placementIs this "bottom") eqn:B; [now cbn|].
  destruct (placementIs this "top") eqn:P; [now cbn|].
  destruct (placementIs this "center") eqn:C; [now cbn|].
  unfold isOffsetTopBottom in H. rewrite B, P, C in H. discriminate H.
Qed.

(** Under the other placements it is not moved along x. *)
Lemma basePlate_position_other :
  isOffsetTopBottom this = false ->
  vx (position (basePlateMesh this)) = 0 /\
  vz (position (basePlateMesh this)) = 0.
Proof.
  intros H. destruct (topBottom_cases H) as (P & B & C).
  unfold basePlateMesh. rewrite B, P, C.
  destruct (JS.gt (getTextBaseOffset this) 0); [|now cbn].
  destruct (placementIs this "left"); [now cbn|].
  destruct (placementIs this "right"); now cbn.
Qed.

(** The content region is the plate of a tag without text. *)
Lemma plate_without_text :
  hasText (opt this) = false ->
  position (basePlateMesh this) = zero3 /\
  (isOffsetTopBottom this = true ->
   exists s, basePlateShape this = Some s /\
     shape_x s == shape_x (contentShape (opt this)) /\
     shape_y s == shape_y (contentShape (opt this)) /\
     shape_width s == shape_width (contentShape (opt this)) /\
     shape_height s == shape_height (contentShape (opt this))).
Proof.
  intros Ht.
  assert (H0 : getTextBaseOffset this = 0)
    by (unfold getTextBaseOffset; now rewrite Ht).
  split.
  - unfold basePlateMesh. now rewrite H0.
  - intros Hb. unfold basePlateShape. rewrite Hb, H0.
    eexists. split; [reflexivity|]. cbn. repeat split; try reflexivity; [field|ring].
Qed.

(** A text under the code makes the plate longer on one side of the
    content region: along x the plate runs from [- height / 2] to
    [height / 2 + textBaseOffset]. *)
Lemma plate_bottom_extent (s : Shape) :
  textPlacement (opt this) = "bottom"%string ->
  0 <= getTextBaseOffset this ->
  basePlateShape this = Some s ->
  let x0 := vx (position (basePlateMesh this)) + shape_x s in
  x0 == - height (opt this) / 2 /\
  x0 + shape_width s == height (opt this) / 2 + getTextBaseOffset this.
Proof.
  intros Hp H0 Hs.
  assert (Hb : placementIs this "bottom" = true) by now apply placementIs_eq.
  assert (Htb : isOffsetTopBottom this = true).
  { unfold isOffsetTopBottom. rewrite Hb. now destruct (placementIs this "top"). }
  unfold basePlateShape in Hs. rewrite Htb in Hs. injection Hs as <-.
  unfold basePlateMesh. rewrite Hb.
  cbn [getRoundedRectShape shape_x shape_width].
  destruct (JS.gt (getTextBaseOffset this) 0) eqn:G; cbn.
  - split; field.
  - unfold JS.gt in G. apply negb_false_iff, Qle_bool_iff in G.
    assert (E : getTextBaseOffset this == 0) by (apply Qle_antisym; assumption).
    rewrite E. split; field.
Qed.

(** The centre of the content region is the origin. *)
Lemma contentCenter_origin (b : BaseOptions) :
  fst (contentCenter b) == 0 /\ snd (contentCenter b) == 0.
Proof. unfold contentCenter, footprintCenter, contentShape. cbn. split; field. Qed.

(** C7 (amended). With [hasNfcIndentation], [getBaseMesh] subtracts from
    the plate a solid that is a cylinder of diameter [nfcIndentationSize],
    turned to stand on the plate, for the shape round, and otherwise a box
    of side [nfcIndentationSize]; its depth is [nfcIndentationDepth]; it
    is raised by half its depth, and by 1 more when [nfcIndentationHidden]
    is set; in the plane it is placed at the x of the plate and at y = 0.
    Under the placements top, bottom and center that is the centre of the
    plate as shifted for the text; under the other placements it is the
    centre of the content region. *)
Theorem nfc_indentation :
  hasNfcIndentation (opt this) = true ->
  let b := opt this in
  let plate := basePlateMesh this in
  let hole := nfcHoleMesh this plate in
  getBaseMesh this = updateMatrix (subtractMesh plate hole) /\
  geometry hole =
    (if String.eqb (nfcIndentationShape b) "round"
     then CylinderGeometry (nfcIndentationSize b / 2) (nfcIndentationSize b / 2)
                           (nfcIndentationDepth b) 32
     else BoxGeometry (nfcIndentationSize b) (nfcIndentationSize b)
                      (nfcIndentationDepth b)) /\
  rotation hole =
    (if String.eqb (nfcIndentationShape b) "round"
     then mkEuler (- (1 # 2)) 0 0 else noRotation) /\
  position hole =
    mkVector3 (vx (position plate)) 0
      (if nfcIndentationHidden b
       then nfcIndentationDepth b / 2 + 1 else nfcIndentationDepth b / 2) /\
  matrix hole = compose (position hole) (rotation hole) one3 /\
  (isOffsetTopBottom this = true ->
   forall s, basePlateShape this = Some s ->
     vx (position hole) == fst (footprintCenter s (position plate)) /\
     vy (position hole) == snd (footprintCenter s (position plate))) /\
  (isOffsetTopBottom this = false ->
   vx (position hole) == fst (contentCenter b) /\
   vy (position hole) == snd (contentCenter b)).
Proof.
  intros Hn b plate hole.
  assert (Hpos : position hole =
                 mkVector3 (vx (position plate)) 0
                   (if nfcIndentationHidden b
                    then nfcIndentationDepth b / 2 + 1
                    else nfcIndentationDepth b / 2)).
  { subst hole. unfold nfcHoleMesh. fold b.
    destruct (String.eqb (nfcIndentationShape b) "round"),
      (nfcIndentationHidden b); reflexivity. }
  split; [unfold getBaseMesh; now rewrite Hn|].
  split.
  { subst hole. unfold nfcHoleMesh. fold b.
    destruct (String.eqb (nfcIndentationShape b) "round"),
      (nfcIndentationHidden b); reflexivity. }
  split.
  { subst hole. unfold nfcHoleMesh. fold b.
    destruct (String.eqb (nfcIndentationShape b) "round"),
      (nfcIndentationHidden b); reflexivity. }
  split; [exact Hpos|].
  split.
  { subst hole. unfold nfcHoleMesh. fold b.
    destruct (String.eqb (nfcIndentationShape b) "round"),
      (nfcIndentationHidden b); reflexivity. }
  rewrite Hpos. cbn [vx vy]. split.
  - intros Htb s Hs. destruct (basePlate_position_topBottom Htb) as [Hy _].
    unfold basePlateShape in Hs. rewrite Htb in Hs. injection Hs as <-.
    unfold footprintCenter. fold plate in Hy. rewrite Hy.
    cbn [getRoundedRectShape shape_x shape_y shape_width shape_height fst snd].
    split; field.
  - intros Htb. destruct (basePlate_position_other Htb) as [Hx _].
    fold plate in Hx. rewrite Hx.
    destruct (contentCenter_origin b) as [Cx Cy]. rewrite Cx, Cy.
    split; reflexivity.
Qed.

(** C8 (amended). The keychain tab is the profile of width
    [keychainHoleDiameter + 3] and length [2 * keychainHoleDiameter + 3]
    around the origin, two of its corners square and two rounded with half
    its width as radius, extruded to [base.depth].  The hole subtracted
    from it is a cylinder of radius [keychainHoleDiameter / 2] and height
    [base.depth], turned to run through the tab, in the middle of its
    width and of its depth; along the tab it lies
    [keychainHoleDiameter / 2] off the middle, half the width of the tab
    from one end.  [getKeychainAttachmentMesh] returns this solid placed
    against the plate, or the union of two of them with [mirrorHoles]. *)
Theorem keychain_tab (plate : Mesh Geometry) :
  let d := keychainHoleDiameter (opt this) in
  let tab := attachmentShapeMesh this in
  let hole := keychainHoleMesh this in
  let profile := attachmentShape this in
  geometry tab = ExtrudeGeometry (Some profile) (depth (opt this)) /\
  (shape_width profile == d + 3 /\ shape_height profile == 2 * d + 3 /\
   r_tl profile = 0 /\ r_tr profile = 0 /\
   r_br profile == (d + 3) / 2 /\ r_bl profile == (d + 3) / 2) /\
  (fst (footprintCenter profile (position tab)) == 0 /\
   snd (footprintCenter profile (position tab)) == 0 /\
   vz (position tab) = 0) /\
  geometry hole = CylinderGeometry (d / 2) (d / 2) (depth (opt this)) 32 /\
  rotation hole = mkEuler (- (1 # 2)) 0 0 /\
  matrix hole = compose (position hole) (rotation hole) one3 /\
  (vx (position hole) == fst (footprintCenter profile (position tab)) /\
   vz (position hole) == vz (position tab) + depth (opt this) / 2 /\
   vy (position hole) == snd (footprintCenter profile (position tab)) - d / 2 /\
   vy (position hole) - shape_y profile == shape_width profile / 2) /\
  (mirrorHoles (opt this) = false ->
   geometry (getKeychainAttachmentMesh this plate) =
   geometry (subtractMesh tab hole)) /\
  (mirrorHoles (opt this) = true ->
   exists m1 m2,
     getKeychainAttachmentMesh this plate = unionMesh m1 m2 /\
     geometry m1 = geometry (subtractMesh tab hole) /\
     geometry m2 = geometry (subtractMesh tab hole)).
Proof.
  intros d tab hole profile.
  split; [reflexivity|].
  split.
  { subst profile. unfold attachmentShape, keychainWidth, keychainHeight,
      keychainCornerPlacementOffset, keychainHoleRadius. fold d. cbn.
    repeat split; try reflexivity; field. }
  split.
  { subst profile tab. unfold footprintCenter, attachmentShape. cbn.
    repeat split; try reflexivity; field. }
  split; [reflexivity|]. split; [reflexivity|]. split; [reflexivity|].
  split.
  { subst profile tab hole.
    unfold footprintCenter, attachmentShape, keychainHoleMesh, keychainWidth,
      keychainHeight, keychainCornerPlacementOffset, keychainHoleRadius.
    fold d. cbn. repeat split; field. }
  split.
  - intros Hm. unfold getKeychainAttachmentMesh. rewrite Hm.
    fold tab hole.
    destruct (keychainIs this "left"); [reflexivity|].
    destruct (keychainIs this "top"); [reflexivity|].
    destruct (keychainIs this "topLeft"); reflexivity.
  - intros Hm. unfold getKeychainAttachmentMesh. rewrite Hm.
    fold tab hole.
    eexists. eexists. split; [reflexivity|]. split.
    + destruct (keychainIs this "left"); [reflexivity|].
      destruct (keychainIs this "top"); [reflexivity|].
      destruct (keychainIs this "topLeft"); reflexivity.
    + destruct (keychainIs this "left"); [reflexivity|].
      destruct (keychainIs this "top"); [reflexivity|].
      destruct (keychainIs this "topLeft"); reflexivity.
Qed.

End Plate.

Lemma nfc_indentation_witness :
  let this := constructor scenario in
  let hole := nfcHoleMesh this (basePlateMesh this) in
  hasNfcIndentation (opt this) = true /\
  geometry hole = CylinderGeometry ((25 # 1) / 2) ((25 # 1) / 2) 1 32 /\
  position hole = mkVector3 (vx (position (basePlateMesh this))) 0 (1 / 2).
Proof.
  intros this hole.
  destruct (nfc_indentation this eq_refl) as (_ & G & _ & P & _).
  split; [reflexivity|]. split; [exact G|exact P].
Defined.

(** C7, as stated, fails on the tag of the scenario, whose text under the
    code reserves 10: the plate is shifted by 5 along x and the
    indentation is put at x = 5, the centre of the shifted plate, while
    the centre of the content region is at x = 0. *)
Lemma nfc_indentation_off_content_center :
  let this := constructor scenario in
  let plate := basePlateMesh this in
  let hole := nfcHoleMesh this plate in
  hasNfcIndentation (opt this) = true /\
  getTextBaseOffset this == 10 /\
  vx (position hole) == 5 /\
  fst (contentCenter (opt this)) == 0 /\
  ~ vx (position hole) == fst (contentCenter (opt this)) /\
  forall s, basePlateShape this = Some s ->
            vx (position hole) == fst (footprintCenter s (position plate)).
Proof.
  intros this plate hole.
  split; [reflexivity|]. split; [vm_compute; reflexivity|].
  split; [vm_compute; reflexivity|]. split; [vm_compute; reflexivity|].
  split; [vm_compute; discriminate|].
  intros s Hs. vm_compute in Hs. injection Hs as <-. vm_compute. reflexivity.
Qed.

Lemma keychain_tab_witness :
  let this := constructor scenario in
  mirrorHoles (opt this) = false /\
  shape_width (attachmentShape this) == 7 /\
  shape_height (attachmentShape this) == 11 /\
  geometry (getKeychainAttachmentMesh this (basePlateMesh this)) =
  geometry (subtractMesh (attachmentShapeMesh this) (keychainHoleMesh this)).
Proof.
  intros this.
  destruct (keychain_tab this (basePlateMesh this))
    as (_ & (W & H & _) & _ & _ & _ & _ & _ & G & _).
  split; [reflexivity|].
  split; [rewrite W; vm_compute; reflexivity|].
  split; [rewrite H; vm_compute; reflexivity|].
  apply G. reflexivity.
Defined.

(** C8, as stated, fails on the tag of the scenario, whose hole has
    diameter 4: the tab is 7 by 11 around the origin and the hole lies at
    y = -2, not at the middle of the tab. *)
Lemma keychain_hole_off_center :
  let this := constructor scenario in
  let tab := attachmentShapeMesh this in
  let hole := keychainHoleMesh this in
  snd (footprintCenter (attachmentShape this) (position tab)) == 0 /\
  vy (position hole) == - (2 # 1) /\
  ~ vy (position hole) == snd (footprintCenter (attachmentShape this) (position tab)).
Proof.
  intros this tab hole.
  split; [vm_compute; reflexivity|]. split; [vm_compute; reflexivity|].
  vm_compute. discriminate.
Qed.

(* ================================================================== *)
(** * The label is completed *)

Section Completion.

Context {T : Three}.
Variable this : BaseTag3D.

Lemma skipn_nth (a : list JS.value) (i : nat) :
  (i < List.length a)%nat -> skipn i a = JS.get a i :: skipn (S i) a.
Proof.
  revert i. induction a as [|v a IH]; intros i H; cbn in H; [lia|].
  destruct i as [|i]; [reflexivity|].
  cbn [skipn]. rewrite IH by lia. reflexivity.
Qed.

Lemma skipn_splice (a : list JS.value) (i : nat) (v : JS.value) :
  (i <= List.length a)%nat -> skipn i (JS.splice a i v) = v :: skipn i a.
Proof.
  intros H. unfold JS.splice.
  rewrite skipn_app, List.length_firstn, skipn_all2
    by (rewrite List.length_firstn; lia).
  replace (i - Nat.min i (List.length a))%nat with 0%nat by lia.
  reflexivity.
Qed.

Lemma pending_step (a : list JS.value) (i : nat) :
  (i < List.length a)%nat ->
  pending a i = (weight (JS.get a i) + pending a (S i))%nat.
Proof. intros H. unfold pending. now rewrite (skipn_nth a i H). Qed.

Lemma pending_splice (a : list JS.value) (i : nat) (v : JS.value) :
  (i <= List.length a)%nat ->
  pending (JS.splice a i v) i = (weight v + pending a i)%nat.
Proof. intros H. unfold pending. now rewrite skipn_splice. Qed.

Lemma wrapped_length (e : nat) (s : JS.jsstring) :
  List.length (wrapped e s) = (2 * e + List.length s)%nat.
Proof.
  unfold wrapped, JS.repeat. rewrite !List.length_app, !repeat_length. lia.
Qed.

Lemma get_in_range (P : JS.value -> Prop) (a : list JS.value) (i : nat) :
  Forall P a -> (i < List.length a)%nat -> P (JS.get a i).
Proof.
  intros H Hi. rewrite Forall_forall in H. apply H. now apply nth_In.
Qed.

Lemma splice_Forall (P : JS.value -> Prop) (a : list JS.value) (i : nat)
  (v : JS.value) :
  Forall P a -> P v -> Forall P (JS.splice a i v).
Proof.
  intros H Hv. unfold JS.splice. rewrite Forall_forall in H.
  apply Forall_forall. intros x Hx. apply in_app_or in Hx as [Hx|[<-|Hx]].
  - apply H. rewrite <- (firstn_skipn i a). apply in_or_app. now left.
  - exact Hv.
  - apply H. rewrite <- (firstn_skipn i a). apply in_or_app. now right.
Qed.

(** The stripped text is no longer than the line. *)
Lemma stripEmphasis_length (line : JS.jsstring) :
  (List.length (fst (stripEmphasis line)) <= List.length line)%nat.
Proof.
  pose proof (stripEmphasis_shape line) as H.
  destruct (stripEmphasis line) as [text e]. cbn [fst].
  destruct H as [->|(-> & _)].
  - rewrite wrapped_length. lia.
  - cbn. lia.
Qed.

(** One line: the body of the loop completes, with one result for every
    bound from [bound] on, and leaves less to render. *)
Lemma lineStep_progress (bound i : nat) (textLines : list JS.value) :
  placementKnown this -> charactersFit this ->
  Forall isString textLines ->
  Forall (fun v => (weight v <= bound)%nat) textLines ->
  (i < List.length textLines)%nat ->
  exists l,
    (forall fuel, (bound <= fuel)%nat ->
       lineStep this fuel i textLines (List.length textLines) = Some l) /\
    Forall isString (l_textLines l) /\
    Forall (fun v => (weight v <= bound)%nat) (l_textLines l) /\
    l_numLines l = List.length (l_textLines l) /\
    (pending (l_textLines l) (S i) < pending textLines i)%nat.
Proof.
  intros Hknown Hfit Hstr Hbound Hi.
  pose proof (get_in_range _ textLines i Hstr Hi) as Hs.
  pose proof (get_in_range _ textLines i Hbound Hi) as Hw.
  unfold lineStep.
  destruct (JS.get textLines i) as [| |line] eqn:Hg; try contradiction.
  unfold weight in Hw. cbn [JS.toString] in Hw.
  pose proof (stripEmphasis_level line) as Hlevel.
  pose proof (stripEmphasis_length line) as Hlen.
  pose proof (stripEmphasis_shape line) as Hshape.
  destruct (stripEmphasis line) as [text e]. cbn [fst snd] in *.
  destruct (isOffsetTopBottom this) eqn:Htb.
  - destruct (Hfit Htb e Hlevel) as [Hempty Hchar].
    destruct (wrapLoop_runs this i e text Hempty
                textLines (List.length textLines) false)
      as (w & sp & Et & Hsp & _ & Hsnip & Hrun).
    assert (Hw' : wrapLoop this (S (List.length sp)) i e text textLines
                    (List.length textLines) false = Some w).
    { rewrite Hrun. destruct (Nat.ltb_spec (List.length sp) (S (List.length sp)));
        [reflexivity|lia]. }
    destruct (wrapLoop_spec this i e _ text textLines _ w ltac:(lia) Hw')
      as (sp' & Et' & _ & _ & _ & Hcase).
    assert (sp' = sp) by (rewrite Et in Et' at 1; now apply app_inv_head in Et').
    subst sp'.
    eexists. split; [|].
    { intros fuel Hf. unfold lineTopBottomCenter. rewrite Hrun.
      destruct (Nat.ltb_spec (List.length sp) fuel); [reflexivity|lia]. }
    cbn [l_textLines l_numLines].
    destruct sp as [|a sp].
    + destruct Hcase as (-> & -> & ->).
      split; [exact Hstr|]. split; [exact Hbound|]. split; [reflexivity|].
      rewrite (pending_step textLines i Hi), Hg. unfold weight. lia.
    + destruct Hcase as (-> & -> & ->).
      rewrite JSFacts.get_splice by lia. cbn [JS.add JS.toString].
      rewrite JSFacts.set_splice by lia. rewrite <- app_assoc. fold (wrapped e (a :: sp)).
      assert (Hkept : w_text w <> []).
      { intros Ek. rewrite Ek in Et. cbn [app] in Et. subst text.
        destruct (Hsnip (List.length sp)) as [Ho _]; [cbn [List.length]; lia|].
        replace (List.length (a :: sp) - List.length sp)%nat with 1%nat in Ho
          by (cbn [List.length]; lia).
        cbn [firstn] in Ho. rewrite Hchar in Ho. discriminate Ho. }
      assert (Hshort : (List.length (a :: sp) < List.length text)%nat).
      { rewrite Et, List.length_app. destruct (w_text w); [contradiction|cbn [List.length]; lia]. }
      assert (Hline : line = wrapped e text).
      { destruct Hshape as [E|(E & _)]; [exact E|].
        rewrite E in Hshort. cbn in Hshort. lia. }
      assert (Hnew : (weight (JS.Str (wrapped e (a :: sp))) < weight (JS.Str line))%nat).
      { unfold weight. cbn [JS.toString]. rewrite Hline, !wrapped_length. lia. }
      split; [apply splice_Forall; [exact Hstr|exact I]|].
      split; [apply splice_Forall; [exact Hbound|unfold weight in *; cbn [JS.toString] in *; lia]|].
      split; [rewrite JSFacts.splice_length; lia|].
      replace (S i) with (i + 1)%nat by lia.
      rewrite pending_splice by lia.
      rewrite (pending_step textLines i Hi), Hg.
      replace (i + 1)%nat with (S i) by lia. lia.
  - destruct Hknown as [Hk|Hk]; [congruence|]. rewrite Hk.
    eexists. split; [reflexivity|]. unfold lineLeftRight. cbn [l_textLines l_numLines].
    split; [exact Hstr|]. split; [exact Hbound|]. split; [reflexivity|].
    rewrite (pending_step textLines i Hi). unfold weight. lia.
Qed.

(** The body of the loop leaves strings where it found strings. *)
Lemma lineStep_strings (fuel i : nat) (textLines : list JS.value) (numLines : nat)
  (l : Line) :
  Forall isString textLines ->
  (i < List.length textLines)%nat ->
  lineStep this fuel i textLines numLines = Some l ->
  Forall isString (l_textLines l).
Proof.
  intros Hstr Hi H. unfold lineStep in H.
  destruct (JS.get textLines i) as [| |line]; try discriminate.
  destruct (stripEmphasis line) as [text e].
  destruct (isOffsetTopBottom this).
  - destruct (lineTopBottomCenter_spec this fuel i text e textLines numLines l)
      as (sp & _ & _ & _ & Hsp); [lia|exact H|].
    destruct sp as [|a sp]; destruct Hsp as [-> _]; [exact Hstr|].
    apply splice_Forall; [exact Hstr|exact I].
  - destruct (isOffsetLeftRight this); [|discriminate].
    injection H as <-. exact Hstr.
Qed.

(** The loop over the lines completes, with one result for all bounds
    that are large enough. *)
Lemma linesLoop_returns (bound : nat) :
  placementKnown this -> charactersFit this ->
  forall k i s,
    Forall isString (s_textLines s) ->
    Forall (fun v => (weight v <= bound)%nat) (s_textLines s) ->
    s_numLines s = List.length (s_textLines s) ->
    (pending (s_textLines s) i < k)%nat ->
    exists s',
      forall fuel steps, (bound <= fuel)%nat -> (k <= steps)%nat ->
        linesLoop this fuel steps i s = Some s'.
Proof.
  intros Hknown Hfit. induction k as [|k IH]; intros i s Hstr Hbound Hn Hp; [lia|].
  destruct (Nat.ltb_spec i (s_numLines s)) as [Hi|Hi].
  - rewrite Hn in Hi.
    destruct (lineStep_progress bound i (s_textLines s) Hknown Hfit Hstr Hbound Hi)
      as (l & Hl & Hstr' & Hbound' & Hn' & Hless).
    destruct (IH (i + 1)%nat
                 (mkLines (l_textLines l) (l_numLines l)
                          (mergeLine (s_textGeometry s) (l_mesh l))
                          (s_rendered s ++ [l])))
      as (s' & Hs'); cbn [s_textLines s_numLines]; try assumption.
    { replace (i + 1)%nat with (S i) by lia. lia. }
    exists s'. intros fuel [|steps] Hf Hk; [lia|].
    cbn [linesLoop]. rewrite Hn.
    destruct (Nat.ltb_spec i (List.length (s_textLines s))); [|lia].
    rewrite <- Hn at 1. rewrite Hn, (Hl fuel Hf).
    apply Hs'; [exact Hf|lia].
  - exists s. intros fuel [|steps] Hf Hk; [lia|].
    cbn [linesLoop]. destruct (Nat.ltb_spec i (s_numLines s)); [lia|reflexivity].
Qed.

Lemma weight_le_pending (a : list JS.value) :
  Forall (fun v => (weight v <= pending a 0)%nat) a.
Proof.
  unfold pending. cbn [skipn].
  induction a as [|v a IH]; [constructor|].
  constructor.
  - unfold list_sum. cbn [map fold_right]. lia.
  - eapply Forall_impl; [|exact IH]. cbn beta.
    intros x Hx. unfold list_sum in *. cbn [map fold_right]. lia.
Qed.

(** [getSubtitleMesh] returns, and returns the same for every bound that
    is enough, when the placement is one of the five and, if lines are
    wrapped, the empty text and every single character fit. *)
Theorem getSubtitleMesh_returns :
  placementKnown this -> charactersFit this ->
  exists r, forall fuel, enough this fuel -> getSubtitleMesh this fuel = Some r.
Proof.
  intros Hknown Hfit.
  set (lines := map JS.Str (messageLines this)).
  destruct (linesLoop_returns (pending lines 0) Hknown Hfit
              (S (pending lines 0)) 0 (initialLines this))
    as (s & Hs); cbn [initialLines s_textLines s_numLines]; fold lines.
  - apply Forall_forall. intros v Hv. apply in_map_iff in Hv as (x & <- & _). exact I.
  - apply weight_le_pending.
  - reflexivity.
  - lia.
  - eexists. intros fuel Hf. unfold enough in Hf. fold lines in Hf.
    unfold getSubtitleMesh. rewrite (Hs fuel fuel); [reflexivity|lia|lia].
Qed.

End Completion.

(** X1. [generate3dModel] completes on a new object, with one result for
    every bound that is enough, when the tag has no text, or its placement
    is one of the five and, where lines are wrapped, the empty text and
    every single character fit. *)
Theorem generate3dModel_completes {T : Three} (o : Options) :
  hasText (base o) = false \/
  (placementKnown (constructor o) /\ charactersFit (constructor o)) ->
  exists this',
    forall fuel, enough (constructor o) fuel ->
                 generate3dModel (constructor o) fuel = Some this'.
Proof.
  intros H.
  assert (Hparts : forall this1 : BaseTag3D,
             exists m, getCombinedMesh (generateParts this1) = Some m).
  { intros this1. unfold getCombinedMesh, generateParts.
    destruct (hasBorder _); destruct (hasKeychainAttachment _);
      eexists; reflexivity. }
  unfold generate3dModel, generateSubtitle.
  change (hasText (opt (constructor o))) with (hasText (base o)).
  destruct (hasText (base o)) eqn:Ht.
  - destruct H as [H|[Hk Hf]]; [discriminate H|].
    destruct (getSubtitleMesh_returns (constructor o) Hk Hf) as ([[this1 m] r] & Hr).
    destruct (Hparts (if negb (invert (code (options (setSubtitleMesh this1 m))))
                      then export (setSubtitleMesh this1 m) "subtitle" m
                      else setSubtitleMesh this1 m)) as (c & Hc).
    eexists. intros fuel Hfuel. rewrite (Hr fuel Hfuel), Hc. reflexivity.
  - destruct (Hparts (constructor o)) as (c & Hc).
    eexists. intros fuel _. rewrite Hc. reflexivity.
Qed.

(* ================================================================== *)
(** * Sample runs *)

Example trim_sample :
  JS.trim (JS.str "  a b " ++ [JS.LF]) = JS.str "a b".
Proof. reflexivity. Qed.

Example split_sample :
  JS.split JS.LF (JS.str "ab" ++ JS.LF :: JS.LF :: JS.str "c") =
  [JS.str "ab"; []; JS.str "c"].
Proof. reflexivity. Qed.

Example split_empty : JS.split JS.LF [] = [[]].
Proof. reflexivity. Qed.

(** A line that is one marker: the loop takes it for a pair. *)
Example strip_single_marker : stripEmphasis (JS.str "*") = ([], 1%nat).
Proof. reflexivity. Qed.

Example strip_bold : stripEmphasis (JS.str "**Hello World**") = (JS.str "Hello World", 2%nat).
Proof. reflexivity. Qed.

(** The scenario of the specification: one bold line, nothing spilled, and
    the message is written back as it was. *)
Example scenario_label :
  renderedTexts (getSubtitleMesh (constructor scenario) 20) =
    Some [(JS.str "Hello World", 2%nat)] /\
  messageAfter (getSubtitleMesh (constructor scenario) 20) =
    Some (JS.str "**Hello World**").
Proof. split; vm_compute; reflexivity. Qed.

(** On the narrow tag every character fits, so [getSubtitleMesh] returns
    on every message, from the bound [enough] gives on. *)
Example narrow_completes (message : JS.jsstring) :
  exists r, forall fuel,
      enough (constructor (narrow message)) fuel ->
      getSubtitleMesh (constructor (narrow message)) fuel = Some r.
Proof.
  apply getSubtitleMesh_returns.
  - left. reflexivity.
  - intros _ e He. split; [|intros c];
      (destruct e as [|[|[|[|e]]]]; [reflexivity..|lia]).
Qed.

(* ================================================================== *)
(** * When the loops of the label end *)

Section LoopEnds.

Context {T : Three}.
Variable this : BaseTag3D.

Lemma firstn_snoc_le (t : JS.jsstring) (c : ascii) (k : nat) :
  (k <= List.length t)%nat -> firstn k (t ++ [c]) = firstn k t.
Proof.
  intros H. rewrite firstn_app.
  replace (k - List.length t)%nat with 0%nat by lia.
  now rewrite firstn_O, app_nil_r.
Qed.

(** What the loop leaves with is a prefix of the text that fits, and no
    longer prefix does. *)
Lemma wrapLoop_longest (i e fuel : nat) :
  forall text textLines numLines newLineCreated w,
    wrapLoop this fuel i e text textLines numLines newLineCreated = Some w ->
    exists spilled,
      text = w_text w ++ spilled /\
      overflows this e (w_text w) = false /\
      forall k, (List.length (w_text w) < k <= List.length text)%nat ->
                overflows this e (firstn k text) = true.
Proof.
  induction fuel as [|fuel IH]; intros text textLines numLines nlc w H;
    [discriminate|].
  destruct (overflows this e text) eqn:O.
  - destruct (JSFacts.last_cases text) as [->|(t & c & ->)].
    + now rewrite wrapLoop_empty_stuck in H.
    + rewrite wrapLoop_snip in H by assumption.
      apply IH in H. destruct H as (sp & Et & Hfit & Hlong).
      exists (sp ++ [c]). split; [now rewrite app_assoc, <- Et|].
      split; [exact Hfit|].
      intros k Hk. rewrite List.length_app in Hk. cbn [List.length] in Hk.
      destruct (Nat.eq_dec k (List.length t + 1)) as [->|Hne].
      * replace (List.length t + 1)%nat with (List.length (t ++ [c]))
          by (rewrite List.length_app; reflexivity).
        now rewrite firstn_all.
      * rewrite firstn_snoc_le by lia. apply Hlong. lia.
  - rewrite wrapLoop_exit in H by assumption. injection H as <-.
    exists []. cbn [w_text]. split; [now rewrite app_nil_r|].
    split; [exact O|]. intros k Hk. lia.
Qed.

(** With a prefix that fits, the loop leaves. *)
Lemma wrapLoop_leaves (i e : nat) (text : JS.jsstring) :
  forall textLines numLines newLineCreated k,
    (k <= List.length text)%nat ->
    overflows this e (firstn k text) = false ->
    exists fuel w,
      wrapLoop this fuel i e text textLines numLines newLineCreated = Some w.
Proof.
  induction text as [|c t IH] using rev_ind; intros textLines numLines nlc k Hk Hfit.
  - cbn in Hk. replace k with 0%nat in Hfit by lia. cbn in Hfit.
    exists 1%nat. eexists. now apply wrapLoop_exit.
  - destruct (overflows this e (t ++ [c])) eqn:O.
    + rewrite List.length_app in Hk. cbn [List.length] in Hk.
      assert (Hk' : (k <= List.length t)%nat).
      { destruct (Nat.eq_dec k (List.length t + 1)) as [->|]; [|lia].
        replace (List.length t + 1)%nat with (List.length (t ++ [c])) in Hfit
          by (rewrite List.length_app; reflexivity).
        rewrite firstn_all in Hfit. congruence. }
      rewrite firstn_snoc_le in Hfit by assumption.
      destruct (IH (if nlc
                    then JS.set textLines (i + 1)
                           (JS.add (JS.Str [c]) (JS.get textLines (i + 1)))
                    else JS.splice textLines (i + 1) (JS.Str [c]))
                   (if nlc then numLines else (numLines + 1)%nat) true k Hk' Hfit)
        as (fuel & w & Hw).
      exists (S fuel), w. now rewrite wrapLoop_snip.
    + exists 1%nat. eexists. now apply wrapLoop_exit.
Qed.

(** X2. The wrap loop leaves if and only if some prefix of the text, the empty
    one and the text itself among them, fits the available width; the text
    it then renders is the longest prefix that fits.  If no prefix fits it
    never leaves. *)
Theorem wrapLoop_ends_iff (i e : nat) (text : JS.jsstring)
  (textLines : list JS.value) (numLines : nat) (newLineCreated : bool) :
  ((exists fuel w,
       wrapLoop this fuel i e text textLines numLines newLineCreated = Some w) <->
   (exists k, (k <= List.length text)%nat /\
              overflows this e (firstn k text) = false)) /\
  (forall fuel w,
      wrapLoop this fuel i e text textLines numLines newLineCreated = Some w ->
      exists spilled,
        text = w_text w ++ spilled /\
        overflows this e (w_text w) = false /\
        forall k, (List.length (w_text w) < k <= List.length text)%nat ->
                  overflows this e (firstn k text) = true).
Proof.
  split; [split|].
  - intros (fuel & w & H).
    destruct (wrapLoop_longest i e fuel _ _ _ _ _ H) as (sp & Et & Hfit & _).
    exists (List.length (w_text w)). split.
    + rewrite Et, List.length_app. lia.
    + rewrite Et, firstn_app, Nat.sub_diag, firstn_O, app_nil_r, firstn_all.
      exact Hfit.
  - intros (k & Hk & Hfit). now apply wrapLoop_leaves with (k := k).
  - intros fuel w H. exact (wrapLoop_longest i e fuel _ _ _ _ _ H).
Qed.

Lemma get_splice_after (a : list JS.value) (i j : nat) (v : JS.value) :
  (i <= j)%nat -> (i <= List.length a)%nat ->
  JS.get (JS.splice a i v) (S j) = JS.get a j.
Proof.
  intros Hij Hi. unfold JS.splice, JS.get.
  rewrite app_nth2; rewrite List.length_firstn; [|lia].
  replace (Nat.min i (List.length a)) with i by lia.
  replace (S j - i)%nat with (S (j - i)) by lia. cbn [nth].
  rewrite nth_skipn. f_equal. lia.
Qed.

(** A line that is too wide comes back: the body of the loop, if it
    completes, renders nothing of it and inserts the same line after it. *)
Lemma lineStep_too_wide (fuel i : nat) (textLines : list JS.value)
  (numLines : nat) (line : JS.jsstring) (l : Line) :
  isOffsetTopBottom this = true ->
  tooWide this line ->
  (i < List.length textLines)%nat ->
  JS.get textLines i = JS.Str line ->
  lineStep this fuel i textLines numLines = Some l ->
  l_text l = [] /\
  l_textLines l = JS.splice textLines (i + 1) (JS.Str line) /\
  l_numLines l = (numLines + 1)%nat.
Proof.
  intros Htb [Hne Hwide] Hi Hg H. unfold lineStep in H. rewrite Hg, Htb in H.
  pose proof (stripEmphasis_shape line) as Hshape.
  destruct (stripEmphasis line) as [text e]. cbn [fst snd] in *.
  destruct (lineTopBottomCenter_spec this fuel i text e textLines numLines l)
    as (sp & Et & _ & Hfit & Hsp); [lia|exact H|].
  assert (Hkept : l_text l = []).
  { destruct (l_text l) as [|c t] eqn:E; [reflexivity|].
    specialize (Hwide (List.length (c :: t))).
    rewrite Et, firstn_app, Nat.sub_diag, firstn_O, app_nil_r, firstn_all in Hwide.
    rewrite Hwide in Hfit; [discriminate|].
    rewrite List.length_app. cbn [List.length]. lia. }
  rewrite Hkept in Et. cbn [app] in Et. subst sp.
  assert (Hline : line = wrapped e text)
    by (destruct Hshape as [E|(E & _)]; [exact E|contradiction]).
  split; [exact Hkept|].
  destruct text as [|c t]; [contradiction|].
  destruct Hsp as [-> ->]. now rewrite <- Hline.
Qed.

(** Once the loop is at a line that is too wide, it does not end. *)
Lemma linesLoop_stuck (fuel : nat) (line : JS.jsstring) :
  isOffsetTopBottom this = true ->
  tooWide this line ->
  forall steps i s,
    (i < s_numLines s)%nat -> (i < List.length (s_textLines s))%nat ->
    JS.get (s_textLines s) i = JS.Str line ->
    linesLoop this fuel steps i s = None.
Proof.
  intros Htb Hwide. induction steps as [|steps IH]; intros i s Hn Hi Hg;
    [reflexivity|].
  cbn [linesLoop]. destruct (Nat.ltb_spec i (s_numLines s)); [|lia].
  destruct (lineStep this fuel i (s_textLines s) (s_numLines s)) as [l|] eqn:L;
    [|reflexivity].
  destruct (lineStep_too_wide fuel i _ _ line l Htb Hwide Hi Hg L) as (_ & El & En).
  apply IH; cbn [s_numLines s_textLines].
  - lia.
  - rewrite El, JSFacts.splice_length. lia.
  - rewrite El. apply JSFacts.get_splice. lia.
Qed.

(** So it is when such a line is still ahead. *)
Lemma linesLoop_stuck_ahead (fuel : nat) (line : JS.jsstring) :
  isOffsetTopBottom this = true ->
  tooWide this line ->
  forall steps i j s,
    (i <= j)%nat -> (j < s_numLines s)%nat ->
    (j < List.length (s_textLines s))%nat ->
    JS.get (s_textLines s) j = JS.Str line ->
    linesLoop this fuel steps i s = None.
Proof.
  intros Htb Hwide. induction steps as [|steps IH]; intros i j s Hij Hn Hj Hg;
    [reflexivity|].
  destruct (Nat.eq_dec i j) as [->|Hne];
    [now apply (linesLoop_stuck fuel line Htb Hwide)|].
  cbn [linesLoop]. destruct (Nat.ltb_spec i (s_numLines s)); [|lia].
  destruct (lineStep this fuel i (s_textLines s) (s_numLines s)) as [l|] eqn:L;
    [|reflexivity].
  unfold lineStep in L.
  destruct (JS.get (s_textLines s) i) as [| |line0]; try discriminate.
  destruct (stripEmphasis line0) as [text e]. rewrite Htb in L.
  destruct (lineTopBottomCenter_spec this fuel i text e (s_textLines s)
              (s_numLines s) l)
    as (sp & _ & _ & _ & Hsp); [lia|exact L|].
  destruct sp as [|a sp]; destruct Hsp as [El En].
  - apply (IH (i + 1)%nat j); cbn [s_numLines s_textLines];
      rewrite ?El, ?En; try assumption; lia.
  - apply (IH (i + 1)%nat (S j)); cbn [s_numLines s_textLines];
      rewrite ?El, ?En, ?JSFacts.splice_length; try lia.
    rewrite get_splice_after by lia. exact Hg.
Qed.

(** X3. Under the placements top, bottom and center, a message with a line of
    which not even the first character fits is never laid out: the line
    is rendered empty and inserted again after itself, without end. *)
Theorem too_wide_never_ends (line : JS.jsstring) :
  isOffsetTopBottom this = true ->
  In line (messageLines this) ->
  tooWide this line ->
  forall fuel,
    getSubtitleMesh this fuel = None /\
    (hasText (opt this) = true -> generate3dModel this fuel = None).
Proof.
  intros Htb Hin Hwide fuel.
  assert (G : getSubtitleMesh this fuel = None).
  { destruct (In_nth _ _ [] Hin) as (j & Hj & Ej).
    assert (L : linesLoop this fuel fuel 0 (initialLines this) = None).
    { apply (linesLoop_stuck_ahead fuel line Htb Hwide fuel 0%nat j);
        unfold initialLines; cbn [s_numLines s_textLines];
        rewrite ?List.length_map; try exact Hj; try lia.
      unfold JS.get.
      rewrite (nth_indep _ _ (JS.Str [])) by (rewrite List.length_map; exact Hj).
      rewrite (map_nth JS.Str). f_equal. exact Ej. }
    unfold getSubtitleMesh. now rewrite L. }
  split; [exact G|].
  intros Ht. unfold generate3dModel, generateSubtitle. now rewrite Ht, G.
Qed.

Lemma split_nonempty (sep : ascii) (s : JS.jsstring) :
  exists h t, JS.split sep s = h :: t.
Proof.
  destruct s as [|c r]; cbn; [now eexists; eexists|].
  destruct (Ascii.eqb c sep); [now eexists; eexists|].
  destruct (JS.split sep r); now eexists; eexists.
Qed.

(** Without a branch for the placement the first line throws. *)
Lemma getSubtitleMesh_no_branch (fuel : nat) :
  isOffsetTopBottom this = false ->
  isOffsetLeftRight this = false ->
  getSubtitleMesh this fuel = None.
Proof.
  intros Htb Hlr.
  unfold getSubtitleMesh. destruct fuel as [|fuel]; [reflexivity|].
  cbn [linesLoop initialLines s_numLines s_textLines]. unfold messageLines.
  destruct (split_nonempty JS.LF (JS.trim (textMessage (opt this))))
    as (h & t & ->).
  cbn [map List.length Nat.ltb Nat.leb]. unfold lineStep. cbn [JS.get nth].
  destruct (stripEmphasis h). now rewrite Htb, Hlr.
Qed.

(** X4. With a placement that is none of the five, the label is not made: no
    branch builds the mesh of the first line, and turning it throws. *)
Theorem unknown_placement_throws :
  isOffsetTopBottom this = false ->
  isOffsetLeftRight this = false ->
  forall fuel,
    getSubtitleMesh this fuel = None /\
    (hasText (opt this) = true -> generate3dModel this fuel = None).
Proof.
  intros Htb Hlr fuel.
  pose proof (getSubtitleMesh_no_branch fuel Htb Hlr) as G.
  split; [exact G|].
  intros Ht. unfold generate3dModel, generateSubtitle. now rewrite Ht, G.
Qed.

End LoopEnds.

Lemma wrapLoop_ends_iff_witness :
  let fits := constructor (narrow (JS.str "abcdef")) in
  let never := constructor (tagOfWidth 2 "bottom" (JS.str "ab")) in
  (exists fuel w,
      wrapLoop fits fuel 0 0 (JS.str "abcdef") [JS.Str (JS.str "abcdef")] 1 false
      = Some w) /\
  availableWidth never == - (2 # 1) /\
  ~ (exists fuel w,
        wrapLoop never fuel 0 0 (JS.str "ab") [JS.Str (JS.str "ab")] 1 false
        = Some w).
Proof.
  intros fits never. split; [|split].
  - apply (proj1 (wrapLoop_ends_iff fits 0 0 (JS.str "abcdef")
                    [JS.Str (JS.str "abcdef")] 1 false)).
    exists 4%nat. split; [cbn; lia|reflexivity].
  - reflexivity.
  - intros H.
    apply (proj1 (wrapLoop_ends_iff never 0 0 (JS.str "ab")
                    [JS.Str (JS.str "ab")] 1 false)) in H.
    destruct H as (k & Hk & Hf). cbn in Hk.
    destruct k as [|[|[|k]]]; try lia; discriminate Hf.
Defined.

Lemma too_wide_never_ends_witness :
  let this := constructor (tagOfWidth 6 "bottom" (JS.str "ab")) in
  availableWidth this == 2 /\
  textWidth this 0 [] == 0 /\
  textWidth this 0 (JS.str "a") == 4 /\
  isOffsetTopBottom this = true /\
  In (JS.str "ab") (messageLines this) /\
  getSubtitleMesh this 50 = None /\
  generate3dModel this 50 = None.
Proof.
  intros this.
  assert (Hw : tooWide this (JS.str "ab")).
  { split; [discriminate|]. intros k Hk. cbn in Hk.
    destruct k as [|[|[|k]]]; try lia; reflexivity. }
  assert (Hin : In (JS.str "ab") (messageLines this)) by (left; reflexivity).
  destruct (too_wide_never_ends this (JS.str "ab") eq_refl Hin Hw 50) as [G M].
  split; [reflexivity|]. split; [reflexivity|]. split; [reflexivity|].
  split; [reflexivity|]. split; [exact Hin|]. split; [exact G|].
  apply M. reflexivity.
Defined.

Lemma unknown_placement_throws_witness :
  let this := constructor (tagOfWidth 20 "diagonal" (JS.str "ab")) in
  isOffsetTopBottom this = false /\
  isOffsetLeftRight this = false /\
  getSubtitleMesh this 50 = None /\
  generate3dModel this 50 = None.
Proof.
  intros this.
  destruct (unknown_placement_throws this eq_refl eq_refl 50) as [G M].
  split; [reflexivity|]. split; [reflexivity|]. split; [exact G|].
  apply M. reflexivity.
Defined.

(* ================================================================== *)
(** * The message written back *)

(** Joining what a text was split into gives the text back. *)
Lemma join_split (sep : ascii) (s : JS.jsstring) :
  JS.join sep (map JS.Str (JS.split sep s)) = s.
Proof.
  induction s as [|c r IH]; [reflexivity|].
  cbn [JS.split]. destruct (Ascii.eqb_spec c sep) as [->|Hne].
  - destruct (JS.split sep r) as [|h t] eqn:E.
    + destruct r; cbn in E; [discriminate|].
      destruct (Ascii.eqb a sep); [discriminate|].
      destruct (JS.split sep r); discriminate.
    + cbn [map JS.join JS.joinItem JS.toString app] in *. now rewrite IH.
  - destruct (JS.split sep r) as [|h t] eqn:E.
    + destruct r; cbn in E; [discriminate|].
      destruct (Ascii.eqb a sep); [discriminate|].
      destruct (JS.split sep r); discriminate.
    + destruct t as [|h' t].
      * cbn in IH. cbn. now rewrite IH.
      * cbn [map JS.join JS.joinItem JS.toString] in *.
        rewrite <- IH. reflexivity.
Qed.

Lemma trimStart_fixed (s : JS.jsstring) :
  JS.trimStart (JS.trimStart s) = JS.trimStart s.
Proof.
  induction s as [|c r IH]; [reflexivity|].
  cbn [JS.trimStart]. destruct (JS.isWhiteSpace c) eqn:E; [exact IH|].
  cbn [JS.trimStart]. now rewrite E.
Qed.

(** [trimStart] takes a prefix away. *)
Lemma trimStart_suffix (s : JS.jsstring) :
  exists p, s = p ++ JS.trimStart s.
Proof.
  induction s as [|c r [p IH]]; [now exists []|].
  cbn [JS.trimStart]. destruct (JS.isWhiteSpace c).
  - exists (c :: p). cbn. now rewrite <- IH.
  - now exists [].
Qed.

(** A text [trimStart] leaves as it is stays so when cut at its end. *)
Lemma trimStart_prefix_fixed (x p q : JS.jsstring) :
  JS.trimStart x = x -> x = p ++ q -> JS.trimStart p = p.
Proof.
  intros Hx ->. destruct p as [|c p]; [reflexivity|].
  cbn [app JS.trimStart] in *. destruct (JS.isWhiteSpace c); [|reflexivity].
  exfalso. destruct (trimStart_suffix (p ++ q)) as [p' E].
  rewrite Hx in E. apply (f_equal (@List.length ascii)) in E.
  rewrite !List.length_app in E. cbn [List.length] in E.
  rewrite ?List.length_app in E. lia.
Qed.

Lemma trim_fixed (s : JS.jsstring) : JS.trim (JS.trim s) = JS.trim s.
Proof.
  unfold JS.trim at 1.
  assert (H : JS.trimStart (JS.trim s) = JS.trim s).
  { unfold JS.trim, JS.trimEnd.
    destruct (trimStart_suffix (rev (JS.trimStart s))) as [p E].
    apply (trimStart_prefix_fixed (JS.trimStart s) _ (rev p)).
    - apply trimStart_fixed.
    - rewrite <- (rev_involutive (JS.trimStart s)) at 1.
      rewrite E at 1. now rewrite rev_app_distr. }
  rewrite H. unfold JS.trim, JS.trimEnd.
  now rewrite rev_involutive, trimStart_fixed.
Qed.

Section WriteBack.

Context {T : Three}.
Variable this : BaseTag3D.

(** The body of the loop on a line that fits: the array is left as it is. *)
Lemma lineStep_fitting (fuel i : nat) (textLines : list JS.value)
  (numLines : nat) (line : JS.jsstring) :
  placementKnown this ->
  JS.get textLines i = JS.Str line ->
  (isOffsetTopBottom this = true ->
   overflows this (snd (stripEmphasis line)) (fst (stripEmphasis line)) = false) ->
  exists l,
    lineStep this (S fuel) i textLines numLines = Some l /\
    l_textLines l = textLines /\ l_numLines l = numLines /\
    l_text l = fst (stripEmphasis line) /\
    l_emphLevel l = snd (stripEmphasis line).
Proof.
  intros Hknown Hg Hfit. unfold lineStep. rewrite Hg.
  destruct (stripEmphasis line) as [text e]. cbn [fst snd] in *.
  destruct (isOffsetTopBottom this) eqn:Htb.
  - unfold lineTopBottomCenter. rewrite wrapLoop_exit by now apply Hfit.
    eexists. split; [reflexivity|]. now cbn.
  - destruct Hknown as [Hk|Hk]; [congruence|]. rewrite Hk.
    eexists. split; [reflexivity|]. now cbn.
Qed.

(** The loop over lines that all fit: each is rendered once and the array
    is left as it is. *)
Lemma linesLoop_fitting (fuel : nat) (lines : list JS.jsstring) :
  placementKnown this ->
  (isOffsetTopBottom this = true ->
   Forall (fun line =>
             overflows this (snd (stripEmphasis line)) (fst (stripEmphasis line))
             = false) lines) ->
  forall steps i g r,
    (List.length lines - i < steps)%nat ->
    exists s',
      linesLoop this (S fuel) steps i
        (mkLines (map JS.Str lines) (List.length lines) g r) = Some s' /\
      s_textLines s' = map JS.Str lines /\
      map l_text (s_rendered s') =
        map l_text r ++ map (fun line => fst (stripEmphasis line)) (skipn i lines).
Proof.
  intros Hknown Hfit. induction steps as [|steps IH]; intros i g r Hs; [lia|].
  cbn [linesLoop s_numLines s_textLines].
  destruct (Nat.ltb_spec i (List.length lines)) as [Hi|Hi].
  - assert (Hg : JS.get (map JS.Str lines) i = JS.Str (nth i lines [])).
    { unfold JS.get. rewrite (nth_indep _ _ (JS.Str []))
        by (now rewrite List.length_map).
      apply (map_nth JS.Str). }
    destruct (lineStep_fitting fuel i (map JS.Str lines) (List.length lines)
                (nth i lines []) Hknown Hg) as (l & Hl & El & En & Et & _).
    { intros Htb. specialize (Hfit Htb). rewrite Forall_forall in Hfit.
      apply Hfit. now apply nth_In. }
    rewrite Hl, El, En.
    destruct (IH (i + 1)%nat (mergeLine g (l_mesh l)) (r ++ [l])) as (s' & Hs' & E1 & E2);
      [lia|].
    exists s'. split; [exact Hs'|]. split; [exact E1|].
    rewrite E2, map_app, <- app_assoc. f_equal. cbn [map app]. rewrite Et.
    replace (i + 1)%nat with (S i) by lia.
    clear - Hi. revert i Hi. induction lines as [|x xs IHl]; intros i Hi;
      cbn in Hi; [lia|].
    destruct i as [|i]; [reflexivity|]. cbn [skipn nth]. apply IHl. lia.
  - eexists. split; [reflexivity|]. split; [reflexivity|].
    cbn [s_rendered]. rewrite skipn_all2 by lia. cbn. now rewrite app_nil_r.
Qed.

(** One run where nothing is wrapped. *)
Lemma fitting_run (fuel : nat) :
  placementKnown this -> fitsAsIs this ->
  (List.length (messageLines this) < fuel)%nat ->
  exists m r,
    getSubtitleMesh this fuel =
      Some (setOptions this
              (setTextMessage (options this) (JS.trim (textMessage (opt this)))),
            m, r) /\
    map l_text r = map (fun line => fst (stripEmphasis line)) (messageLines this).
Proof.
  intros Hknown Hfit Hfuel.
  destruct fuel as [|fuel']; [lia|].
  destruct (linesLoop_fitting fuel' (messageLines this) Hknown Hfit
              (S fuel') 0 BufferGeometry []) as (s' & Hs' & E1 & E2); [lia|].
  unfold getSubtitleMesh, initialLines. rewrite List.length_map, Hs', E1.
  unfold messageLines at 1. rewrite join_split.
  eexists. eexists. split; [reflexivity|]. exact E2.
Qed.

End WriteBack.

(** X5. Where nothing is wrapped, under the placements left and right or when
    every line fits as it is, [getSubtitleMesh] renders each line of the
    message once and writes the trimmed message back; on the object it
    leaves, the lines are the same, and a second run writes the same
    message. *)
Theorem fitting_message_kept {T : Three} (this : BaseTag3D) (fuel : nat) :
  placementKnown this -> fitsAsIs this ->
  (List.length (messageLines this) < fuel)%nat ->
  exists this' m r,
    getSubtitleMesh this fuel = Some (this', m, r) /\
    textMessage (opt this') = JS.trim (textMessage (opt this)) /\
    map l_text r = map (fun line => fst (stripEmphasis line)) (messageLines this) /\
    messageLines this' = messageLines this /\
    placementKnown this' /\ fitsAsIs this' /\
    exists this'' m' r',
      getSubtitleMesh this' fuel = Some (this'', m', r') /\
      textMessage (opt this'') = textMessage (opt this').
Proof.
  intros Hknown Hfit Hfuel.
  destruct (fitting_run this fuel Hknown Hfit Hfuel) as (m & r & Hg & Hr).
  set (this' := setOptions this
                  (setTextMessage (options this) (JS.trim (textMessage (opt this))))).
  assert (Hlines : messageLines this' = messageLines this).
  { change (messageLines this')
      with (JS.split JS.LF (JS.trim (JS.trim (textMessage (opt this))))).
    now rewrite trim_fixed. }
  assert (Hknown' : placementKnown this') by exact Hknown.
  assert (Hfit' : fitsAsIs this').
  { intros Htb. rewrite Hlines. exact (Hfit Htb). }
  exists this', m, r. split; [exact Hg|]. split; [reflexivity|].
  split; [exact Hr|]. split; [exact Hlines|]. split; [exact Hknown'|].
  split; [exact Hfit'|].
  destruct (fitting_run this' fuel Hknown' Hfit') as (m' & r' & Hg' & _).
  { rewrite Hlines. exact Hfuel. }
  eexists. exists m', r'. split; [exact Hg'|].
  exact (trim_fixed (textMessage (opt this))).
Qed.

Lemma fitting_message_kept_witness :
  let this :=
    constructor (tagOfWidth 20 "right" (JS.str "  *abcdefgh*" ++ JS.LF :: JS.str "ij ")) in
  placementKnown this /\ fitsAsIs this /\
  (List.length (messageLines this) < 5)%nat /\
  messageAfter (getSubtitleMesh this 5) =
    Some (JS.str "*abcdefgh*" ++ JS.LF :: JS.str "ij") /\
  messageAfter (getSubtitleMeshTwice this 5) =
    Some (JS.str "*abcdefgh*" ++ JS.LF :: JS.str "ij") /\
  exists this' m r,
    getSubtitleMesh this 5 = Some (this', m, r) /\
    map l_text r = [JS.str "abcdefgh"; JS.str "ij"].
Proof.
  intros this.
  assert (Hk : placementKnown this) by (right; reflexivity).
  assert (Hf : fitsAsIs this) by (intros H; discriminate H).
  assert (Hn : (List.length (messageLines this) < 5)%nat) by (vm_compute; lia).
  split; [exact Hk|]. split; [exact Hf|]. split; [exact Hn|].
  split; [vm_compute; reflexivity|]. split; [vm_compute; reflexivity|].
  destruct (fitting_message_kept this 5 Hk Hf Hn)
    as (this' & m & r & Hg & _ & Hr & _).
  exists this', m, r. split; [exact Hg|exact Hr].
Defined.

(* ================================================================== *)
(** * What the rendered lines spell *)

Section Spelling.

Context {T : Three}.
Variable this : BaseTag3D.

Lemma noMarker_stripEmphasis (line : JS.jsstring) :
  noMarker line -> stripEmphasis line = (line, 0%nat).
Proof.
  intros H. unfold stripEmphasis. rewrite stripLoop_stop; [reflexivity|].
  destruct line as [|c r]; [reflexivity|].
  unfold enclosed, JS.charIs. cbn [JS.charAt Z.ltb Z.compare Z.to_nat nth_error].
  destruct (Ascii.eqb_spec c JS.star) as [->|]; [|reflexivity].
  exfalso. apply H. now left.
Qed.

(** One line without a marker: what is rendered of it and what is left to
    render spell what was left to render before. *)
Lemma lineStep_spelled (fuel i : nat) (textLines : list JS.value) (l : Line) :
  (i < List.length textLines)%nat ->
  plainFrom textLines i ->
  lineStep this fuel i textLines (List.length textLines) = Some l ->
  l_emphLevel l = 0%nat /\
  l_numLines l = List.length (l_textLines l) /\
  plainFrom (l_textLines l) (S i) /\
  l_text l ++ spelled (skipn (S i) (l_textLines l)) = spelled (skipn i textLines).
Proof.
  intros Hi Hplain H. unfold plainFrom in *.
  rewrite (skipn_nth textLines i Hi) in Hplain |- *.
  pose proof (Forall_inv_tail Hplain) as Hrest.
  destruct (Forall_inv Hplain) as (line & Hg & Hline). clear Hplain.
  unfold lineStep in H. rewrite Hg in *.
  rewrite (noMarker_stripEmphasis line Hline) in H.
  unfold spelled at 2. cbn [map List.concat JS.toString]. fold (spelled (skipn (S i) textLines)).
  destruct (isOffsetTopBottom this).
  - destruct (lineTopBottomCenter_spec this fuel i line 0 textLines
                (List.length textLines) l)
      as (sp & Et & He & _ & Hsp); [lia|exact H|].
    split; [exact He|].
    destruct sp as [|a sp]; destruct Hsp as [El En]; rewrite El, En.
    + rewrite app_nil_r in Et. split; [reflexivity|]. split; [exact Hrest|].
      now rewrite <- Et.
    + rewrite wrapped_zero. replace (S i) with (i + 1)%nat by lia.
      rewrite skipn_splice by lia.
      split; [rewrite JSFacts.splice_length; lia|].
      split.
      * constructor.
        -- exists (a :: sp). split; [reflexivity|].
           intros Hin. apply Hline. rewrite Et. apply in_or_app. now right.
        -- now replace (i + 1)%nat with (S i) by lia.
      * unfold spelled at 1. cbn [map List.concat JS.toString].
        replace (i + 1)%nat with (S i) by lia.
        fold (spelled (skipn (S i) textLines)).
        now rewrite app_assoc, <- Et.
  - destruct (isOffsetLeftRight this); [|discriminate].
    injection H as <-. unfold lineLeftRight. cbn [l_emphLevel l_numLines l_textLines l_text].
    now repeat split.
Qed.

Lemma linesLoop_spelled (fuel : nat) :
  forall steps i s s',
    s_numLines s = List.length (s_textLines s) ->
    plainFrom (s_textLines s) i ->
    linesLoop this fuel steps i s = Some s' ->
    List.concat (map l_text (s_rendered s')) =
      List.concat (map l_text (s_rendered s)) ++ spelled (skipn i (s_textLines s)) /\
    (Forall (fun l => l_emphLevel l = 0%nat) (s_rendered s) ->
     Forall (fun l => l_emphLevel l = 0%nat) (s_rendered s')) /\
    ((i <= s_numLines s)%nat ->
     (List.length (s_rendered s') + i =
      List.length (s_rendered s) + List.length (s_textLines s'))%nat).
Proof.
  induction steps as [|steps IH]; intros i s s' Hn Hplain H; [discriminate|].
  cbn [linesLoop] in H.
  destruct (Nat.ltb_spec i (s_numLines s)) as [Hi|Hi].
  - destruct (lineStep this fuel i (s_textLines s) (s_numLines s)) as [l|] eqn:L;
      [|discriminate].
    rewrite Hn in L, Hi.
    destruct (lineStep_spelled fuel i (s_textLines s) l Hi Hplain L)
      as (He & Hn' & Hplain' & Hsp).
    apply IH in H; cbn [s_numLines s_textLines s_rendered] in *;
      [|exact Hn'|now replace (i + 1)%nat with (S i) by lia].
    destruct H as (Hc & Hl & Hcount).
    replace (i + 1)%nat with (S i) in * by lia.
    split; [|split].
    + rewrite Hc, map_app, concat_app. cbn [map List.concat].
      rewrite app_nil_r, <- app_assoc, Hsp. reflexivity.
    + intros HF. apply Hl. apply Forall_app. split; [exact HF|].
      constructor; [exact He|constructor].
    + intros _. rewrite List.length_app in Hcount. cbn [List.length] in Hcount.
      assert (S i <= l_numLines l)%nat.
      { rewrite Hn'. clear - Hplain' Hsp Hi L.
        unfold lineStep in L.
        destruct (JS.get (s_textLines s) i) as [| |line0]; try discriminate.
        destruct (stripEmphasis line0) as [text0 e0].
        destruct (isOffsetTopBottom this).
        - destruct (lineTopBottomCenter_spec this fuel i text0 e0 (s_textLines s)
                      (List.length (s_textLines s)) l)
            as (sp & _ & _ & _ & Hs); [lia|exact L|].
          destruct sp; destruct Hs as [-> _];
            rewrite ?JSFacts.splice_length; lia.
        - destruct (isOffsetLeftRight this); [|discriminate].
          injection L as <-. cbn. lia. }
      specialize (Hcount ltac:(assumption)). lia.
  - injection H as <-. rewrite skipn_all2 by lia.
    unfold spelled. cbn. rewrite app_nil_r.
    split; [reflexivity|]. split; [auto|]. intros; lia.
Qed.

(** No piece of a split text holds the separator. *)
Lemma split_pieces (sep : ascii) (s : JS.jsstring) :
  Forall (fun t => ~ In sep t) (JS.split sep s).
Proof.
  induction s as [|c r IH]; [constructor; [intros []|constructor]|].
  cbn [JS.split]. destruct (Ascii.eqb_spec c sep) as [->|Hne].
  - constructor; [intros []|exact IH].
  - destruct (JS.split sep r) as [|h t].
    + constructor; [|constructor]. intros [E|[]]. now apply Hne.
    + constructor; [|exact (Forall_inv_tail IH)].
      intros [E|Hin]; [now apply Hne|]. exact (Forall_inv IH Hin).
Qed.

Lemma split_one (sep : ascii) (t : JS.jsstring) :
  ~ In sep t -> JS.split sep t = [t].
Proof.
  induction t as [|c t IH]; intros H; [reflexivity|].
  cbn [JS.split]. destruct (Ascii.eqb_spec c sep) as [->|Hne].
  - exfalso. apply H. now left.
  - rewrite IH; [reflexivity|]. intros Hin. apply H. now right.
Qed.

Lemma split_app (sep : ascii) (t r : JS.jsstring) :
  ~ In sep t -> JS.split sep (t ++ sep :: r) = t :: JS.split sep r.
Proof.
  induction t as [|c t IH]; intros H.
  - cbn [app JS.split]. now rewrite Ascii.eqb_refl.
  - cbn [app JS.split]. destruct (Ascii.eqb_spec c sep) as [->|Hne].
    + exfalso. apply H. now left.
    + rewrite IH; [reflexivity|]. intros Hin. apply H. now right.
Qed.

(** Splitting what lines without the separator were joined into gives the
    lines back. *)
Lemma split_join (sep : ascii) (ls : list JS.jsstring) :
  ls <> [] -> Forall (fun t => ~ In sep t) ls ->
  JS.split sep (JS.join sep (map JS.Str ls)) = ls.
Proof.
  induction ls as [|t ls IH]; intros Hne H; [congruence|].
  destruct ls as [|t' ls].
  - cbn [map JS.join JS.joinItem JS.toString]. apply split_one.
    exact (Forall_inv H).
  - change (JS.join sep (map JS.Str (t :: t' :: ls)))
      with (t ++ sep :: JS.join sep (map JS.Str (t' :: ls))).
    rewrite split_app by exact (Forall_inv H).
    rewrite IH; [reflexivity|discriminate|exact (Forall_inv_tail H)].
Qed.

(** The body of the loop leaves strings without a line break where it
    found such strings, and takes no entry away. *)
Lemma lineStep_no_break (fuel i : nat) (textLines : list JS.value) (numLines : nat)
  (l : Line) :
  Forall (fun v => exists t, v = JS.Str t /\ ~ In JS.LF t) textLines ->
  (i < List.length textLines)%nat ->
  lineStep this fuel i textLines numLines = Some l ->
  Forall (fun v => exists t, v = JS.Str t /\ ~ In JS.LF t) (l_textLines l) /\
  (List.length textLines <= List.length (l_textLines l))%nat.
Proof.
  intros Hstr Hi H. unfold lineStep in H.
  destruct (get_in_range _ _ _ Hstr Hi) as (line & Hg & Hline).
  rewrite Hg in H.
  pose proof (stripEmphasis_shape line) as Hshape.
  destruct (stripEmphasis line) as [text e].
  destruct (isOffsetTopBottom this).
  - destruct (lineTopBottomCenter_spec this fuel i text e textLines numLines l)
      as (sp & Et & _ & _ & Hsp); [lia|exact H|].
    destruct sp as [|a sp]; destruct Hsp as [-> _]; [now split|].
    split; [|rewrite JSFacts.splice_length; lia].
    apply splice_Forall; [exact Hstr|].
    exists (wrapped e (a :: sp)). split; [reflexivity|].
    intros Hin. unfold wrapped, JS.repeat in Hin.
    apply in_app_or in Hin as [Hin|Hin]; [apply repeat_spec in Hin; discriminate|].
    apply in_app_or in Hin as [Hin|Hin]; [|apply repeat_spec in Hin; discriminate].
    apply Hline. destruct Hshape as [->|(-> & _)].
    + unfold wrapped. apply in_or_app. right. apply in_or_app. left.
      rewrite Et. apply in_or_app. now right.
    + destruct (l_text l); discriminate Et.
  - destruct (isOffsetLeftRight this); [|discriminate].
    injection H as <-. now split.
Qed.

Lemma linesLoop_no_break (fuel : nat) :
  forall steps i s s',
    s_numLines s = List.length (s_textLines s) ->
    plainFrom (s_textLines s) i ->
    Forall (fun v => exists t, v = JS.Str t /\ ~ In JS.LF t) (s_textLines s) ->
    linesLoop this fuel steps i s = Some s' ->
    Forall (fun v => exists t, v = JS.Str t /\ ~ In JS.LF t) (s_textLines s') /\
    (List.length (s_textLines s) <= List.length (s_textLines s'))%nat.
Proof.
  induction steps as [|steps IH]; intros i s s' Hn Hplain Hstr H; [discriminate|].
  cbn [linesLoop] in H.
  destruct (Nat.ltb_spec i (s_numLines s)) as [Hi|Hi].
  - destruct (lineStep this fuel i (s_textLines s) (s_numLines s)) as [l|] eqn:L;
      [|discriminate].
    rewrite Hn in Hi.
    destruct (lineStep_no_break fuel i (s_textLines s) (s_numLines s) l Hstr Hi L)
      as (Hstr' & Hlen).
    rewrite Hn in L.
    destruct (lineStep_spelled fuel i (s_textLines s) l Hi Hplain L)
      as (_ & Hn' & Hplain' & _).
    apply IH in H; cbn [s_numLines s_textLines] in *;
      [|exact Hn'|now replace (i + 1)%nat with (S i) by lia|exact Hstr'].
    destruct H as (H & Hlen'). split; [exact H|lia].
  - injection H as <-. now split.
Qed.

(** An array of strings is an array of the values of a list of strings. *)
Lemma strings_values (P : JS.jsstring -> Prop) (a : list JS.value) :
  Forall (fun v => exists t, v = JS.Str t /\ P t) a ->
  exists ls, a = map JS.Str ls /\ Forall P ls.
Proof.
  induction a as [|v a IH]; intros H; [now exists []|].
  destruct (Forall_inv H) as (t & -> & Ht).
  destruct (IH (Forall_inv_tail H)) as (ls & -> & Hls).
  exists (t :: ls). split; [reflexivity|now constructor].
Qed.

End Spelling.

(** X6. A message without markers is rendered whole: whenever
    [getSubtitleMesh] returns, the texts of the lines it rendered, one
    after the other, are the lines of the trimmed message one after the
    other, all at level 0, and the message written back has as many
    lines, the pieces between its line breaks, as were rendered. *)
Theorem rendered_lines_spell_message {T : Three} (this : BaseTag3D) (fuel : nat)
  (this' : BaseTag3D) (m : Mesh Geometry) (r : list Line) :
  Forall noMarker (messageLines this) ->
  getSubtitleMesh this fuel = Some (this', m, r) ->
  List.concat (map l_text r) = List.concat (messageLines this) /\
  Forall (fun l => l_emphLevel l = 0%nat) r /\
  List.length (JS.split JS.LF (textMessage (opt this'))) = List.length r.
Proof.
  intros Hplain H. unfold getSubtitleMesh in H.
  destruct (linesLoop this fuel fuel 0 (initialLines this)) as [s|] eqn:L;
    [|discriminate].
  injection H as <- _ <-.
  assert (Hfrom : plainFrom (s_textLines (initialLines this)) 0).
  { unfold plainFrom, initialLines. cbn [s_textLines skipn].
    apply Forall_forall. intros v Hv. apply in_map_iff in Hv as (t & <- & Ht).
    exists t. split; [reflexivity|]. rewrite Forall_forall in Hplain. now apply Hplain. }
  destruct (linesLoop_spelled this fuel fuel 0 (initialLines this) s) as (Hc & Hl & Hn);
    [reflexivity|exact Hfrom|exact L|].
  split; [|split].
  - rewrite Hc. unfold initialLines, spelled. cbn [s_rendered s_textLines skipn map List.concat app].
    rewrite map_map. cbn [JS.toString]. now rewrite map_id.
  - apply Hl. constructor.
  - destruct (linesLoop_no_break this fuel fuel 0 (initialLines this) s)
      as (Hstr & Hlen); [reflexivity|exact Hfrom| |exact L|].
    { unfold initialLines, messageLines. cbn [s_textLines].
      apply Forall_forall. intros v Hv. apply in_map_iff in Hv as (t & <- & Ht).
      exists t. split; [reflexivity|].
      pose proof (split_pieces JS.LF (JS.trim (textMessage (opt this)))) as Hp.
      rewrite Forall_forall in Hp. now apply Hp. }
    specialize (Hn (Nat.le_0_l _)). unfold initialLines in Hn, Hlen.
    cbn [s_rendered s_textLines List.length] in Hn, Hlen.
    rewrite List.length_map in Hlen.
    destruct (strings_values _ _ Hstr) as (ls & Els & Hls).
    cbn [opt setOptions setTextMessage options base textMessage].
    change (textMessage (opt (setOptions this
              (setTextMessage (options this) (JS.join JS.LF (s_textLines s))))))
      with (JS.join JS.LF (s_textLines s)).
    rewrite Els in *. rewrite List.length_map in Hn, Hlen.
    rewrite split_join; [lia| |exact Hls].
    intros ->. cbn [List.length] in Hlen.
    unfold messageLines in Hlen.
    destruct (split_nonempty JS.LF (JS.trim (textMessage (opt this))))
      as (h & t & E).
    rewrite E in Hlen. cbn [List.length] in Hlen. lia.
Qed.

Lemma rendered_lines_spell_message_witness :
  let this := constructor (narrow (JS.str "abcdefghij" ++ JS.LF :: JS.str "kl")) in
  Forall noMarker (messageLines this) /\
  renderedTexts (getSubtitleMesh this 9) =
    Some [(JS.str "abcd", 0%nat); (JS.str "efgh", 0%nat); (JS.str "ij", 0%nat);
          (JS.str "kl", 0%nat)] /\
  List.concat (map l_text (renderedLines (getSubtitleMesh this 9))) =
    JS.str "abcdefghijkl" /\
  option_map (JS.split JS.LF) (messageAfter (getSubtitleMesh this 9)) =
    Some [JS.str "abcdefghij"; JS.str "efghij"; JS.str "ij"; JS.str "kl"] /\
  option_map (fun message => List.length (JS.split JS.LF message))
             (messageAfter (getSubtitleMesh this 9)) =
    Some (List.length (renderedLines (getSubtitleMesh this 9))).
Proof.
  intros this.
  assert (Hp : Forall noMarker (messageLines this)).
  { repeat constructor; intros H; cbn in H;
      repeat (destruct H as [H|H]; [discriminate H|]); exact H. }
  split; [exact Hp|]. split; [vm_compute; reflexivity|].
  destruct (getSubtitleMesh this 9) as [[[this' m] r]|] eqn:E;
    [|vm_compute in E; discriminate E].
  destruct (rendered_lines_spell_message this 9 this' m r Hp E) as (Hc & _ & Hn).
  cbn [renderedLines messageAfter option_map]. rewrite Hc, Hn.
  split; [reflexivity|]. split; [|reflexivity].
  vm_compute in E. injection E as <- _ _. reflexivity.
Defined.

(* ================================================================== *)
(** * More on markers and measures *)

Lemma stripLoop_maximal (f : nat) :
  forall text e r,
    stripLoop f text e = Some r -> (e < 3)%nat ->
    snd r = 3%nat \/ enclosed (fst r) = false.
Proof.
  induction f as [|f IH]; intros text e r H He; [discriminate|].
  cbn [stripLoop] in H. fold (enclosed text) in H.
  destruct (enclosed text) eqn:E.
  - destruct (Nat.eqb_spec (e + 1) 3) as [E3|E3].
    + injection H as <-. now left.
    + apply IH in H; [exact H|lia].
  - injection H as <-. now right.
Qed.

(** X7. The marker loop takes pairs away and stops only at level 3 or at a
    text that no longer starts and ends with a marker.  The line is the
    text left between as many pairs of markers as the level, except that
    a line of an odd number of markers only, up to five, leaves the empty
    text: its middle marker is taken for a pair. *)
Theorem stripEmphasis_decomposition (line : JS.jsstring) :
  let text := fst (stripEmphasis line) in
  let e := snd (stripEmphasis line) in
  (e = 3%nat \/ enclosed text = false) /\
  (line = wrapped e text \/
   (text = [] /\ (1 <= e)%nat /\ line = JS.repeat JS.star (2 * e - 1))).
Proof.
  intros text e. split.
  - apply (stripLoop_maximal 3 line 0); [|lia].
    apply stripEmphasis_loop. lia.
  - pose proof (stripEmphasis_shape line) as H. subst text e.
    now destruct (stripEmphasis line).
Qed.

Section RenderWidth.

Context {T : Three}.
Variable this : BaseTag3D.

Lemma renderWidthStep_plain (maxWidth : Q) (line : JS.jsstring) :
  renderWidthStep this maxWidth line =
  if JS.gt (plainWidth this line) maxWidth then plainWidth this line else maxWidth.
Proof. reflexivity. Qed.

Lemma gt_true (a b : Q) : JS.gt a b = true -> b <= a.
Proof.
  unfold JS.gt. rewrite negb_true_iff. intros H.
  apply Qlt_le_weak, Qnot_le_lt. intros Hle.
  apply Qle_bool_iff in Hle. congruence.
Qed.

Lemma gt_false (a b : Q) : JS.gt a b = false -> a <= b.
Proof. unfold JS.gt. rewrite negb_false_iff. apply Qle_bool_iff. Qed.

(** The running maximum over the lines. *)
Lemma renderWidth_fold (lines : list JS.jsstring) :
  forall acc,
    let R := fold_left (renderWidthStep this) lines acc in
    acc <= R /\
    Forall (fun line => plainWidth this line <= R) lines /\
    (R = acc \/ exists line, In line lines /\ R = plainWidth this line).
Proof.
  induction lines as [|x xs IH]; intros acc; cbn [fold_left].
  - split; [apply Qle_refl|]. split; [constructor|now left].
  - destruct (IH (renderWidthStep this acc x)) as (Hacc & Hall & Hone).
    rewrite renderWidthStep_plain in *.
    destruct (JS.gt (plainWidth this x) acc) eqn:G.
    + apply gt_true in G. split; [eapply Qle_trans; eassumption|].
      split; [constructor; assumption|].
      right. destruct Hone as [->|(line & Hin & E)].
      * exists x. split; [now left|reflexivity].
      * exists line. split; [now right|exact E].
    + apply gt_false in G. split; [exact Hacc|].
      split; [constructor; [eapply Qle_trans; eassumption|assumption]|].
      destruct Hone as [E|(line & Hin & E)]; [now left|].
      right. exists line. split; [now right|exact E].
Qed.

(** X8. [getTextRenderWidth] is 0 without a text and otherwise the largest of
    0 and the widths of the lines of the message, each stripped of its
    markers and measured in the plain font, whatever the level of the
    line. *)
Theorem getTextRenderWidth_max :
  (hasText (opt this) = false -> getTextRenderWidth this = 0) /\
  (hasText (opt this) = true ->
   0 <= getTextRenderWidth this /\
   Forall (fun line => plainWidth this line <= getTextRenderWidth this)
          (messageLines this) /\
   (getTextRenderWidth this = 0 \/
    exists line, In line (messageLines this) /\
                 getTextRenderWidth this = plainWidth this line)).
Proof.
  unfold getTextRenderWidth. split; intros Ht; rewrite Ht; cbn [negb].
  - reflexivity.
  - apply renderWidth_fold.
Qed.

Lemma trimStart_blank (s : JS.jsstring) :
  forallb JS.isWhiteSpace s = true -> JS.trimStart s = [].
Proof.
  induction s as [|c r IH]; [reflexivity|].
  cbn [forallb JS.trimStart]. intros H. apply andb_true_iff in H as [Hc Hr].
  rewrite Hc. now apply IH.
Qed.

(** X9. The message always has a line: an empty message, or one of white
    space only, is one empty line, and under the placements top and bottom
    a tag with a text reserves the height of that line and two margins. *)
Theorem blank_message_one_line :
  (1 <= List.length (messageLines this))%nat /\
  (forallb JS.isWhiteSpace (textMessage (opt this)) = true ->
   messageLines this = [[]] /\
   (hasText (opt this) = true ->
    textPlacement (opt this) = "top"%string \/
    textPlacement (opt this) = "bottom"%string ->
    getTextBaseOffset this ==
      textSize (opt this) * LINE_HEIGHT + 2 * textMargin (opt this))).
Proof.
  split.
  - unfold messageLines.
    destruct (split_nonempty JS.LF (JS.trim (textMessage (opt this))))
      as (h & t & ->).
    cbn [List.length]. lia.
  - intros Hblank.
    assert (Hl : messageLines this = [[]]).
    { unfold messageLines, JS.trim. now rewrite (trimStart_blank _ Hblank). }
    split; [exact Hl|].
    intros Ht Hp. unfold getTextBaseOffset. rewrite Ht, Hl.
    assert (Hb : placementIs this "top" || placementIs this "bottom" = true).
    { unfold placementIs. destruct Hp as [->| ->]; reflexivity. }
    rewrite Hb. cbn [List.length]. unfold LINE_HEIGHT. cbn [Z.of_nat Pos.of_succ_nat].
    ring.
Qed.

End RenderWidth.

Lemma getTextRenderWidth_max_witness :
  let this :=
    constructor (tagOfWidth 20 "right" (JS.str "**abc**" ++ JS.LF :: JS.str "de")) in
  hasText (opt this) = true /\
  getTextRenderWidth this == 12 /\
  plainWidth this (JS.str "**abc**") <= getTextRenderWidth this /\
  plainWidth this (JS.str "de") <= getTextRenderWidth this.
Proof.
  intros this.
  destruct (getTextRenderWidth_max this) as [_ H].
  destruct (H eq_refl) as (_ & Hall & _).
  split; [reflexivity|]. split; [reflexivity|].
  split; [exact (Forall_inv Hall)|exact (Forall_inv (Forall_inv_tail Hall))].
Defined.

Lemma blank_message_one_line_witness :
  let this := constructor (tagOfWidth 20 "bottom" (JS.str "  " ++ [JS.LF])) in
  forallb JS.isWhiteSpace (textMessage (opt this)) = true /\
  hasText (opt this) = true /\
  messageLines this = [[]] /\
  getTextBaseOffset this == 8.
Proof.
  intros this.
  destruct (blank_message_one_line this) as [_ H].
  destruct (H eq_refl) as [Hl Ho].
  split; [reflexivity|]. split; [reflexivity|]. split; [exact Hl|].
  rewrite (Ho eq_refl (or_intror eq_refl)). reflexivity.
Defined.

(* ================================================================== *)
(** * The border frame *)

Section Border.

Context {T : Three}.
Variable this : BaseTag3D.

(** [getBorderMesh] in terms of its two profiles. *)
Lemma getBorderMesh_profiles :
  getBorderMesh this =
  updateMatrix
    (setPositionZ
       (subtractMesh
          (updateMatrix (newMesh (ExtrudeGeometry (borderShape this)
                                                  (borderDepth (opt this)))
                                 (materialDetail this)))
          (updateMatrix (newMesh (ExtrudeGeometry (borderHoleShape this)
                                                  (borderDepth (opt this)))
                                 (materialDetail this))))
       (depth (opt this))).
Proof. reflexivity. Qed.

Lemma max_zero_nonneg (a : Q) : 0 <= JS.max 0 a.
Proof.
  unfold JS.max. destruct (Qle_bool 0 a) eqn:E.
  - now apply Qle_bool_iff.
  - apply Qle_refl.
Qed.

(** X10. The frame has the thickness [borderWidth] all around: the inner
    profile of [getBorderMesh] is its outer profile moved in by
    [borderWidth] on each of the four sides, with corners of the outer
    radius less [borderWidth], and never of a negative radius.  Both
    profiles are extruded by [borderDepth], and the frame is put at the
    height [base.depth].  Neither profile exists when the placement is
    none of the five. *)
Theorem border_frame_inset :
  (forall outer, borderShape this = Some outer ->
     exists inner,
       borderHoleShape this = Some inner /\
       shape_x inner == shape_x outer + borderWidth (opt this) /\
       shape_y inner == shape_y outer + borderWidth (opt this) /\
       shape_width inner == shape_width outer - 2 * borderWidth (opt this) /\
       shape_height inner == shape_height outer - 2 * borderWidth (opt this) /\
       r_tl inner = JS.max 0 (r_tl outer - borderWidth (opt this)) /\
       r_tl inner = r_tr inner /\ r_tl inner = r_br inner /\
       r_tl inner = r_bl inner /\
       0 <= r_tl inner) /\
  (borderShape this = None <-> borderHoleShape this = None) /\
  (borderShape this = None <->
   isOffsetTopBottom this = false /\ isOffsetLeftRight this = false) /\
  vz (position (getBorderMesh this)) = depth (opt this) /\
  vz (m_position (matrix (getBorderMesh this))) = depth (opt this).
Proof.
  split; [|split; [|split; [|split]]].
  - intros outer H. unfold borderShape in H. unfold borderHoleShape.
    destruct (isOffsetTopBottom this); [|destruct (isOffsetLeftRight this)];
      try discriminate; injection H as <-; eexists; (split; [reflexivity|]);
      cbn [getRoundedRectShape shape_x shape_y shape_width shape_height
             r_tl r_tr r_br r_bl];
      repeat split; try reflexivity; try apply max_zero_nonneg; field.
  - unfold borderShape, borderHoleShape.
    destruct (isOffsetTopBottom this); [|destruct (isOffsetLeftRight this)];
      split; intros H; (discriminate H || reflexivity).
  - unfold borderShape.
    destruct (isOffsetTopBottom this); [|destruct (isOffsetLeftRight this)].
    + split; intros H; [discriminate H|destruct H; discriminate].
    + split; intros H; [discriminate H|destruct H; discriminate].
    + split; intros H; [now split|reflexivity].
  - reflexivity.
  - reflexivity.
Qed.

Lemma placement_cases :
  placementKnown this ->
  textPlacement (opt this) = "top"%string \/
  textPlacement (opt this) = "bottom"%string \/
  textPlacement (opt this) = "center"%string \/
  textPlacement (opt this) = "left"%string \/
  textPlacement (opt this) = "right"%string.
Proof.
  unfold placementKnown, isOffsetTopBottom, isOffsetLeftRight, placementIs.
  intros [H|H].
  - apply orb_true_iff in H as [H|H]; [apply orb_true_iff in H as [H|H]|];
      apply String.eqb_eq in H; auto.
  - apply orb_true_iff in H as [H|H]; apply String.eqb_eq in H; auto 6.
Qed.

(** X11. The frame against the plate.  With a text offset that is not negative,
    the outer profile of the frame has the size of the plate; it starts
    where the shifted plate starts under the placements bottom, center,
    left and right, and 0.05 further along x under the placement top, with
    or without a text. *)
Theorem border_against_plate :
  placementKnown this ->
  0 <= getTextBaseOffset this ->
  exists outer plate,
    borderShape this = Some outer /\
    basePlateShape this = Some plate /\
    shape_width outer == shape_width plate /\
    shape_height outer == shape_height plate /\
    shape_y outer == vy (position (basePlateMesh this)) + shape_y plate /\
    (textPlacement (opt this) <> "top"%string ->
     shape_x outer == vx (position (basePlateMesh this)) + shape_x plate) /\
    (textPlacement (opt this) = "top"%string ->
     shape_x outer == vx (position (basePlateMesh this)) + shape_x plate + (1 # 20)).
Proof.
  intros Hknown H0.
  assert (Hzero : JS.gt (getTextBaseOffset this) 0 = false ->
                  getTextBaseOffset this == 0).
  { intros G. apply gt_false in G. now apply Qle_antisym. }
  unfold borderShape, basePlateShape, basePlateMesh, getTextTopOffset,
    getTextLeftOffset, isOffsetTopBottom, isOffsetLeftRight.
  destruct (placement_cases Hknown) as [P|[P|[P|[P|P]]]];
    unfold placementIs; rewrite P;
    cbn [String.eqb Ascii.eqb Bool.eqb orb andb];
    (eexists; eexists; split; [reflexivity|]; split; [reflexivity|]);
    cbn [getRoundedRectShape shape_x shape_y shape_width shape_height];
    destruct (JS.gt (getTextBaseOffset this) 0) eqn:G;
    cbn [updateMatrix setPositionX setPositionY setPosition newMesh position
           vx vy vz zero3];
    try (rewrite (Hzero eq_refl));
    repeat split; try reflexivity; try (intros; congruence);
    try (intros _; field); try field.
  all: try (unfold getTextBaseOffset, placementIs; rewrite P;
            destruct (hasText (opt this)); cbn; intros; field).
Qed.

End Border.

Lemma border_frame_inset_witness :
  let this := constructor scenario in
  exists outer inner,
    borderShape this = Some outer /\
    borderHoleShape this = Some inner /\
    shape_width outer == 50 /\ shape_height outer == 60 /\
    shape_x inner == shape_x outer + (3 # 2) /\
    shape_width inner == 47 /\ shape_height inner == 57 /\
    r_tl inner == 5 # 2.
Proof.
  intros this.
  destruct (border_frame_inset this) as [H _].
  destruct (borderShape this) as [outer|] eqn:E; [|discriminate E].
  destruct (H outer eq_refl) as (inner & Hi & Hx & _ & Hw & Hh & Hr & _).
  exists outer, inner. split; [reflexivity|]. split; [exact Hi|].
  injection E as <-.
  split; [reflexivity|]. split; [reflexivity|]. split; [exact Hx|].
  split; [rewrite Hw; reflexivity|]. split; [rewrite Hh; reflexivity|].
  rewrite Hr. reflexivity.
Defined.

Lemma border_against_plate_witness :
  let bottom := constructor scenario in
  let top := constructor (scenarioWith "top" (JS.str "**Hello World**")) in
  placementKnown bottom /\ placementKnown top /\
  0 <= getTextBaseOffset bottom /\ 0 <= getTextBaseOffset top /\
  (exists outer plate,
      borderShape bottom = Some outer /\ basePlateShape bottom = Some plate /\
      shape_x outer == vx (position (basePlateMesh bottom)) + shape_x plate) /\
  (exists outer plate,
      borderShape top = Some outer /\ basePlateShape top = Some plate /\
      shape_x outer == - (2995 # 100) /\
      vx (position (basePlateMesh top)) + shape_x plate == - (30 # 1)).
Proof.
  intros bottom top.
  assert (Kb : placementKnown bottom) by (left; reflexivity).
  assert (Kt : placementKnown top) by (left; reflexivity).
  assert (Ob : 0 <= getTextBaseOffset bottom) by (vm_compute; discriminate).
  assert (Ot : 0 <= getTextBaseOffset top) by (vm_compute; discriminate).
  split; [exact Kb|]. split; [exact Kt|]. split; [exact Ob|]. split; [exact Ot|].
  split.
  - destruct (border_against_plate bottom Kb Ob)
      as (outer & plate & Eo & Ep & _ & _ & _ & Hx & _).
    exists outer, plate. split; [exact Eo|]. split; [exact Ep|].
    apply Hx. vm_compute. discriminate.
  - destruct (border_against_plate top Kt Ot)
      as (outer & plate & Eo & Ep & _ & _ & _ & _ & Hx).
    exists outer, plate. split; [exact Eo|]. split; [exact Ep|].
    specialize (Hx eq_refl).
    vm_compute in Eo, Ep. injection Eo as <-. injection Ep as <-.
    split; reflexivity.
Defined.

(* ================================================================== *)
(** * The two tabs of the keychain attachment *)

Section Keychain.

Context {T : Three}.
Variable this : BaseTag3D.

(** [getKeychainAttachmentMesh] in terms of its tabs. *)
Lemma getKeychainAttachmentMesh_tabs (plate : Mesh Geometry) :
  getKeychainAttachmentMesh this plate =
  if mirrorHoles (opt this)
  then unionMesh (updateMatrix (keychainFirst this plate))
                 (updateMatrix (keychainMirror this plate))
  else updateMatrix (keychainFirst this plate).
Proof. reflexivity. Qed.

(** X13. With [mirrorHoles], the second tab is the first one turned by half a
    turn about the position of the plate: under each of the placements
    left, top and topLeft the positions of the two tabs lie opposite each
    other about that of the plate, and under top and topLeft their angles
    differ by half a turn; under left the second tab is turned by half a
    turn and the first is left at the angle of the solid it is made of.
    Under any other placement neither tab is placed. *)
Theorem keychain_mirror_opposite (plate : Mesh Geometry) :
  let first := keychainFirst this plate in
  let mirror := keychainMirror this plate in
  let solid := subtractMesh (attachmentShapeMesh this) (keychainHoleMesh this) in
  (mirrorHoles (opt this) = true ->
   getKeychainAttachmentMesh this plate =
   unionMesh (updateMatrix first) (updateMatrix mirror)) /\
  geometry first = geometry solid /\ geometry mirror = geometry solid /\
  (keychainPlacement (opt this) = "left"%string \/
   keychainPlacement (opt this) = "top"%string \/
   keychainPlacement (opt this) = "topLeft"%string ->
   vx (position first) + vx (position mirror) == 2 * vx (position plate) /\
   vy (position first) + vy (position mirror) == 2 * vy (position plate)) /\
  (keychainPlacement (opt this) = "top"%string \/
   keychainPlacement (opt this) = "topLeft"%string ->
   ez (rotation mirror) == ez (rotation first) + 1) /\
  (keychainPlacement (opt this) = "left"%string ->
   ez (rotation mirror) = 1 /\ rotation first = rotation solid) /\
  (keychainPlacement (opt this) <> "left"%string ->
   keychainPlacement (opt this) <> "top"%string ->
   keychainPlacement (opt this) <> "topLeft"%string ->
   first = solid /\ mirror = solid).
Proof.
  intros first mirror solid.
  split; [intros Hm; rewrite getKeychainAttachmentMesh_tabs, Hm; reflexivity|].
  subst first mirror. unfold keychainFirst, keychainMirror, keychainIs.
  fold solid.
  split; [|split; [|split; [|split; [|split]]]].
  - destruct (String.eqb _ "left"); [reflexivity|].
    destruct (String.eqb _ "top"); [reflexivity|].
    destruct (String.eqb _ "topLeft"); reflexivity.
  - destruct (String.eqb _ "left"); [reflexivity|].
    destruct (String.eqb _ "top"); [reflexivity|].
    destruct (String.eqb _ "topLeft"); reflexivity.
  - intros [P|[P|P]]; rewrite P;
      cbn [String.eqb Ascii.eqb Bool.eqb setRotationZ setRotation setPosition
             setPositionX setPositionY position vx vy];
      split; ring.
  - intros [P|P]; rewrite P;
      cbn [String.eqb Ascii.eqb Bool.eqb setRotationZ setRotation setPosition
             setPositionX setPositionY rotation ez];
      reflexivity.
  - intros P. rewrite P.
    cbn [String.eqb Ascii.eqb Bool.eqb]. split; reflexivity.
  - intros P1 P2 P3.
    apply String.eqb_neq in P1, P2, P3. rewrite P1, P2, P3. now split.
Qed.

End Keychain.

Lemma keychain_mirror_opposite_witness :
  let this := constructor (scenarioMirrored "topLeft") in
  let plate := basePlateMesh this in
  mirrorHoles (opt this) = true /\
  keychainPlacement (opt this) = "topLeft"%string /\
  vx (position plate) == 5 /\
  vx (position (keychainFirst this plate)) == - (20 # 1) /\
  vx (position (keychainMirror this plate)) == 30 /\
  vx (position (keychainFirst this plate)) + vx (position (keychainMirror this plate))
    == 2 * vx (position plate) /\
  ez (rotation (keychainMirror this plate))
    == ez (rotation (keychainFirst this plate)) + 1 /\
  getKeychainAttachmentMesh this plate =
    unionMesh (updateMatrix (keychainFirst this plate))
              (updateMatrix (keychainMirror this plate)).
Proof.
  intros this plate.
  destruct (keychain_mirror_opposite this plate) as (U & _ & _ & P & R & _).
  split; [reflexivity|]. split; [reflexivity|].
  split; [reflexivity|]. split; [reflexivity|]. split; [reflexivity|].
  split; [exact (proj1 (P (or_intror (or_intror eq_refl))))|].
  split; [exact (R (or_intror eq_refl))|exact (U eq_refl)].
Defined.

(* ================================================================== *)
(** * Generating again on the same object *)

Lemma objKeys_objSet {A : Type} (o : list (string * A)) (k k' : string) (v : A) :
  In k (objKeys o) -> In k (objKeys (objSet o k' v)).
Proof.
  induction o as [|[k0 v0] o IH]; intros H; [destruct H|].
  cbn [objSet]. destruct (String.eqb_spec k0 k') as [->|Hne].
  - exact H.
  - cbn [objKeys map fst] in *. destruct H as [H|H]; [now left|right; now apply IH].
Qed.

Lemma objGet_objSet {A : Type} (o : list (string * A)) (k : string) (v : A) :
  objGet (objSet o k v) k = Some v.
Proof.
  induction o as [|[k0 v0] o IH]; cbn [objSet objGet].
  - now rewrite String.eqb_refl.
  - destruct (String.eqb_spec k0 k) as [->|Hne]; cbn [objGet].
    + now rewrite String.eqb_refl.
    + apply String.eqb_neq in Hne. now rewrite Hne.
Qed.

Section Regenerate.

Context {T : Three}.

(** The statements for plate, border and keychain attachment replace what
    they make and leave the rest. *)
Lemma generateParts_fields (this : BaseTag3D) :
  let this' := generateParts this in
  options this' = options this /\
  subtitleMesh this' = subtitleMesh this /\
  baseMesh this' = Some (getBaseMesh this) /\
  (hasBorder (opt this) = false -> borderMesh this' = borderMesh this) /\
  (hasKeychainAttachment (opt this) = false ->
   keychainAttachmentMesh this' = keychainAttachmentMesh this) /\
  (forall k, In k (objKeys (exportedMeshes this)) ->
             In k (objKeys (exportedMeshes this'))).
Proof.
  unfold generateParts.
  change (hasBorder (opt (export (setBaseMesh this (getBaseMesh this)) "base"
                                 (getBaseMesh this))))
    with (hasBorder (opt this)).
  destruct (hasBorder (opt this)) eqn:Hb.
  - change (hasKeychainAttachment (opt _)) with (hasKeychainAttachment (opt this)).
    destruct (hasKeychainAttachment (opt this)) eqn:Hk;
      cbn -[getBaseMesh getBorderMesh getKeychainAttachmentMesh objSet];
      repeat split; try reflexivity; try discriminate;
      intros k Hin; repeat apply objKeys_objSet; exact Hin.
  - change (hasKeychainAttachment (opt _)) with (hasKeychainAttachment (opt this)).
    destruct (hasKeychainAttachment (opt this)) eqn:Hk;
      cbn -[getBaseMesh getBorderMesh getKeychainAttachmentMesh objSet];
      repeat split; try reflexivity; try discriminate;
      intros k Hin; repeat apply objKeys_objSet; exact Hin.
Qed.

(** X14. [generate3dModel] does not reset the object.  On an object that was
    generated before, no part exported then is taken out of the record of
    parts, and a border, a keychain attachment or a label whose flag was
    turned off since stays in its field: the combined mesh is merged from
    the plate and from whatever border, label and keychain attachment the
    fields hold, made in this run or left by an earlier one. *)
Theorem regenerate_keeps_parts (this this' : BaseTag3D) (fuel : nat) :
  generate3dModel this fuel = Some this' ->
  (forall k, In k (objKeys (getPartMeshes this)) ->
             In k (objKeys (getPartMeshes this'))) /\
  (hasBorder (opt this) = false -> borderMesh this' = borderMesh this) /\
  (hasKeychainAttachment (opt this) = false ->
   keychainAttachmentMesh this' = keychainAttachmentMesh this) /\
  (hasText (opt this) = false -> subtitleMesh this' = subtitleMesh this) /\
  exists b c,
    baseMesh this' = Some b /\
    objGet (getPartMeshes this') "combined" = Some c /\
    geometry c =
      mergeGeometries
        (map compatible
             ([placedGeometry b]
              ++ partGeometry (borderMesh this')
              ++ (if invert (code (options this)) then []
                  else partGeometry (subtitleMesh this'))
              ++ partGeometry (keychainAttachmentMesh this'))).
Proof.
  intros H. unfold generate3dModel in H.
  destruct (generateSubtitle this fuel) as [this1|] eqn:S1; [|discriminate].
  assert (H1 : hasBorder (opt this1) = hasBorder (opt this) /\
               hasKeychainAttachment (opt this1) = hasKeychainAttachment (opt this) /\
               invert (code (options this1)) = invert (code (options this)) /\
               borderMesh this1 = borderMesh this /\
               keychainAttachmentMesh this1 = keychainAttachmentMesh this /\
               (hasText (opt this) = false -> subtitleMesh this1 = subtitleMesh this) /\
               (forall k, In k (objKeys (exportedMeshes this)) ->
                          In k (objKeys (exportedMeshes this1)))).
  { unfold generateSubtitle in S1. destruct (hasText (opt this)) eqn:Ht.
    - destruct (getSubtitleMesh this fuel) as [[[this0 m] r]|] eqn:G;
        [|discriminate].
      apply getSubtitleMesh_object in G. destruct G as (message & ->).
      injection S1 as <-.
      destruct (negb (invert (code (options _))));
        cbn -[objSet]; repeat split; try reflexivity; try discriminate;
        intros k Hin; try apply objKeys_objSet; exact Hin.
    - injection S1 as <-. repeat split; try reflexivity. auto. }
  destruct H1 as (Hb & Hk & Hi & Hbm & Hkm & Hsm & Hkeys).
  destruct (generateParts_fields this1) as (Ho & Es & Eb & Ebm & Ekm & Ekeys).
  unfold getCombinedMesh in H. rewrite Eb in H. injection H as <-.
  unfold getPartMeshes.
  split; [|split; [|split; [|split]]].
  - intros k Hin. cbn [export exportedMeshes]. apply objKeys_objSet.
    apply Ekeys, Hkeys, Hin.
  - intros Hf. cbn [export borderMesh]. rewrite Ebm by congruence. exact Hbm.
  - intros Hf. cbn [export keychainAttachmentMesh]. rewrite Ekm by congruence.
    exact Hkm.
  - intros Hf. cbn [export subtitleMesh]. rewrite Es. now apply Hsm.
  - exists (getBaseMesh this1). eexists.
    split; [cbn [export baseMesh]; exact Eb|].
    cbn [export exportedMeshes]. rewrite objGet_objSet. split; [reflexivity|].
    cbn [geometry newMesh export borderMesh subtitleMesh keychainAttachmentMesh].
    unfold combinedGeometries, partGeometry. rewrite Ho, Hi.
    destruct (borderMesh (generateParts this1)),
      (subtitleMesh (generateParts this1)),
      (keychainAttachmentMesh (generateParts this1)),
      (invert (code (options this))); reflexivity.
Qed.

End Regenerate.

Lemma regenerate_keeps_parts_witness :
  hasBorder (opt scenarioRerun) = false /\
  hasKeychainAttachment (opt scenarioRerun) = false /\
  borderMesh scenarioRerun <> None /\
  exists this',
    generate3dModel scenarioRerun 20 = Some this' /\
    objKeys (getPartMeshes this') =
      ["subtitle"; "base"; "border"; "keychainAttachment"; "combined"]%string /\
    borderMesh this' = borderMesh scenarioRerun /\
    keychainAttachmentMesh this' = keychainAttachmentMesh scenarioRerun.
Proof.
  split; [reflexivity|]. split; [reflexivity|].
  split; [vm_compute; discriminate|].
  destruct (generate3dModel scenarioRerun 20) as [this'|] eqn:E;
    [|vm_compute in E; discriminate E].
  destruct (regenerate_keeps_parts scenarioRerun this' 20 E) as (_ & B & K & _).
  exists this'. split; [reflexivity|].
  split; [vm_compute in E; injection E as <-; reflexivity|].
  split; [apply B; reflexivity|apply K; reflexivity].
Defined.

Lemma generate3dModel_completes_witness :
  let o := narrow (JS.str "abcdefgh" ++ JS.LF :: JS.str "**ij**") in
  placementKnown (constructor o) /\ charactersFit (constructor o) /\
  enough (constructor o) 20 /\
  exists this', generate3dModel (constructor o) 20 = Some this' /\
                textMessage (opt this') =
                  JS.str "abcdefgh" ++ JS.LF :: JS.str "efgh" ++ JS.LF :: JS.str "**ij**".
Proof.
  intros o.
  assert (K : placementKnown (constructor o)) by (left; reflexivity).
  assert (F : charactersFit (constructor o)).
  { intros _ e He. split; [|intros c];
      (destruct e as [|[|[|[|e]]]]; [reflexivity..|lia]). }
  assert (N : enough (constructor o) 20) by (unfold enough; vm_compute; lia).
  split; [exact K|]. split; [exact F|]. split; [exact N|].
  destruct (generate3dModel_completes o (or_intror (conj K F))) as (this' & H).
  exists this'. split; [exact (H 20%nat N)|].
  specialize (H 20%nat N). vm_compute in H. injection H as <-. reflexivity.
Defined.

(* ================================================================== *)
(** * Where the lines are put *)

Section Positions.

Context {T : Three}.
Variable this : BaseTag3D.

Lemma wrapLoop_measured (fuel : nat) :
  forall i e text textLines numLines newLineCreated w,
    wrapLoop this fuel i e text textLines numLines newLineCreated = Some w ->
    vx (w_textSize w) = textWidth this e (w_text w).
Proof.
  induction fuel as [|fuel IH]; intros i e text textLines numLines nlc w H;
    [discriminate|].
  destruct (overflows this e text) eqn:O.
  - cbn [wrapLoop] in H.
    change (JS.gt _ _) with (overflows this e text) in H. rewrite O in H.
    destruct nlc; cbn [negb] in H; now apply IH in H.
  - rewrite wrapLoop_exit in H by assumption. injection H as <-. reflexivity.
Qed.

Lemma lineStep_placedAt (fuel i : nat) (textLines : list JS.value)
  (numLines : nat) (l : Line) :
  isOffsetTopBottom this = true ->
  lineStep this fuel i textLines numLines = Some l ->
  placedAt this i l.
Proof.
  intros Htb H. unfold lineStep in H.
  destruct (JS.get textLines i) as [| |line]; try discriminate.
  destruct (stripEmphasis line) as [text e]. rewrite Htb in H.
  unfold lineTopBottomCenter in H.
  destruct (wrapLoop this fuel i e text textLines numLines false) as [w|] eqn:W;
    [|discriminate].
  pose proof (wrapLoop_measured fuel _ _ _ _ _ _ _ W) as Hw.
  injection H as <-. unfold placedAt.
  cbn [l_mesh l_emphLevel l_text l_numLines setPosition position]. rewrite <- Hw.
  destruct (placementIs this "top"), (placementIs this "center"),
    (alignIs this "left"), (alignIs this "center"), (alignIs this "right");
    reflexivity.
Qed.

Lemma linesLoop_indexed (P : nat -> Line -> Prop) (fuel : nat) :
  (forall i textLines numLines l,
      lineStep this fuel i textLines numLines = Some l -> P i l) ->
  forall steps i s s',
    List.length (s_rendered s) = i ->
    (forall k l, nth_error (s_rendered s) k = Some l -> P k l) ->
    linesLoop this fuel steps i s = Some s' ->
    forall k l, nth_error (s_rendered s') k = Some l -> P k l.
Proof.
  intros HP. induction steps as [|steps IH]; intros i s s' Hlen Hold H;
    [discriminate|].
  cbn [linesLoop] in H. destruct (i <? s_numLines s)%nat.
  - destruct (lineStep this fuel i (s_textLines s) (s_numLines s)) as [l0|] eqn:L;
      [|discriminate].
    refine (IH (i + 1)%nat _ s' _ _ H); cbn [s_rendered].
    + rewrite List.length_app. cbn [List.length]. lia.
    + intros k l Hk.
      destruct (Nat.lt_ge_cases k (List.length (s_rendered s))) as [Hlt|Hge].
      * rewrite nth_error_app1 in Hk by assumption. now apply Hold.
      * rewrite nth_error_app2 in Hk by assumption.
        destruct (k - List.length (s_rendered s))%nat as [|d] eqn:D.
        -- cbn in Hk. injection Hk as <-.
           replace k with i by lia. exact (HP _ _ _ _ L).
        -- cbn in Hk. now destruct d.
  - injection H as <-. exact Hold.
Qed.

Lemma natQ_succ (k : nat) : natQ (k + 1) == natQ k + 1.
Proof.
  unfold natQ. rewrite Nat2Z.inj_add, inject_Z_plus. reflexivity.
Qed.

End Positions.

(** X15. Under the placements top, bottom and center, the line rendered as the
    [k]-th is put at the height [base.depth], across the tag according to
    [textAlign] and to its own width, and along the tag at the distance
    its index gives: under top and bottom two lines that follow each
    other are [1.5 * textSize] apart, away from the code.  Under center
    the block is centred for the number of lines there are when the line
    is placed. *)
Theorem lines_placed {T : Three} (this this' : BaseTag3D) (fuel : nat)
  (m : Mesh Geometry) (r : list Line) :
  isOffsetTopBottom this = true ->
  getSubtitleMesh this fuel = Some (this', m, r) ->
  (forall k l, nth_error r k = Some l -> placedAt this k l) /\
  (forall k l l',
      nth_error r k = Some l -> nth_error r (k + 1) = Some l' ->
      (textPlacement (opt this) = "top"%string ->
       vx (position (l_mesh l')) ==
       vx (position (l_mesh l)) - textSize (opt this) * LINE_HEIGHT) /\
      (textPlacement (opt this) = "bottom"%string ->
       vx (position (l_mesh l')) ==
       vx (position (l_mesh l)) + textSize (opt this) * LINE_HEIGHT)).
Proof.
  intros Htb H. unfold getSubtitleMesh in H.
  destruct (linesLoop this fuel fuel 0 (initialLines this)) as [s|] eqn:L;
    [|discriminate].
  injection H as _ _ <-.
  assert (Hall : forall k l, nth_error (s_rendered s) k = Some l -> placedAt this k l).
  { apply (linesLoop_indexed this (placedAt this) fuel
             (fun i tl n l => lineStep_placedAt this fuel i tl n l Htb)
             fuel 0 (initialLines this) s); [reflexivity| |exact L].
    intros k l Hk. destruct k; discriminate Hk. }
  split; [exact Hall|].
  intros k l l' Hl Hl'.
  pose proof (Hall _ _ Hl) as E. pose proof (Hall _ _ Hl') as E'.
  unfold placedAt in E, E'. rewrite E, E'. cbn [vx]. unfold placementIs.
  split; intros P; rewrite P; cbn [String.eqb Ascii.eqb Bool.eqb];
    rewrite !natQ_succ; ring.
Qed.

Lemma lines_placed_witness :
  let this := constructor (narrow (JS.str "abcdefghij")) in
  isOffsetTopBottom this = true /\
  textPlacement (opt this) = "bottom"%string /\
  option_map (map (fun l => Qred (vx (position (l_mesh l)))))
             (option_map (fun x => snd x) (getSubtitleMesh this 9)) =
    Some [17; 23; 29] /\
  forall this' m r l l',
    getSubtitleMesh this 9 = Some (this', m, r) ->
    nth_error r 0 = Some l -> nth_error r 1 = Some l' ->
    vx (position (l_mesh l')) == vx (position (l_mesh l)) + 6.
Proof.
  intros this.
  split; [reflexivity|]. split; [reflexivity|]. split; [vm_compute; reflexivity|].
  intros this' m r l l' H Hl Hl'.
  destruct (lines_placed this this' 9 m r eq_refl H) as [_ S].
  destruct (S 0%nat l l' Hl Hl') as [_ B].
  rewrite (B eq_refl).
  apply Qplus_comp; [apply Qeq_refl|reflexivity].
Defined.

(* ================================================================== *)
(** * The plate around the content region *)

Section PlateExtent.

Context {T : Three}.
Variable this : BaseTag3D.

(** X12. The plate keeps the content region, [base.height] by [base.width]
    around the origin, where it is, and grows on one side only: with a
    text offset that is not negative, the shifted plate runs along x from
    [- height / 2] to [height / 2] and along y from [- width / 2] to
    [width / 2], made longer by the offset before the first bound under
    top (x) and left (y) and after the second under bottom (x) and right
    (y), and not at all under center.  It is extruded by [base.depth]. *)
Theorem plate_extent :
  placementKnown this ->
  0 <= getTextBaseOffset this ->
  let b := opt this in
  let off := getTextBaseOffset this in
  exists plate,
    basePlateShape this = Some plate /\
    geometry (basePlateMesh this) = ExtrudeGeometry (Some plate) (depth b) /\
    let x0 := vx (position (basePlateMesh this)) + shape_x plate in
    let x1 := x0 + shape_width plate in
    let y0 := vy (position (basePlateMesh this)) + shape_y plate in
    let y1 := y0 + shape_height plate in
    (textPlacement b = "top"%string ->
     x0 == - height b / 2 - off /\ x1 == height b / 2 /\
     y0 == - width b / 2 /\ y1 == width b / 2) /\
    (textPlacement b = "bottom"%string ->
     x0 == - height b / 2 /\ x1 == height b / 2 + off /\
     y0 == - width b / 2 /\ y1 == width b / 2) /\
    (textPlacement b = "center"%string ->
     x0 == - height b / 2 /\ x1 == height b / 2 /\
     y0 == - width b / 2 /\ y1 == width b / 2) /\
    (textPlacement b = "left"%string ->
     x0 == - height b / 2 /\ x1 == height b / 2 /\
     y0 == - width b / 2 - off /\ y1 == width b / 2) /\
    (textPlacement b = "right"%string ->
     x0 == - height b / 2 /\ x1 == height b / 2 /\
     y0 == - width b / 2 /\ y1 == width b / 2 + off).
Proof.
  intros Hknown H0 b off. subst b off.
  assert (Hzero : JS.gt (getTextBaseOffset this) 0 = false ->
                  getTextBaseOffset this == 0).
  { intros G. apply gt_false in G. now apply Qle_antisym. }
  unfold basePlateMesh, basePlateShape, isOffsetTopBottom, isOffsetLeftRight.
  destruct (placement_cases this Hknown) as [P|[P|[P|[P|P]]]];
    unfold placementIs; rewrite P;
    cbn [String.eqb Ascii.eqb Bool.eqb orb andb];
    (eexists; split; [reflexivity|]);
    cbn [getRoundedRectShape shape_x shape_y shape_width shape_height];
    (destruct (JS.gt (getTextBaseOffset this) 0) eqn:G;
     [|pose proof (Hzero eq_refl) as Ez]);
    cbn [updateMatrix setPositionX setPositionY setPosition newMesh position
           geometry vx vy vz zero3];
    (split; [reflexivity|]);
    repeat split; intros; try congruence; try (rewrite ?Ez; field).
  all: unfold getTextBaseOffset, placementIs; rewrite P;
    destruct (hasText (opt this)); cbn; field.
Qed.

Lemma lineStep_side (fuel i : nat) (textLines : list JS.value)
  (numLines : nat) (l : Line) :
  isOffsetTopBottom this = false ->
  lineStep this fuel i textLines numLines = Some l ->
  let b := opt this in
  let w := textWidth this (l_emphLevel l) (l_text l) in
  let band := getTextRenderWidth this + 2 * textMargin b in
  vz (position (l_mesh l)) = depth b /\
  vy (position (l_mesh l)) + w / 2 ==
    (if placementIs this "left"
     then - width b / 2 - band / 2 else width b / 2 + band / 2)
    + (if placementIs this "left" then 1 else - (1 # 1))
      * (if hasBorder b then borderWidth b else 0).
Proof.
  intros Htb H. unfold lineStep in H.
  destruct (JS.get textLines i) as [| |line]; try discriminate.
  destruct (stripEmphasis line) as [text e]. rewrite Htb in H.
  destruct (isOffsetLeftRight this); [|discriminate].
  injection H as <-. unfold lineLeftRight.
  cbn [l_mesh l_emphLevel l_text setPosition position vy vz].
  split; [reflexivity|]. unfold textWidth.
  destruct (placementIs this "left"), (hasBorder (opt this)); field.
Qed.

End PlateExtent.

(** X16. Under the placements left and right no line is wrapped, and all lines
    are centred on one axis: whatever its width, the middle of each line
    is half the band reserved for the text, [getTextRenderWidth] and two
    margins wide, away from the edge [width / 2] of the content region,
    moved back by [borderWidth] when there is a border. *)
Theorem side_lines_centred {T : Three} (this this' : BaseTag3D) (fuel : nat)
  (m : Mesh Geometry) (r : list Line) :
  isOffsetTopBottom this = false ->
  getSubtitleMesh this fuel = Some (this', m, r) ->
  textMessage (opt this') = JS.trim (textMessage (opt this)) /\
  forall k l, nth_error r k = Some l ->
    let b := opt this in
    let w := textWidth this (l_emphLevel l) (l_text l) in
    let band := getTextRenderWidth this + 2 * textMargin b in
    vz (position (l_mesh l)) = depth b /\
    vy (position (l_mesh l)) + w / 2 ==
      (if placementIs this "left"
       then - width b / 2 - band / 2 else width b / 2 + band / 2)
      + (if placementIs this "left" then 1 else - (1 # 1))
        * (if hasBorder b then borderWidth b else 0).
Proof.
  intros Htb H.
  assert (Hk : placementKnown this).
  { destruct (isOffsetLeftRight this) eqn:E; [now right|].
    pose proof (getSubtitleMesh_no_branch this fuel Htb E) as G. congruence. }
  assert (Hf : fitsAsIs this) by (intros E; congruence).
  split.
  - unfold getSubtitleMesh in H.
    destruct (linesLoop this fuel fuel 0 (initialLines this)) as [s|] eqn:L;
      [|discriminate].
    injection H as <- _ _. cbn [opt options setOptions setTextMessage base textMessage].
    destruct fuel as [|fuel']; [discriminate L|].
    destruct (Nat.lt_ge_cases (List.length (messageLines this)) (S fuel')) as [Hlt|Hge].
    + destruct (linesLoop_fitting this fuel' (messageLines this) Hk Hf
                  (S fuel') 0 BufferGeometry []) as (s' & Hs' & E1 & _); [lia|].
      unfold initialLines in L. rewrite List.length_map in L.
      rewrite Hs' in L. injection L as <-. rewrite E1.
      unfold messageLines. apply join_split.
    + exfalso. clear - L Hge Hk Hf.
      assert (Hgen : forall steps i g rr,
                 (i + steps <= List.length (messageLines this))%nat ->
                 linesLoop this (S fuel') steps i
                   (mkLines (map JS.Str (messageLines this))
                            (List.length (messageLines this)) g rr) = None).
      { induction steps as [|steps IH]; intros i g rr Hi; [reflexivity|].
        cbn [linesLoop s_numLines s_textLines].
        destruct (Nat.ltb_spec i (List.length (messageLines this))); [|lia].
        destruct (lineStep this (S fuel') i _ _) as [l|] eqn:Ls; [|reflexivity].
        assert (El : l_textLines l = map JS.Str (messageLines this) /\
                     l_numLines l = List.length (messageLines this)).
        { assert (Hg : JS.get (map JS.Str (messageLines this)) i
                       = JS.Str (nth i (messageLines this) [])).
          { unfold JS.get. rewrite (nth_indep _ _ (JS.Str []))
              by (now rewrite List.length_map).
            apply (map_nth JS.Str). }
          destruct (lineStep_fitting this fuel' i _ (List.length (messageLines this))
                      _ Hk Hg) as (l1 & Hl1 & E1 & E2 & _).
          { intros Htb. specialize (Hf Htb). rewrite Forall_forall in Hf.
            apply Hf. now apply nth_In. }
          rewrite Hl1 in Ls. injection Ls as <-. now split. }
        destruct El as [-> ->]. apply IH. lia. }
      unfold initialLines in L. rewrite List.length_map in L.
      rewrite Hgen in L; [discriminate|lia].
  - unfold getSubtitleMesh in H.
    destruct (linesLoop this fuel fuel 0 (initialLines this)) as [s|] eqn:L;
      [|discriminate].
    injection H as _ _ <-.
    apply (linesLoop_indexed this
             (fun _ l =>
                vz (position (l_mesh l)) = depth (opt this) /\
                vy (position (l_mesh l))
                + textWidth this (l_emphLevel l) (l_text l) / 2 ==
                (if placementIs this "left"
                 then - width (opt this) / 2
                      - (getTextRenderWidth this + 2 * textMargin (opt this)) / 2
                 else width (opt this) / 2
                      + (getTextRenderWidth this + 2 * textMargin (opt this)) / 2)
                + (if placementIs this "left" then 1 else - (1 # 1))
                  * (if hasBorder (opt this) then borderWidth (opt this) else 0))
             fuel
             (fun i tl n l Hl => lineStep_side this fuel i tl n l Htb Hl)
             fuel 0 (initialLines this) s); [reflexivity| |exact L].
    intros k l Hkl. destruct k; discriminate Hkl.
Qed.

Lemma plate_extent_witness :
  let this := constructor (scenarioWith "top" (JS.str "**Hello World**")) in
  placementKnown this /\ getTextBaseOffset this == 10 /\
  exists plate,
    basePlateShape this = Some plate /\
    vx (position (basePlateMesh this)) + shape_x plate == - (30 # 1) /\
    vx (position (basePlateMesh this)) + shape_x plate + shape_width plate == 20.
Proof.
  intros this.
  assert (K : placementKnown this) by (left; reflexivity).
  assert (O : 0 <= getTextBaseOffset this) by (vm_compute; discriminate).
  split; [exact K|]. split; [reflexivity|].
  destruct (plate_extent this K O) as (plate & Ep & _ & Ht & _).
  destruct (Ht eq_refl) as (X0 & X1 & _).
  exists plate. split; [exact Ep|].
  split; [rewrite X0; reflexivity|rewrite X1; reflexivity].
Defined.

Lemma side_lines_centred_witness :
  let this :=
    constructor (tagOfWidth 20 "right" (JS.str "abcdef" ++ JS.LF :: JS.str "*gh*")) in
  isOffsetTopBottom this = false /\
  renderedTexts (getSubtitleMesh this 5) =
    Some [(JS.str "abcdef", 0%nat); (JS.str "gh", 1%nat)] /\
  forall this' m r l,
    getSubtitleMesh this 5 = Some (this', m, r) ->
    nth_error r 1 = Some l ->
    vy (position (l_mesh l)) + textWidth this (l_emphLevel l) (l_text l) / 2 == 23.
Proof.
  intros this.
  split; [reflexivity|]. split; [vm_compute; reflexivity|].
  intros this' m r l H Hl.
  destruct (side_lines_centred this this' 5 m r eq_refl H) as [_ S].
  destruct (S 1%nat l Hl) as [_ E]. rewrite E. reflexivity.
Defined.
